(** * MDPC CSV validator: a shallow embedding of the record-keeping core

    The development follows the TypeScript sources:
    - [App.tsx]                 asset list and [handleUpdateProgress];
    - [storageService]          the localStorage-backed record store;
    - [geminiService.ts]        [validateSpreadsheet] and its fallbacks;
    - [SystemList.tsx]          formula extraction, corrected-file
                                regeneration and the draft autosave effect;
    - [authService]             accounts and sessions;
    - [geminiService.ts]        the text-generating operations;
    - [SystemList.tsx]          the SOP, spreadsheet, protocol and history
                                panels;
    - [Dashboard.tsx]           the dashboard figures and the drill-down;
    - [App.tsx]                 the application shell.

    Strings are [string], JS numbers that the code only compares with
    integer literals are [Z], objects used as dictionaries are [gmap]s and
    optional fields are [option]s.  Exceptions caught by a [try]/[catch]
    are explicit results of the embedded functions. *)

From Stdlib Require Import ZArith Lia Ascii String.
From stdpp Require Import gmap strings list sorting pretty.

Local Open Scope Z_scope.

(** JS truthiness of a string: every string but the empty one. *)
Definition truthy (s : string) : bool :=
  match s with EmptyString => false | String _ _ => true end.

(** Truthiness of an optional string field: [undefined] and [''] are falsy. *)
Definition truthy_opt (o : option string) : bool :=
  match o with Some s => truthy s | None => false end.

(** [o || d] for an optional string. *)
Definition or_default (o : option string) (d : string) : string :=
  match o with
  | Some s => if truthy s then s else d
  | None => d
  end.

(** Strings stand for JavaScript strings through their UTF-8 bytes.
    [s.length] counts UTF-16 code units: none for a continuation byte,
    two for the first byte of a four-byte sequence (a character outside
    the basic plane, which JavaScript holds as a surrogate pair), and
    one for any other byte. *)
Definition utf16_units (a : ascii) : nat :=
  let n := nat_of_ascii a in
  if (n <? 128)%nat then 1%nat
  else if (n <? 192)%nat then 0%nat
  else if (n <? 240)%nat then 1%nat
  else 2%nat.

Fixpoint js_length (s : string) : nat :=
  match s with
  | EmptyString => 0%nat
  | String a s' => (utf16_units a + js_length s')%nat
  end.

(** [String.append] does not unfold under [simpl]; its two equations. *)
Lemma append_nil (t : string) : "" +:+ t = t.
Proof. reflexivity. Qed.

Lemma append_cons (a : ascii) (s t : string) :
  String a s +:+ t = String a (s +:+ t).
Proof. reflexivity. Qed.

Lemma append_empty_r (s : string) : s +:+ "" = s.
Proof.
  induction s as [|a s IH]; [reflexivity|].
  by rewrite append_cons, IH.
Qed.

(** ** Assets and the progress-update operation ([App.tsx]) *)

Module Assets.

Inductive SystemType :=
  WATER_SYSTEM | HVAC | LAB_EQUIPMENT | MONITORING | SOFTWARE.

Inductive ValidationStage := URS | IQ | OQ | PQ | VSR.

Inductive ComplianceStatus :=
  COMPLIANT | IN_PROGRESS | DEVIATION | NOT_STARTED.

Inductive RiskLevel := High | Medium | Low.

Record PharmaSystem := {
  id : string;
  name : string;
  type : SystemType;
  location : string;
  riskLevel : RiskLevel;
  currentStage : ValidationStage;
  status : ComplianceStatus;
  progress : Z;
  lastValidationDate : string;
  deviationsCount : Z
}.

Definition INITIAL_SYSTEMS : list PharmaSystem := [
  {| id := "1"; name := "WFI-Generator-01"; type := WATER_SYSTEM;
     location := "Utility Block A"; riskLevel := High; currentStage := OQ;
     status := IN_PROGRESS; progress := 65;
     lastValidationDate := "2023-10-15"; deviationsCount := 1 |};
  {| id := "2"; name := "HPLC-Agilent-1260"; type := LAB_EQUIPMENT;
     location := "QC Lab Main"; riskLevel := Medium; currentStage := PQ;
     status := COMPLIANT; progress := 100;
     lastValidationDate := "2024-01-20"; deviationsCount := 0 |};
  {| id := "3"; name := "AHU-Cleanroom-C"; type := HVAC;
     location := "Production Line 2"; riskLevel := High; currentStage := IQ;
     status := DEVIATION; progress := 30;
     lastValidationDate := "Pending"; deviationsCount := 3 |};
  {| id := "4"; name := "Cold-Storage-Mon-04"; type := MONITORING;
     location := "Warehouse B"; riskLevel := Medium; currentStage := OQ;
     status := IN_PROGRESS; progress := 45;
     lastValidationDate := "Pending"; deviationsCount := 0 |};
  {| id := "5"; name := "LIMS-Software-v2"; type := SOFTWARE;
     location := "Server Room 1"; riskLevel := High; currentStage := VSR;
     status := COMPLIANT; progress := 95;
     lastValidationDate := "2023-12-05"; deviationsCount := 0 |}
].

Definition status_eqb (a b : ComplianceStatus) : bool :=
  match a, b with
  | COMPLIANT, COMPLIANT | IN_PROGRESS, IN_PROGRESS
  | DEVIATION, DEVIATION | NOT_STARTED, NOT_STARTED => true
  | _, _ => false
  end.

(** The status chosen inside the [map] callback of
    [handleUpdateProgress], in the order of its [if]/[else if] chain. *)
Definition newStatus (old : ComplianceStatus) (newProgress : Z)
  : ComplianceStatus :=
  if newProgress =? 100 then COMPLIANT
  else if (0 <? newProgress) && (newProgress <? 100) then
    if negb (status_eqb old DEVIATION) then IN_PROGRESS else old
  else if newProgress =? 0 then NOT_STARTED
  else old.

Definition update_one (i : string) (newProgress : Z) (sys : PharmaSystem)
  : PharmaSystem :=
  if String.eqb (id sys) i then
    {| id := id sys; name := name sys; type := type sys;
       location := location sys; riskLevel := riskLevel sys;
       currentStage := currentStage sys;
       status := newStatus (status sys) newProgress;
       progress := newProgress;
       lastValidationDate := lastValidationDate sys;
       deviationsCount := deviationsCount sys |}
  else sys.

Definition handleUpdateProgress (systems : list PharmaSystem)
    (i : string) (newProgress : Z) : list PharmaSystem :=
  map (update_one i newProgress) systems.

(** [handleAddSystem]: the new asset is put in front. *)
Definition handleAddSystem (systems : list PharmaSystem)
    (newSystem : PharmaSystem) : list PharmaSystem :=
  newSystem :: systems.

(** A sequence of progress updates, applied left to right. *)
Definition run_updates (systems : list PharmaSystem)
    (ups : list (string * Z)) : list PharmaSystem :=
  fold_left (fun acc u => handleUpdateProgress acc (fst u) (snd u))
            ups systems.

(** The progress/status rule of the data model. *)
Definition rule_ok (sys : PharmaSystem) : Prop :=
  (progress sys = 100 -> status sys = COMPLIANT) /\
  (progress sys = 0 -> status sys = NOT_STARTED).

Lemma newStatus_100 old : newStatus old 100 = COMPLIANT.
Proof. reflexivity. Qed.

Lemma newStatus_0 old : newStatus old 0 = NOT_STARTED.
Proof. reflexivity. Qed.

Lemma newStatus_rule old p :
  (p = 100 -> newStatus old p = COMPLIANT) /\
  (p = 0 -> newStatus old p = NOT_STARTED).
Proof. split; intros ->; reflexivity. Qed.

Lemma update_one_rule i p sys :
  rule_ok sys -> rule_ok (update_one i p sys).
Proof.
  intros Hs. unfold update_one.
  destruct (String.eqb (id sys) i); [|exact Hs].
  unfold rule_ok; simpl. apply newStatus_rule.
Qed.

Lemma handleUpdateProgress_rule systems i p :
  Forall rule_ok systems -> Forall rule_ok (handleUpdateProgress systems i p).
Proof.
  unfold handleUpdateProgress. induction 1 as [|s l Hs _ IH]; simpl.
  - constructor.
  - constructor; [by apply update_one_rule | exact IH].
Qed.

Lemma INITIAL_SYSTEMS_rule : Forall rule_ok INITIAL_SYSTEMS.
Proof. repeat constructor; simpl; intros; discriminate. Qed.

(** C8. Every progress update sets the targeted assets' progress to the
    new value and their status by the rule: 100 gives Compliant (the code
    does so even when the asset stood in Deviation, so the exception the
    data model allows is never taken), 0 gives NotStarted, a value
    strictly between keeps a Deviation and otherwise gives InProgress;
    assets with another id are unchanged.  Hence over any sequence of
    updates every asset keeps satisfying "progress 100 implies
    Compliant, progress 0 implies NotStarted". *)
Theorem progress_updates_respect_rule :
  (forall systems i p sys',
      In sys' (handleUpdateProgress systems i p) ->
      exists sys, In sys systems /\
        if String.eqb (id sys) i then
          id sys' = i /\ progress sys' = p /\
          (p = 100 -> status sys' = COMPLIANT) /\
          (p = 0 -> status sys' = NOT_STARTED) /\
          (0 < p < 100 -> status sys' =
             if status_eqb (status sys) DEVIATION then DEVIATION
             else IN_PROGRESS)
        else sys' = sys) /\
  (forall systems ups,
      Forall rule_ok systems -> Forall rule_ok (run_updates systems ups)).
Proof.
  split.
  - intros systems i p sys' Hin. unfold handleUpdateProgress in Hin.
    apply in_map_iff in Hin as (sys & <- & Hin).
    exists sys. split; [exact Hin|].
    unfold update_one. destruct (String.eqb (id sys) i) eqn:E; [|reflexivity].
    apply String.eqb_eq in E. simpl.
    repeat split; try (intros ->; reflexivity); [exact E|].
    intros [H0 H1]. unfold newStatus.
    replace (p =? 100) with false by lia.
    replace (0 <? p) with true by lia.
    replace (p <? 100) with true by lia. simpl.
    by destruct (status sys).
  - intros systems ups. unfold run_updates. revert systems.
    induction ups as [|[i p] ups IH]; intros l Hl; simpl; [exact Hl|].
    apply IH. by apply handleUpdateProgress_rule.
Qed.

(** The AHU in Deviation is driven to 100, the WFI generator to 0 and
    back to 40. *)
Definition sample_updates : list (string * Z) :=
  [("3", 60); ("3", 100); ("1", 0); ("1", 40); ("9", 100)].

Lemma progress_updates_respect_rule_witness :
  Forall rule_ok INITIAL_SYSTEMS /\
  Forall rule_ok (run_updates INITIAL_SYSTEMS sample_updates) /\
  map (fun sys => (id sys, progress sys, status sys))
      (run_updates INITIAL_SYSTEMS sample_updates)
  = [("1", 40, IN_PROGRESS); ("2", 100, COMPLIANT); ("3", 100, COMPLIANT);
     ("4", 45, IN_PROGRESS); ("5", 95, COMPLIANT)].
Proof.
  split; [exact INITIAL_SYSTEMS_rule|]. split; [|reflexivity].
  exact (proj2 progress_updates_respect_rule INITIAL_SYSTEMS sample_updates
               INITIAL_SYSTEMS_rule).
Defined.

End Assets.

(** ** The fragment of the JS [Date] object used by the record store

    Time values are milliseconds since the epoch, as in ECMAScript.  The
    calendar conversions are the usual proleptic-Gregorian day-number
    formulas; [MakeDay], [MakeDate], [LocalTime] and [UTC] follow the
    abstract operations of the language specification.  The host's time
    zone is a parameter. *)

Module JsDate.

Definition msPerDay : Z := 86400000.

Definition Day (t : Z) : Z := t / msPerDay.
Definition TimeWithinDay (t : Z) : Z := t mod msPerDay.

(** The day-number formulas count years from 1 March in eras of 400
    years: [yoe] is the year of the era, [doy] the day of that year and
    [mp] the month counted from March. *)
Definition day_of_era (yoe doy : Z) : Z :=
  yoe * 365 + yoe / 4 - yoe / 100 + doy.

Definition year_of_era (doe : Z) : Z :=
  (doe - doe / 1460 + doe / 36524 - doe / 146096) / 365.

Definition first_day_of_month (mp : Z) : Z := (153 * mp + 2) / 5.

Definition month_of_day (doy : Z) : Z := (5 * doy + 2) / 153.

(** Day number (days since 1970-01-01) of a civil date, month in 1..12. *)
Definition days_from_civil (y m d : Z) : Z :=
  let y' := if m <=? 2 then y - 1 else y in
  let era := y' / 400 in
  let yoe := y' - era * 400 in
  let mp := if 2 <? m then m - 3 else m + 9 in
  era * 146097 + day_of_era yoe (first_day_of_month mp + d - 1) - 719468.

(** Civil date (year, month in 1..12, day of month) of a day number. *)
Definition civil_from_days (z : Z) : Z * Z * Z :=
  let z' := z + 719468 in
  let era := z' / 146097 in
  let doe := z' - era * 146097 in
  let yoe := year_of_era doe in
  let doy := doe - day_of_era yoe 0 in
  let mp := month_of_day doy in
  let d := doy - first_day_of_month mp + 1 in
  let m := if mp <? 10 then mp + 3 else mp - 9 in
  ((if m <=? 2 then yoe + era * 400 + 1 else yoe + era * 400), m, d).

Definition YearFromTime (t : Z) : Z := (civil_from_days (Day t)).1.1.
(** Months are numbered from 0 in the JS API. *)
Definition MonthFromTime (t : Z) : Z := (civil_from_days (Day t)).1.2 - 1.
Definition DateFromTime (t : Z) : Z := (civil_from_days (Day t)).2.

(** [MakeDay(year, month, date)]: the month may lie outside 0..11 and the
    date outside the month; both carry over. *)
Definition MakeDay (year month date : Z) : Z :=
  days_from_civil (year + month / 12) (month mod 12 + 1) 1 + date - 1.

Definition MakeDate (day time : Z) : Z := day * msPerDay + time.

(** The host's time zone: the offset of local time from UTC, in
    milliseconds, looked up at a UTC instant and at a local time value. *)
Record TimeZone := {
  LocalTZA_utc : Z -> Z;
  LocalTZA_local : Z -> Z
}.

Definition fixed_zone (offset : Z) : TimeZone :=
  {| LocalTZA_utc := fun _ => offset; LocalTZA_local := fun _ => offset |}.

Definition utc_zone : TimeZone := fixed_zone 0.

Definition LocalTime (tz : TimeZone) (t : Z) : Z := t + LocalTZA_utc tz t.
Definition UTC (tz : TimeZone) (t : Z) : Z := t - LocalTZA_local tz t.

(** [Date.prototype.getMonth] and [Date.prototype.setMonth(month)] (the
    new time value is returned instead of being stored in the object). *)
Definition getMonth (tz : TimeZone) (t : Z) : Z :=
  MonthFromTime (LocalTime tz t).

Definition setMonth (tz : TimeZone) (t : Z) (month : Z) : Z :=
  let lt := LocalTime tz t in
  UTC tz (MakeDate (MakeDay (YearFromTime lt) month (DateFromTime lt))
                   (TimeWithinDay lt)).

Definition digit (n : Z) : ascii :=
  match n with
  | 0 => "0" | 1 => "1" | 2 => "2" | 3 => "3" | 4 => "4"
  | 5 => "5" | 6 => "6" | 7 => "7" | 8 => "8" | _ => "9"
  end%char.

(** The [w] low decimal digits of a non-negative number. *)
Fixpoint pad (w : nat) (n : Z) : string :=
  match w with
  | O => ""
  | S w' => pad w' (n / 10) +:+ String (digit (n mod 10)) ""
  end.

(** Years 0..9999 print with four digits, the others with a sign and
    six digits. *)
Definition iso_year (y : Z) : string :=
  if (0 <=? y) && (y <=? 9999) then pad 4 y
  else if y <? 0 then "-" +:+ pad 6 (- y) else "+" +:+ pad 6 y.

(** [Date.prototype.toISOString]: always in UTC. *)
Definition toISOString (t : Z) : string :=
  let '(y, m, d) := civil_from_days (Day t) in
  let ms := TimeWithinDay t in
  iso_year y +:+ "-" +:+ pad 2 m +:+ "-" +:+ pad 2 d +:+ "T" +:+
  pad 2 (ms / 3600000) +:+ ":" +:+ pad 2 (ms / 60000 mod 60) +:+ ":" +:+
  pad 2 (ms / 1000 mod 60) +:+ "." +:+ pad 3 (ms mod 1000) +:+ "Z".

(** [s.split('T')[0]]: the part of [s] before its first ['T']. *)
Fixpoint before_T (s : string) : string :=
  match s with
  | EmptyString => ""
  | String a s' => if Ascii.eqb a "T" then "" else String a (before_T s')
  end.

(** The calendar date of a time value as [toISOString] prints it. *)
Definition iso_date (y m d : Z) : string :=
  iso_year y +:+ "-" +:+ pad 2 m +:+ "-" +:+ pad 2 d.

Definition leap (y : Z) : bool :=
  ((y mod 4 =? 0) && negb (y mod 100 =? 0)) || (y mod 400 =? 0).

Definition days_in_month (y m : Z) : Z :=
  if m =? 2 then if leap y then 29 else 28
  else if (m =? 4) || (m =? 6) || (m =? 9) || (m =? 11) then 30 else 31.

(** Month arithmetic on a civil date as [setMonth (getMonth + 6)] performs
    it: the month advances by six, the year carries, and a day of month
    that the target month does not have runs over into the next month. *)
Definition plus_six_months_rollover (ymd : Z * Z * Z) : Z * Z * Z :=
  let '(y, m, d) := ymd in
  let y' := y + (m + 5) / 12 in
  let m' := (m + 5) mod 12 + 1 in
  if d <=? days_in_month y' m' then (y', m', d)
  else (y', m' + 1, d - days_in_month y' m').

(** Time value of an ISO calendar date [YYYY-MM-DD], the form an
    [<input type="date">] yields (read as UTC midnight, as [new Date]
    does for the date-only form); [None] stands for an invalid date,
    whose [getTime()] is [NaN].  Other date formats are not read here. *)
Definition digit_val (a : ascii) : option Z :=
  let n := Z.of_N (N_of_ascii a) in
  if (48 <=? n) && (n <=? 57) then Some (n - 48) else None.

Fixpoint number_of (acc : Z) (s : list ascii) : option Z :=
  match s with
  | [] => Some acc
  | a :: s' =>
      match digit_val a with
      | Some k => number_of (10 * acc + k) s'
      | None => None
      end
  end.

Definition parse_iso_date (s : string) : option Z :=
  match list_ascii_of_string s with
  | [y1; y2; y3; y4; "-"%char; m1; m2; "-"%char; d1; d2] =>
      match number_of 0 [y1; y2; y3; y4], number_of 0 [m1; m2],
            number_of 0 [d1; d2] with
      | Some y, Some m, Some d =>
          if (1 <=? m) && (m <=? 12) && (1 <=? d) && (d <=? days_in_month y m)
          then Some (MakeDate (days_from_civil y m d) 0) else None
      | _, _, _ => None
      end
  | _ => None
  end.

(** *** The calendar conversions are inverse to each other *)

(** The year of the era, which starts in March, has 366 days. *)
Definition long_year (yoe : Z) : Prop :=
  (yoe + 1) mod 4 = 0 /\ ((yoe + 1) mod 100 <> 0 \/ yoe = 399).

Lemma year_of_era_day_of_era yoe doy :
  0 <= yoe < 400 -> 0 <= doy <= 365 -> (doy = 365 -> long_year yoe) ->
  year_of_era (day_of_era yoe doy) = yoe /\
  0 <= day_of_era yoe doy < 146097.
Proof.
  unfold year_of_era, day_of_era, long_year. intros Hy Hd Hl.
  Z.to_euclidean_division_equations. lia.
Qed.

Lemma day_of_era_year_of_era doe :
  0 <= doe < 146097 ->
  0 <= year_of_era doe < 400 /\
  0 <= doe - day_of_era (year_of_era doe) 0 <= 365.
Proof.
  unfold year_of_era, day_of_era. intros H.
  Z.to_euclidean_division_equations. lia.
Qed.

Lemma month_of_day_bounds doy :
  0 <= doy <= 365 ->
  0 <= month_of_day doy <= 11 /\
  1 <= doy - first_day_of_month (month_of_day doy) + 1 <= 31.
Proof.
  unfold month_of_day, first_day_of_month. intros H.
  Z.to_euclidean_division_equations. lia.
Qed.

(** Length of the month with index [mp] counted from March; February,
    the last one, is given its full 29 days. *)
Definition month_length (mp : Z) : Z :=
  if mp =? 11 then 29
  else first_day_of_month (mp + 1) - first_day_of_month mp.

Lemma month_of_day_first_day mp k :
  0 <= mp <= 11 -> 0 <= k < month_length mp ->
  month_of_day (first_day_of_month mp + k) = mp.
Proof.
  unfold month_length, month_of_day, first_day_of_month. intros Hm Hk.
  destruct (mp =? 11) eqn:E; [apply Z.eqb_eq in E|apply Z.eqb_neq in E];
    Z.to_euclidean_division_equations; lia.
Qed.

(** The civil date of a day given by era, year of era and day of year. *)
Lemma civil_from_parts era yoe doy :
  0 <= yoe < 400 -> 0 <= doy <= 365 -> (doy = 365 -> long_year yoe) ->
  civil_from_days (era * 146097 + day_of_era yoe doy - 719468) =
  let mp := month_of_day doy in
  let m := if mp <? 10 then mp + 3 else mp - 9 in
  ((if m <=? 2 then yoe + era * 400 + 1 else yoe + era * 400), m,
   doy - first_day_of_month mp + 1).
Proof.
  intros Hy Hd Hl.
  destruct (year_of_era_day_of_era yoe doy Hy Hd Hl) as [Hyoe Hdoe].
  unfold civil_from_days. cbv zeta.
  replace (era * 146097 + day_of_era yoe doy - 719468 + 719468)
    with (day_of_era yoe doy + era * 146097) by lia.
  rewrite Z.div_add by lia. rewrite (Z.div_small _ _ Hdoe), Z.add_0_l.
  replace (day_of_era yoe doy + era * 146097 - era * 146097)
    with (day_of_era yoe doy) by lia.
  rewrite Hyoe.
  replace (day_of_era yoe doy - day_of_era yoe 0) with doy
    by (unfold day_of_era; lia).
  reflexivity.
Qed.


Lemma first_day_bounds mp d :
  0 <= mp <= 11 -> 1 <= d <= month_length mp ->
  0 <= first_day_of_month mp + d - 1 <= 365 /\
  (first_day_of_month mp + d - 1 = 365 -> mp = 11 /\ d = 29).
Proof.
  unfold month_length, first_day_of_month. intros H.
  destruct (mp =? 11) eqn:E; [apply Z.eqb_eq in E|apply Z.eqb_neq in E];
    Z.to_euclidean_division_equations; lia.
Qed.

Definition month_number (mp : Z) : Z := if mp <? 10 then mp + 3 else mp - 9.

Lemma civil_from_month_parts z era yoe mp d :
  z = era * 146097 + day_of_era yoe (first_day_of_month mp + d - 1) - 719468 ->
  0 <= yoe < 400 -> 0 <= mp <= 11 -> 1 <= d <= month_length mp ->
  (mp = 11 -> d = 29 -> long_year yoe) ->
  civil_from_days z =
  ((if month_number mp <=? 2 then yoe + era * 400 + 1 else yoe + era * 400),
   month_number mp, d).
Proof.
  intros -> Hy Hm Hd Hl.
  destruct (first_day_bounds mp d Hm Hd) as (H0 & H1).
  rewrite civil_from_parts; [|lia|lia|intros; apply Hl; lia].
  cbv zeta.
  replace (first_day_of_month mp + d - 1)
    with (first_day_of_month mp + (d - 1)) by lia.
  rewrite month_of_day_first_day by lia.
  unfold month_number. f_equal. lia.
Qed.

Lemma leap_long_year y :
  leap y = true -> long_year (y - 1 - (y - 1) / 400 * 400).
Proof.
  unfold leap, long_year. intros E.
  apply orb_prop in E as [E|E].
  - apply andb_prop in E as [E1 E2]. apply Z.eqb_eq in E1.
    apply negb_true_iff, Z.eqb_neq in E2.
    Z.to_euclidean_division_equations. lia.
  - apply Z.eqb_eq in E. Z.to_euclidean_division_equations. lia.
Qed.

Lemma days_in_month_cases y m :
  1 <= m <= 12 ->
  (m = 2 /\ days_in_month y m = if leap y then 29 else 28) \/
  (m <> 2 /\ days_in_month y m =
             month_length (if 2 <? m then m - 3 else m + 9)).
Proof.
  intros Hm.
  assert (m = 1 \/ m = 2 \/ m = 3 \/ m = 4 \/ m = 5 \/ m = 6 \/ m = 7 \/
          m = 8 \/ m = 9 \/ m = 10 \/ m = 11 \/ m = 12) as Hc by lia.
  destruct Hc as [->|[->|[->|[->|[->|[->|[->|[->|[->|[->|[->| ->]]]]]]]]]]];
    try (right; split; [lia|reflexivity]).
  left. split; reflexivity.
Qed.

Theorem civil_from_days_from_civil y m d :
  1 <= m <= 12 -> 1 <= d <= days_in_month y m ->
  civil_from_days (days_from_civil y m d) = (y, m, d).
Proof.
  intros Hm Hd.
  set (y' := if m <=? 2 then y - 1 else y).
  set (mp := if 2 <? m then m - 3 else m + 9).
  assert (Hmp : 0 <= mp <= 11 /\ month_number mp = m).
  { subst mp. unfold month_number.
    destruct (2 <? m) eqn:E; [apply Z.ltb_lt in E|apply Z.ltb_ge in E].
    - destruct (m - 3 <? 10) eqn:E'; lia.
    - destruct (m + 9 <? 10) eqn:E'; lia. }
  destruct Hmp as [Hmp Hmn].
  assert (Hyoe : 0 <= y' - y' / 400 * 400 < 400).
  { Z.to_euclidean_division_equations. lia. }
  rewrite (civil_from_month_parts _ (y' / 400) (y' - y' / 400 * 400) mp d);
    [|reflexivity|done|done| |].
  - rewrite Hmn. f_equal. f_equal. subst y'. destruct (m <=? 2); lia.
  - destruct (days_in_month_cases y m Hm) as [[-> E]|[Hne E]].
    + rewrite E in Hd. change mp with 11.
      change (month_length 11) with 29. destruct (leap y); lia.
    + fold mp in E. lia.
  - intros -> ->.
    assert (m = 2) as -> by (unfold month_number in Hmn; simpl in Hmn; lia).
    subst y'. simpl. apply leap_long_year.
    destruct (days_in_month_cases y 2 Hm) as [[_ E]|[Hne _]]; [|done].
    rewrite E in Hd. destruct (leap y); [done|lia].
Qed.

Lemma civil_from_days_valid z :
  1 <= (civil_from_days z).1.2 <= 12 /\ 1 <= (civil_from_days z).2 <= 31.
Proof.
  unfold civil_from_days. cbv zeta. cbn [fst snd].
  set (doe := z + 719468 - (z + 719468) / 146097 * 146097).
  assert (Hdoe : 0 <= doe < 146097).
  { subst doe. Z.to_euclidean_division_equations. lia. }
  destruct (day_of_era_year_of_era doe Hdoe) as [_ Hdoy].
  destruct (month_of_day_bounds _ Hdoy) as [Hmp Hd].
  split; [|exact Hd].
  destruct (_ <? 10) eqn:E; [apply Z.ltb_lt in E|apply Z.ltb_ge in E]; lia.
Qed.

Lemma days_from_civil_day y m d :
  days_from_civil y m d = days_from_civil y m 1 + d - 1.
Proof. unfold days_from_civil, day_of_era. cbv zeta. lia. Qed.

Lemma leap_cases y :
  (leap y = true /\ y mod 4 = 0 /\ (y mod 100 <> 0 \/ y mod 400 = 0)) \/
  (leap y = false /\ (y mod 4 <> 0 \/ y mod 100 = 0) /\ y mod 400 <> 0).
Proof.
  unfold leap.
  destruct (y mod 4 =? 0) eqn:E4; destruct (y mod 100 =? 0) eqn:E100;
    destruct (y mod 400 =? 0) eqn:E400; simpl;
    rewrite ?Z.eqb_eq, ?Z.eqb_neq in *;
    first [left; split; [reflexivity|]; Z.to_euclidean_division_equations; lia
          |right; split; [reflexivity|]; Z.to_euclidean_division_equations; lia].
Qed.

Lemma days_from_civil_next_month y m :
  1 <= m <= 11 ->
  days_from_civil y (m + 1) 1 = days_from_civil y m 1 + days_in_month y m.
Proof.
  intros Hm.
  assert (m = 1 \/ m = 2 \/ m = 3 \/ m = 4 \/ m = 5 \/ m = 6 \/ m = 7 \/
          m = 8 \/ m = 9 \/ m = 10 \/ m = 11) as Hc by lia.
  destruct Hc as [->|[->|[->|[->|[->|[->|[->|[->|[->|[->| ->]]]]]]]]]].
  2:{ change (days_in_month y 2) with (if leap y then 29 else 28).
      unfold days_from_civil, day_of_era, first_day_of_month. simpl.
      destruct (leap_cases y) as [(-> & H4 & H100)|(-> & H4 & H400)];
        Z.to_euclidean_division_equations; lia. }
  all: unfold days_from_civil, days_in_month, day_of_era, first_day_of_month;
    simpl; Z.to_euclidean_division_equations; lia.
Qed.

Lemma days_in_month_bounds y m : 28 <= days_in_month y m <= 31.
Proof. unfold days_in_month. repeat case_match; lia. Qed.

(** [MakeDay] for the month six months on, and what [civil_from_days]
    reads back: the statement of [setMonth(getMonth() + 6)] on the civil
    date of a day. *)
Definition month_plus_six (ymd : Z * Z * Z) : Z :=
  MakeDay ymd.1.1 (ymd.1.2 - 1 + 6) ymd.2.

Theorem civil_month_plus_six z :
  civil_from_days (month_plus_six (civil_from_days z)) =
  plus_six_months_rollover (civil_from_days z).
Proof.
  pose proof (civil_from_days_valid z) as [Hm Hd].
  destruct (civil_from_days z) as [[y m] d]. cbn [fst snd] in Hm, Hd.
  unfold month_plus_six, plus_six_months_rollover, MakeDay. cbn [fst snd].
  replace (m - 1 + 6) with (m + 5) by lia.
  set (Y := y + (m + 5) / 12). set (M := (m + 5) mod 12 + 1).
  assert (HM : 1 <= M <= 12).
  { subst M. Z.to_euclidean_division_equations. lia. }
  pose proof (days_in_month_bounds Y M) as Hb.
  destruct (d <=? days_in_month Y M) eqn:E;
    [apply Z.leb_le in E|apply Z.leb_gt in E].
  - rewrite <- days_from_civil_day.
    apply civil_from_days_from_civil; lia.
  - assert (HM' : 1 <= M <= 11).
    { destruct (decide (M = 12)) as [HM12|]; [|lia].
      rewrite HM12 in E. change (days_in_month Y 12) with 31 in E. lia. }
    pose proof (days_in_month_bounds Y (M + 1)) as Hb'.
    replace (days_from_civil Y M 1 + d - 1)
      with (days_from_civil Y (M + 1) 1 + (d - days_in_month Y M) - 1)
      by (rewrite days_from_civil_next_month by done; lia).
    rewrite <- days_from_civil_day.
    apply civil_from_days_from_civil; lia.
Qed.

End JsDate.

(** ** Data exchanged between the components ([types.ts]) *)

Module Types.

(** Values of type [any] that occur as spreadsheet cell contents.  The
    payload of a number is never inspected by the code modelled here. *)
Inductive JsValue :=
| VUndefined
| VString (s : string)
| VNumber (n : Z)
| VBoolean (b : bool).

Record SpreadsheetCell := {
  address : string;
  formula : string;
  value : JsValue
}.

Inductive Severity := High | Medium | Low.

Record Discrepancy := {
  d_address : string;
  d_formula : string;
  d_value : JsValue;
  reason : string;
  severity : Severity;
  suggestedFormula : option string;
  suggestedValue : option string
}.

Record ExcelAnalysisResult := {
  r_id : option string;
  systemId : option string;
  date : option string;
  fileName : string;
  retentionDate : option string;
  totalFormulas : Z;
  discrepancies : list Discrepancy;
  isValid : bool;
  summary : string;
  referencedSopTitle : option string
}.

Definition set_retentionDate (rd : string) (r : ExcelAnalysisResult)
  : ExcelAnalysisResult :=
  {| r_id := r_id r; systemId := systemId r; date := date r;
     fileName := fileName r; retentionDate := Some rd;
     totalFormulas := totalFormulas r; discrepancies := discrepancies r;
     isValid := isValid r; summary := summary r;
     referencedSopTitle := referencedSopTitle r |}.

(** The stamping done by [handleFileUpload] on the analysis it receives:
    [systemId], [date] and, with an active SOP, [referencedSopTitle]. *)
Definition stamp (sysId : string) (isoNow : string)
    (sopTitle : option string) (r : ExcelAnalysisResult)
  : ExcelAnalysisResult :=
  {| r_id := r_id r; systemId := Some sysId; date := Some isoNow;
     fileName := fileName r; retentionDate := retentionDate r;
     totalFormulas := totalFormulas r; discrepancies := discrepancies r;
     isValid := isValid r; summary := summary r;
     referencedSopTitle :=
       match sopTitle with
       | Some t => Some t
       | None => referencedSopTitle r
       end |}.

End Types.

(** ** The record store ([storageService])

    The two localStorage slots hold JSON texts of record lists; writing and
    reading them back returns the same records, so a slot is modelled by
    the list it encodes, [None] when the key is absent.  The simulated
    latency ([delay]) precedes the synchronous read-modify-write of each
    operation and is not part of the state. *)

Module RecordStore.

Record InspectionRecord := {
  id : string;
  systemId : string;
  date : string;
  inspectorName : string;
  notes : string;
  parameters : gmap string string;
  signature : option string
}.

Record Storage := {
  INSPECTIONS : option (list InspectionRecord);
  EXCEL_REPORTS : option (list Types.ExcelAnalysisResult)
}.

Definition empty_storage : Storage :=
  {| INSPECTIONS := None; EXCEL_REPORTS := None |}.

(** [Array.prototype.sort(compare)], for the comparators used here.  The
    comparator's result is [None] when it is [NaN], which [sort] reads
    as 0.  The sort is stable: an element stays in front of the later
    elements it does not compare greater than. *)
Section Sort.
Context {A : Type} (compare : A -> A -> option Z).

Definition not_after (a b : A) : bool :=
  match compare a b with
  | Some v => v <=? 0
  | None => true
  end.

Fixpoint insert_sorted (x : A) (l : list A) : list A :=
  match l with
  | [] => [x]
  | y :: l' =>
      if not_after x y then x :: l else y :: insert_sorted x l'
  end.

Definition sort (l : list A) : list A := foldr insert_sorted [] l.
End Sort.

Section Store.
(** [new Date(s).getTime()]; [None] is [NaN] (an invalid date). *)
Variable getTime : string -> option Z.

Definition minus (a b : option Z) : option Z :=
  match a, b with
  | Some x, Some y => Some (x - y)
  | _, _ => None
  end.

(** [(a, b) => new Date(b.date).getTime() - new Date(a.date).getTime()] *)
Definition by_date_desc (a b : InspectionRecord) : option Z :=
  minus (getTime (date b)) (getTime (date a)).

Definition getInspections (st : Storage) (sid : string)
  : list InspectionRecord :=
  match INSPECTIONS st with
  | None => []
  | Some allRecords =>
      sort by_date_desc
           (filter (fun r => systemId r = sid) allRecords)
  end.

Definition saveInspection (st : Storage) (record : InspectionRecord)
  : Storage :=
  {| INSPECTIONS := Some (default [] (INSPECTIONS st) ++ [record]);
     EXCEL_REPORTS := EXCEL_REPORTS st |}.

(** [b.date ? new Date(b.date).getTime() : 0] *)
Definition report_time (r : Types.ExcelAnalysisResult) : option Z :=
  match Types.date r with
  | Some s => if truthy s then getTime s else Some 0
  | None => Some 0
  end.

Definition by_report_date_desc (a b : Types.ExcelAnalysisResult)
  : option Z :=
  minus (report_time b) (report_time a).

Definition getExcelReports (st : Storage) (sid : string)
  : list Types.ExcelAnalysisResult :=
  match EXCEL_REPORTS st with
  | None => []
  | Some allReports =>
      sort by_report_date_desc
           (filter (fun r => Types.systemId r = Some sid) allReports)
  end.
End Store.

(** The retention date [saveExcelReport] computes from the clock reading
    [now] taken by [new Date()] inside it. *)
Definition retention (tz : JsDate.TimeZone) (now : Z) : string :=
  JsDate.before_T
    (JsDate.toISOString
       (JsDate.setMonth tz now (JsDate.getMonth tz now + 6))).

Definition saveExcelReport (tz : JsDate.TimeZone) (now : Z)
    (st : Storage) (report : Types.ExcelAnalysisResult) : Storage :=
  {| INSPECTIONS := INSPECTIONS st;
     EXCEL_REPORTS :=
       Some (default [] (EXCEL_REPORTS st)
             ++ [Types.set_retentionDate (retention tz now) report]) |}.

(** The retention date as the specification words it, for comparison
    with [retention]: "retentionDate(uploadTimestamp) = uploadTimestamp +
    6 months, formatted as a calendar date", by month arithmetic on the
    calendar date of the upload timestamp. *)
Definition retentionDate_spec (uploadTimestamp : Z) : string :=
  let '(y, m, d) := JsDate.civil_from_days (JsDate.Day uploadTimestamp) in
  JsDate.iso_date (y + (m + 5) / 12) ((m + 5) mod 12 + 1) d.

(** *** Facts about [sort] *)

Section SortFacts.
Context {A : Type} (compare : A -> A -> option Z).

Lemma insert_sorted_perm (x : A) (l : list A) :
  insert_sorted compare x l ≡ₚ x :: l.
Proof.
  induction l as [|y l IH]; simpl; [done|].
  destruct (not_after compare x y); [done|].
  rewrite IH. apply Permutation_swap.
Qed.

Lemma sort_perm (l : list A) : sort compare l ≡ₚ l.
Proof.
  induction l as [|x l IH]; simpl; [done|].
  rewrite insert_sorted_perm. by rewrite IH.
Qed.

(** When the comparator is a difference of integer keys, the result is
    ordered by non-increasing key. *)
Variable key : A -> Z.

Definition keyed_on (l : list A) : Prop :=
  forall a b, a ∈ l -> b ∈ l -> compare a b = Some (key b - key a).

Lemma insert_sorted_sorted (x : A) (l : list A) :
  keyed_on (x :: l) ->
  StronglySorted (fun a b => key b <= key a) l ->
  StronglySorted (fun a b => key b <= key a) (insert_sorted compare x l).
Proof.
  intros Hk Hs. induction Hs as [|y l Hs IH Hy]; simpl.
  - repeat constructor.
  - unfold not_after.
    rewrite (Hk x y) by (rewrite !elem_of_cons; auto).
    destruct (key y - key x <=? 0) eqn:E.
    + apply Z.leb_le in E.
      constructor; [by constructor|].
      constructor; [lia|].
      eapply Forall_impl; [exact Hy|]. simpl. intros; lia.
    + apply Z.leb_gt in E.
      constructor.
      * apply IH. intros a b Ha Hb. apply Hk.
        -- rewrite !elem_of_cons in *. tauto.
        -- rewrite !elem_of_cons in *. tauto.
      * rewrite insert_sorted_perm. constructor; [lia|exact Hy].
Qed.

Lemma sort_sorted (l : list A) :
  keyed_on l ->
  StronglySorted (fun a b => key b <= key a) (sort compare l).
Proof.
  induction l as [|x l IH]; intros Hk; simpl; [constructor|].
  apply insert_sorted_sorted.
  - intros a b Ha Hb. apply Hk.
    + rewrite elem_of_cons in *. rewrite sort_perm in Ha. exact Ha.
    + rewrite elem_of_cons in *. rewrite sort_perm in Hb. exact Hb.
  - apply IH. intros a b Ha Hb. apply Hk; by apply list_elem_of_further.
Qed.
End SortFacts.

(** *** Inspections *)

Section InspectionFacts.
Variable getTime : string -> option Z.

(** [a] is dated no earlier than [b], both dates being valid. *)
Definition not_older (a b : InspectionRecord) : Prop :=
  exists ta tb, getTime (date a) = Some ta /\
                getTime (date b) = Some tb /\ tb <= ta.

Definition stored (st : Storage) : list InspectionRecord :=
  default [] (INSPECTIONS st).

Lemma getInspections_perm st sid :
  getInspections getTime st sid
    ≡ₚ filter (fun r => systemId r = sid) (stored st).
Proof.
  unfold getInspections, stored.
  destruct (INSPECTIONS st) as [l|]; simpl; [|done].
  apply sort_perm.
Qed.

Lemma getInspections_sorted st sid :
  Forall (fun r => is_Some (getTime (date r))) (stored st) ->
  StronglySorted not_older (getInspections getTime st sid).
Proof.
  intros Hv.
  assert (Hall : Forall (fun r => is_Some (getTime (date r)))
                        (getInspections getTime st sid)).
  { rewrite getInspections_perm. rewrite !Forall_forall in *.
    intros r Hr. apply Hv.
    by apply list_elem_of_filter in Hr as [_ Hr]. }
  assert (Hs : StronglySorted
            (fun a b => default 0 (getTime (date b))
                        <= default 0 (getTime (date a)))
            (getInspections getTime st sid)).
  { unfold getInspections, stored in *.
    destruct (INSPECTIONS st) as [l|]; simpl in *; [|constructor].
    apply sort_sorted. intros a b Ha Hb.
    rewrite Forall_forall in Hv.
    destruct (Hv a) as [ta Hta].
    { by apply list_elem_of_filter in Ha as [_ ?]. }
    destruct (Hv b) as [tb Htb].
    { by apply list_elem_of_filter in Hb as [_ ?]. }
    unfold by_date_desc. by rewrite Hta, Htb. }
  revert Hall. induction Hs as [|x l Hs IH Hx]; intros Hall.
  - constructor.
  - apply Forall_cons in Hall as [[tx Htx] Hall].
    constructor; [by apply IH|].
    rewrite Forall_forall in Hx, Hall |- *.
    intros y Hy. destruct (Hall y Hy) as [ty Hty].
    specialize (Hx y Hy). rewrite Htx, Hty in Hx. simpl in Hx.
    by exists tx, ty.
Qed.

(** C6. A saved inspection record is listed for its asset; and when
    the stored dates are valid dates, the listing for an asset holds
    exactly the stored records owned by it (as a multiset), most
    recent first.  Distinct dates are not needed: equal dates are
    allowed next to each other. *)
Theorem inspections_round_trip (st : Storage) :
  (forall r, r ∈ getInspections getTime (saveInspection st r) (systemId r))
  /\
  (forall sid,
      Forall (fun r => is_Some (getTime (date r))) (stored st) ->
      getInspections getTime st sid
        ≡ₚ filter (fun r => systemId r = sid) (stored st) /\
      StronglySorted not_older (getInspections getTime st sid)).
Proof.
  split.
  - intros r. rewrite getInspections_perm.
    apply list_elem_of_filter. split; [done|].
    unfold stored, saveInspection; simpl.
    apply elem_of_app. right. by apply list_elem_of_singleton.
  - intros sid Hv. split.
    + apply getInspections_perm.
    + by apply getInspections_sorted.
Qed.
End InspectionFacts.

(** *** Retention stamping *)

Lemma Day_MakeDate day time :
  0 <= time < JsDate.msPerDay ->
  JsDate.Day (JsDate.MakeDate day time) = day.
Proof.
  intros H. unfold JsDate.Day, JsDate.MakeDate.
  rewrite Z.add_comm, Z.div_add by (unfold JsDate.msPerDay; lia).
  rewrite Z.div_small by lia. lia.
Qed.

Definition no_T (s : string) : Prop :=
  Forall (fun a => a <> "T"%char) (list_ascii_of_string s).

Lemma no_T_app s1 s2 : no_T s1 -> no_T s2 -> no_T (s1 +:+ s2).
Proof.
  unfold no_T. induction s1 as [|a s1 IH]; simpl; [done|].
  intros H1 H2. apply Forall_cons in H1 as [Ha H1].
  constructor; [done|]. by apply IH.
Qed.

Lemma no_T_char a : a <> "T"%char -> no_T (String a "").
Proof. intros H. unfold no_T; simpl. by repeat constructor. Qed.

Lemma no_T_pad w n : no_T (JsDate.pad w n).
Proof.
  revert n. induction w as [|w IH]; intros n; simpl; [constructor|].
  apply no_T_app; [apply IH|].
  apply no_T_char. unfold JsDate.digit. by repeat case_match.
Qed.

Lemma before_T_app s rest :
  no_T s -> JsDate.before_T (s +:+ rest) = s +:+ JsDate.before_T rest.
Proof.
  unfold no_T. induction s as [|a s IH]; [done|].
  intros H. apply Forall_cons in H as [Ha H].
  rewrite !append_cons. simpl.
  destruct (Ascii.eqb a "T") eqn:E.
  - by apply Ascii.eqb_eq in E.
  - by rewrite IH.
Qed.

Lemma no_T_iso_year y : no_T (JsDate.iso_year y).
Proof.
  unfold JsDate.iso_year.
  repeat case_match;
    repeat first [apply no_T_pad | by apply no_T_char | apply no_T_app].
Qed.

Lemma before_T_at_T rest : JsDate.before_T ("T" +:+ rest) = "".
Proof. reflexivity. Qed.

Lemma date_part_of_toISOString t :
  JsDate.before_T (JsDate.toISOString t) =
  let '(y, m, d) := JsDate.civil_from_days (JsDate.Day t) in
  JsDate.iso_date y m d.
Proof.
  unfold JsDate.toISOString, JsDate.iso_date.
  destruct (JsDate.civil_from_days (JsDate.Day t)) as [[y m] d].
  rewrite before_T_app by apply no_T_iso_year.
  rewrite before_T_app by (by apply no_T_char).
  rewrite before_T_app by apply no_T_pad.
  rewrite before_T_app by (by apply no_T_char).
  rewrite before_T_app by apply no_T_pad.
  by rewrite before_T_at_T, append_empty_r.
Qed.

Definition reports (st : Storage) : list Types.ExcelAnalysisResult :=
  default [] (EXCEL_REPORTS st).

Definition ymd_string (ymd : Z * Z * Z) : string :=
  JsDate.iso_date ymd.1.1 ymd.1.2 ymd.2.

Lemma date_part_ymd t :
  JsDate.before_T (JsDate.toISOString t) =
  ymd_string (JsDate.civil_from_days (JsDate.Day t)).
Proof.
  rewrite date_part_of_toISOString. unfold ymd_string.
  by destruct (JsDate.civil_from_days (JsDate.Day t)) as [[y m] d].
Qed.

Lemma setMonth_utc t month :
  JsDate.setMonth JsDate.utc_zone t month =
  JsDate.MakeDate
    (JsDate.MakeDay (JsDate.YearFromTime t) month (JsDate.DateFromTime t))
    (JsDate.TimeWithinDay t).
Proof.
  unfold JsDate.setMonth, JsDate.UTC, JsDate.LocalTime.
  cbn [JsDate.utc_zone JsDate.fixed_zone
       JsDate.LocalTZA_utc JsDate.LocalTZA_local].
  by rewrite Z.add_0_r, Z.sub_0_r.
Qed.

Lemma getMonth_utc t :
  JsDate.getMonth JsDate.utc_zone t = JsDate.MonthFromTime t.
Proof.
  unfold JsDate.getMonth, JsDate.LocalTime.
  cbn [JsDate.utc_zone JsDate.fixed_zone JsDate.LocalTZA_utc].
  by rewrite Z.add_0_r.
Qed.

Lemma month_plus_six_time t :
  JsDate.MakeDay (JsDate.YearFromTime t) (JsDate.MonthFromTime t + 6)
                 (JsDate.DateFromTime t)
  = JsDate.month_plus_six (JsDate.civil_from_days (JsDate.Day t)).
Proof.
  unfold JsDate.month_plus_six, JsDate.YearFromTime, JsDate.MonthFromTime,
    JsDate.DateFromTime.
  reflexivity.
Qed.

Lemma retention_utc now :
  retention JsDate.utc_zone now =
  ymd_string (JsDate.plus_six_months_rollover
                (JsDate.civil_from_days (JsDate.Day now))).
Proof.
  unfold retention. rewrite date_part_ymd. f_equal.
  rewrite setMonth_utc, getMonth_utc.
  rewrite Day_MakeDate
    by (apply Z.mod_pos_bound; unfold JsDate.msPerDay; lia).
  rewrite month_plus_six_time.
  apply JsDate.civil_month_plus_six.
Qed.

Lemma getExcelReports_stored getTime st sid r :
  r ∈ getExcelReports getTime st sid -> r ∈ reports st.
Proof.
  unfold getExcelReports, reports.
  destruct (EXCEL_REPORTS st) as [l|]; simpl; [|by intros ?%elem_of_nil].
  rewrite sort_perm. by intros [_ ?]%list_elem_of_filter.
Qed.


(** A report as [validateSpreadsheet] returns it for a sheet without
    formulas, used in the examples below. *)
Definition sample_analysis : Types.ExcelAnalysisResult :=
  {| Types.r_id := None; Types.systemId := None; Types.date := None;
     Types.fileName := "calc.xlsx"; Types.retentionDate := None;
     Types.totalFormulas := 0; Types.discrepancies := [];
     Types.isValid := true;
     Types.summary := "No formulas found in the spreadsheet.";
     Types.referencedSopTitle := None |}.

(** An upload stamped at 2024-01-31T23:59:59.900Z and written 300 ms
    later, on a UTC host. *)
Definition late_upload : Z := 1706745599900.

Definition late_report : Types.ExcelAnalysisResult :=
  Types.stamp "5" (JsDate.toISOString late_upload) None sample_analysis.



(** [setMonth] run-over at a month end: 31 August gives 3 March. *)
Example retention_month_end :
  JsDate.toISOString 1725105600000 = "2024-08-31T12:00:00.000Z" /\
  retention JsDate.utc_zone 1725105600000 = "2025-03-03".
Proof. by vm_compute. Qed.

(** *** A concrete store for the inspection listing *)

Definition inspection (i sid d : string) : InspectionRecord :=
  {| id := i; systemId := sid; date := d; inspectorName := "QA";
     notes := ""; parameters := ∅; signature := None |}.

Definition sample_store : Storage :=
  saveInspection
    (saveInspection
       (saveInspection
          (saveInspection empty_storage (inspection "a" "1" "2024-01-15"))
          (inspection "b" "2" "2024-02-01"))
       (inspection "c" "1" "2024-03-01"))
    (inspection "d" "1" "2023-12-24").

Lemma inspections_round_trip_witness :
  Forall (fun r => is_Some (JsDate.parse_iso_date (date r)))
         (stored sample_store) /\
  getInspections JsDate.parse_iso_date sample_store "1"
    ≡ₚ filter (fun r => systemId r = "1") (stored sample_store) /\
  StronglySorted (not_older JsDate.parse_iso_date)
    (getInspections JsDate.parse_iso_date sample_store "1").
Proof.
  assert (Hv : Forall (fun r => is_Some (JsDate.parse_iso_date (date r)))
                      (stored sample_store)).
  { repeat constructor; by eexists. }
  split; [exact Hv|].
  exact (proj2 (inspections_round_trip JsDate.parse_iso_date sample_store)
               "1" Hv).
Defined.

Example sample_listing :
  map id (getInspections JsDate.parse_iso_date sample_store "1")
  = ["c"; "a"; "d"].
Proof. by vm_compute. Qed.

End RecordStore.

(** ** The spreadsheet-validate operation ([geminiService.ts])

    The external capability is a parameter: whether the SDK client can be
    constructed, what [generateContent] answers to a request, and how the
    answer text parses.  The prompt sent is determined by the optional SOP
    context and the capped cell list, which make up a [Request]. *)

Module Gateway.
Import Types.

Record Request := {
  req_sopContext : option string;
  req_cells : list SpreadsheetCell
}.

(** [response.text] of an answer, or a rejected call. *)
Inductive Reply :=
| Rejected
| Response (text : option string).

(** What [JSON.parse] makes of a text, as far as the code looks at it:
    a syntax error; [null], on which reading a property throws; or a
    value whose [discrepancies] and [summary] properties are read (both
    absent on a number, string, boolean or array).  The two properties
    are taken at the types of the response schema. *)
Inductive Parsed :=
| SyntaxError
| JsonNull
| JsonValue (discrepancies : option (list Discrepancy))
            (summary : option string).

Record Env := {
  (** [new GoogleGenAI({apiKey})] returns a client, or throws *)
  client_ready : bool;
  generateContent : Request -> Reply;
  JSON_parse : string -> Parsed
}.

(** Computations inside the [try] block: they log the requests made to
    the capability and either return or throw. *)
Definition Try (A : Type) : Type := list Request -> option A * list Request.

Definition ret {A} (a : A) : Try A := fun log => (Some a, log).
Definition throw {A} : Try A := fun log => (None, log).
Definition bind {A B} (m : Try A) (k : A -> Try B) : Try B :=
  fun log =>
    match m log with
    | (Some a, log') => k a log'
    | (None, log') => (None, log')
    end.

Notation "x <- m ;; k" := (bind m (fun x => k))
  (at level 100, m at next level, right associativity).

Definition new_GoogleGenAI (env : Env) : Try unit :=
  if client_ready env then ret tt else throw.

Definition call_generateContent (env : Env) (req : Request)
  : Try (option string) :=
  fun log =>
    match generateContent env req with
    | Rejected => (None, log ++ [req])
    | Response text => (Some text, log ++ [req])
    end.

(** [JSON.parse(response.text || '{}')] followed by the two property
    reads; ['{}'] parses to an object without properties. *)
Definition parse_result (env : Env) (text : option string)
  : Try (option (list Discrepancy) * option string) :=
  let parsed :=
    if truthy_opt text then JSON_parse env (default "" text)
    else JsonValue None None in
  match parsed with
  | SyntaxError => throw
  | JsonNull => throw
  | JsonValue ds sm => ret (ds, sm)
  end.

Definition result (fileName : string) (total : Z)
    (ds : list Discrepancy) (valid : bool) (sm : string)
  : ExcelAnalysisResult :=
  {| r_id := None; systemId := None; date := None; fileName := fileName;
     retentionDate := None; totalFormulas := total; discrepancies := ds;
     isValid := valid; summary := sm; referencedSopTitle := None |}.

(** The value returned when the sheet has no formula cells. *)
Definition no_formulas (fileName : string) : ExcelAnalysisResult :=
  result fileName 0 [] true "No formulas found in the spreadsheet.".

(** The value returned by the [catch] block. *)
Definition failure (fileName : string) : ExcelAnalysisResult :=
  result fileName 0
    [ {| d_address := "System"; d_formula := "N/A";
         d_value := VString "Error"; reason := "AI Analysis Failed";
         severity := High; suggestedFormula := None;
         suggestedValue := None |} ]
    false "Could not perform AI validation.".

(** [cells.filter(c => c.formula).slice(0, 50)] *)
Definition formulaCells (cells : list SpreadsheetCell)
  : list SpreadsheetCell :=
  take 50 (filter (fun c => truthy (formula c)) cells).

Definition try_block (env : Env) (fileName : string)
    (cells : list SpreadsheetCell) (sopContext : option string)
  : Try ExcelAnalysisResult :=
  ai <- new_GoogleGenAI env ;;
  let fc := formulaCells cells in
  if (length fc =? 0)%nat then ret (no_formulas fileName)
  else
    text <- call_generateContent env
              {| req_sopContext := sopContext; req_cells := fc |} ;;
    parsed <- parse_result env text ;;
    let ds := default [] parsed.1 in
    ret (result fileName (Z.of_nat (length fc)) ds
                (length ds =? 0)%nat
                (or_default parsed.2 "Analysis complete.")).

(** [validateSpreadsheet]: the analysis result and the requests made to
    the external capability. *)
Definition validateSpreadsheet (env : Env) (fileName : string)
    (cells : list SpreadsheetCell) (sopContext : option string)
  : ExcelAnalysisResult * list Request :=
  match try_block env fileName cells sopContext [] with
  | (Some r, log) => (r, log)
  | (None, log) => (failure fileName, log)
  end.

(** The failures of the external call that reach the [catch] block:
    the call is rejected, or the text of its answer is not empty and is
    either rejected by [JSON.parse] or parsed to [null].  An answer
    whose text is missing or empty is not among them: the code reads
    ['{}'] in its place. *)
Definition call_fails (env : Env) (req : Request) : Prop :=
  generateContent env req = Rejected \/
  exists t, generateContent env req = Response (Some t) /\ t <> ""%string /\
            (JSON_parse env t = SyntaxError \/ JSON_parse env t = JsonNull).

(** *** Outcomes of [validateSpreadsheet] *)

Definition parsed_text (env : Env) (text : option string) : Parsed :=
  if truthy_opt text then JSON_parse env (default "" text)
  else JsonValue None None.

Lemma validateSpreadsheet_outcomes env fileName cells sopContext :
  let fc := formulaCells cells in
  let req := {| req_sopContext := sopContext; req_cells := fc |} in
  validateSpreadsheet env fileName cells sopContext =
  if client_ready env then
    if (length fc =? 0)%nat then (no_formulas fileName, [])
    else
      match generateContent env req with
      | Rejected => (failure fileName, [req])
      | Response text =>
          match parsed_text env text with
          | SyntaxError | JsonNull => (failure fileName, [req])
          | JsonValue ds sm =>
              (result fileName (Z.of_nat (length fc)) (default [] ds)
                      (length (default [] ds) =? 0)%nat
                      (or_default sm "Analysis complete."), [req])
          end
      end
  else (failure fileName, []).
Proof.
  intros fc req.
  unfold validateSpreadsheet, try_block, bind, new_GoogleGenAI.
  destruct (client_ready env); [|reflexivity].
  unfold ret at 1. fold fc.
  destruct (length fc =? 0)%nat; [reflexivity|].
  unfold call_generateContent. fold req.
  destruct (generateContent env req) as [|text]; [reflexivity|].
  unfold parse_result, parsed_text.
  by destruct (if truthy_opt text then _ else _).
Qed.

Lemma formulaCells_none cells :
  Forall (fun c => formula c = ""%string) cells ->
  formulaCells cells = [].
Proof.
  intros H. unfold formulaCells.
  replace (filter (fun c => truthy (formula c)) cells)
    with (@nil SpreadsheetCell); [done|].
  induction H as [|c l Hc _ IH]; [done|].
  rewrite filter_cons. rewrite decide_False; [done|].
  rewrite Hc. by intros [].
Qed.

(** C2, as the code has it.  With no formula cell in the list no
    request is made to the external capability, whatever else happens.
    What is returned depends on the statement that precedes the test
    inside the [try]: when [new GoogleGenAI] returns, the result is the
    trivially valid one (no formulas counted, no discrepancy, valid);
    when it throws, the result is that of the [catch] block, with its
    one discrepancy and [isValid = false]. *)
Theorem no_formula_cells_short_circuit env fileName cells sopContext :
  Forall (fun c => formula c = ""%string) cells ->
  let out := validateSpreadsheet env fileName cells sopContext in
  out.2 = [] /\
  (client_ready env = true ->
     out.1 =
     {| r_id := None; systemId := None; date := None;
        fileName := fileName; retentionDate := None;
        totalFormulas := 0; discrepancies := []; isValid := true;
        summary := "No formulas found in the spreadsheet.";
        referencedSopTitle := None |}) /\
  (client_ready env = false ->
     totalFormulas out.1 = 0 /\ isValid out.1 = false /\
     exists d, discrepancies out.1 = [d] /\ severity d = High /\
               d_address d = "System"%string /\
               reason d = "AI Analysis Failed"%string).
Proof.
  intros Hn out. subst out.
  rewrite validateSpreadsheet_outcomes, formulaCells_none by done.
  destruct (client_ready env); simpl.
  - split_and!; [done..|]. by intros [=].
  - split_and!; [done|by intros [=]|]. intros _.
    split_and!; [done..|]. eexists. by split_and!.
Qed.

(** C4, as the code has it.  For a request that [validateSpreadsheet]
    has made: when the call fails (it is rejected, or its non-empty
    text does not parse, or parses to [null]), the function still
    returns, and what it returns is the fallback, given here field by
    field: one discrepancy, of severity High, naming the failed
    analysis, and [isValid = false].  When the answer has no text or an
    empty one, there is no fallback: the result is valid and has no
    discrepancies. *)
Theorem failed_call_yields_fallback env fileName cells sopContext req :
  let out := validateSpreadsheet env fileName cells sopContext in
  In req out.2 ->
  (call_fails env req ->
     out.1 =
     {| r_id := None; systemId := None; date := None;
        fileName := fileName; retentionDate := None;
        totalFormulas := 0;
        discrepancies :=
          [ {| d_address := "System"; d_formula := "N/A";
               d_value := VString "Error";
               reason := "AI Analysis Failed"; severity := High;
               suggestedFormula := None; suggestedValue := None |} ];
        isValid := false;
        summary := "Could not perform AI validation.";
        referencedSopTitle := None |}) /\
  (generateContent env req = Response None \/
   generateContent env req = Response (Some ""%string) ->
     isValid out.1 = true /\ discrepancies out.1 = [] /\
     totalFormulas out.1 = Z.of_nat (length (req_cells req)) /\
     summary out.1 = "Analysis complete."%string).
Proof.
  intros out Hin. subst out. revert Hin.
  rewrite validateSpreadsheet_outcomes.
  destruct (client_ready env); [|done].
  destruct (length _ =? 0)%nat; [done|].
  set (r := {| req_sopContext := _ |}).
  destruct (generateContent env r) as [|text] eqn:E.
  - simpl. intros [Hreq|[]]. rewrite <- Hreq. unfold call_fails.
    rewrite E. split; [done|]. by intros [|].
  - destruct (parsed_text env text) as [| |ds sm] eqn:P;
      simpl; intros [Hreq|[]]; rewrite <- Hreq; unfold call_fails;
      rewrite E.
    + split; [done|].
      intros [H|H]; injection H as H; subst text; discriminate.
    + split; [done|].
      intros [H|H]; injection H as H; subst text; discriminate.
    + split.
      * intros [|(t & [= ->] & Ht & Hp)]; [done|].
        unfold parsed_text in P. simpl in P.
        destruct t as [|a t]; [done|]. simpl in P.
        destruct Hp as [Hp|Hp]; rewrite Hp in P; discriminate.
      * intros [H|H]; injection H as H; subst text;
          unfold parsed_text in P; simpl in P; by injection P as <- <-.
Qed.

(** C9. On every path the validity flag says whether the discrepancy
    list is empty. *)
Theorem isValid_iff_no_discrepancies env fileName cells sopContext :
  let r := (validateSpreadsheet env fileName cells sopContext).1 in
  isValid r = true <-> discrepancies r = [].
Proof.
  simpl. rewrite validateSpreadsheet_outcomes.
  destruct (client_ready env); [|done].
  destruct (length _ =? 0)%nat; [done|].
  destruct (generateContent env _) as [|text]; [done|].
  destruct (parsed_text env text) as [| |ds sm]; [done..|].
  simpl. destruct (default [] ds); simpl; [done|].
  split; intros; discriminate.
Qed.

(** *** Concrete environments *)

Definition formula_A1 : SpreadsheetCell :=
  {| address := "A1"; formula := "=B1*2"; value := VNumber 4 |}.

Definition text_cell : SpreadsheetCell :=
  {| address := "C3"; formula := ""; value := VString "total" |}.

(** A capability that rejects every call. *)
Definition unreachable : Env :=
  {| client_ready := true;
     generateContent := fun _ => Rejected;
     JSON_parse := fun _ => SyntaxError |}.

(** No client: [new GoogleGenAI] throws, as it does in a browser
    without an API key. *)
Definition no_key : Env :=
  {| client_ready := false;
     generateContent := fun _ => Rejected;
     JSON_parse := fun _ => SyntaxError |}.

(** A capability whose answers carry an empty text; [JSON.parse]
    accepts no text here, the empty one included. *)
Definition silent : Env :=
  {| client_ready := true;
     generateContent := fun _ => Response (Some ""%string);
     JSON_parse := fun _ => SyntaxError |}.

(** A capability that answers with a page of markup. *)
Definition garbled : Env :=
  {| client_ready := true;
     generateContent := fun _ => Response (Some "<html>"%string);
     JSON_parse := fun _ => SyntaxError |}.

Lemma no_formula_cells_short_circuit_witness :
  Forall (fun c => formula c = ""%string) [text_cell] /\
  validateSpreadsheet unreachable "calc.xlsx" [text_cell] None
  = ({| r_id := None; systemId := None; date := None;
        fileName := "calc.xlsx"; retentionDate := None;
        totalFormulas := 0; discrepancies := []; isValid := true;
        summary := "No formulas found in the spreadsheet.";
        referencedSopTitle := None |}, []).
Proof.
  assert (Hn : Forall (fun c => formula c = ""%string) [text_cell])
    by (by repeat constructor).
  split; [exact Hn|].
  destruct (no_formula_cells_short_circuit unreachable "calc.xlsx"
              [text_cell] None Hn) as (H1 & H2 & _).
  apply injective_projections; [exact (H2 eq_refl)|exact H1].
Defined.

(** C2 as stated fails where the client cannot be constructed: the
    list has no formula cell, and the result is not valid and has a
    discrepancy. *)
Lemma no_client_no_short_circuit :
  let out := validateSpreadsheet no_key "calc.xlsx" [text_cell] None in
  Forall (fun c => formula c = ""%string) [text_cell] /\
  out.2 = [] /\
  isValid out.1 = false /\
  length (discrepancies out.1) = 1%nat.
Proof. split; [by repeat constructor|]. by vm_compute. Qed.

Lemma failed_call_yields_fallback_witness :
  let req := {| req_sopContext := None; req_cells := [formula_A1] |} in
  let out := validateSpreadsheet garbled "calc.xlsx" [formula_A1] None in
  In req out.2 /\
  call_fails garbled req /\
  isValid out.1 = false /\
  (reason <$> discrepancies out.1) = ["AI Analysis Failed"%string] /\
  (severity <$> discrepancies out.1) = [High].
Proof.
  intros req out.
  assert (Hin : In req out.2) by (by left).
  assert (Hf : call_fails garbled req).
  { right. exists "<html>"%string. split_and!; [done|done|by left]. }
  split; [exact Hin|]. split; [exact Hf|].
  pose proof (proj1 (failed_call_yields_fallback garbled "calc.xlsx"
                       [formula_A1] None req Hin) Hf) as H.
  fold out in H. by rewrite H.
Defined.

(** C4 as stated fails on an answer with an empty text: the request is
    made, [JSON.parse] would reject the text, and the result is valid
    and has no discrepancy. *)
Lemma empty_answer_is_reported_valid :
  let req := {| req_sopContext := None; req_cells := [formula_A1] |} in
  let out := validateSpreadsheet silent "calc.xlsx" [formula_A1] None in
  In req out.2 /\
  generateContent silent req = Response (Some ""%string) /\
  JSON_parse silent "" = SyntaxError /\
  isValid out.1 = true /\
  discrepancies out.1 = [].
Proof. split; [by left|]. by vm_compute. Qed.

End Gateway.

(** ** Worksheets, formula extraction and corrected-file regeneration
    ([SystemList.tsx])

    A worksheet is the object [XLSX.read] builds for the first sheet: its
    ['!ref'] entry (the populated range, here already decoded), its
    cell objects, keyed by address, and whatever else the reader leaves
    on it under keys of its own (['!margins'], ['!merges'], ...).  It is
    a plain object, so that reading a key also finds what
    [Object.prototype] provides. *)

Module Sheet.
Import Types.

(** A cell comment; only its text [t] is written by the code. *)
Record Comment := { comment_t : string }.

(** A cell object: formula [f] (without the leading [=]), value [v],
    comments [c], and the type [t] and formatted text [w], which the
    code never touches. *)
Record CellObject := {
  cell_f : option string;
  cell_v : JsValue;
  cell_c : option (list Comment);
  cell_t : string;
  cell_w : option string
}.

(** A decoded range: start row, start column, end row, end column,
    numbered from 0. *)
Record Range := { s_r : nat; s_c : nat; e_r : nat; e_c : nat }.

(** The value of an entry that is neither ['!ref'] nor a cell, as far
    as the code can tell: a non-empty text, or an object (an array
    included). *)
Inductive Special := TextEntry | ObjectEntry.

Record WorkSheet := {
  ref : option Range;
  cells : gmap string CellObject;
  specials : gmap string Special
}.

(** [decode_range(ws['!ref'] || "A1:A1")] *)
Definition range_of (ws : WorkSheet) : Range :=
  default {| s_r := 0; s_c := 0; e_r := 0; e_c := 0 |} (ref ws).

(** *** [XLSX.utils.encode_cell] *)

(** Column letters, least significant first: the loop takes
    [(col - 1) % 26] and continues with [floor((col - 1) / 26)] while
    [col] is not 0, starting from the column number plus one. *)
Fixpoint col_digits (fuel col : nat) : list nat :=
  match fuel with
  | O => []
  | S fuel' =>
      match col with
      | O => []
      | S k => (k mod 26)%nat :: col_digits fuel' (k / 26)%nat
      end
  end.

(** Decimal digits of a row number, least significant first. *)
Fixpoint dec_digits (fuel n : nat) : list nat :=
  match fuel with
  | O => []
  | S fuel' =>
      match n with
      | O => []
      | S _ => (n mod 10)%nat :: dec_digits fuel' (n / 10)%nat
      end
  end.

Definition letter (d : nat) : ascii := ascii_of_nat (65 + d).
Definition digit_char (d : nat) : ascii := ascii_of_nat (48 + d).

Definition encode_col (col : nat) : list ascii :=
  rev (letter <$> col_digits (S col) (S col)).

Definition encode_row (row : nat) : list ascii :=
  rev (digit_char <$> dec_digits (S row) (S row)).

(** [encode_cell({c, r})]: column letters followed by the row number
    counted from 1. *)
Definition encode_cell (c r : nat) : string :=
  string_of_list_ascii (encode_col c ++ encode_row r).

(** *** Extraction of the formula cells in [handleFileUpload] *)

(** [s.startsWith('=')] *)
Definition startsWith_eq (s : string) : bool :=
  match s with
  | String a _ => Ascii.eqb a "="
  | EmptyString => false
  end.

(** The local variable [formula] after the two tests on the cell. *)
Definition formula_text (cell : CellObject) : string :=
  if truthy_opt (cell_f cell) then "=" +:+ default "" (cell_f cell)
  else
    match cell_v cell with
    | VString s => if startsWith_eq s then s else ""
    | _ => ""
    end.

(** The body of the inner loop at row [R], column [C]. *)
Definition visit (ws : WorkSheet) (acc : list SpreadsheetCell)
    (R C : nat) : list SpreadsheetCell :=
  let cell_ref := encode_cell C R in
  match cells ws !! cell_ref with
  | Some cell =>
      let formula := formula_text cell in
      if truthy formula then
        acc ++ [ {| address := cell_ref; formula := formula;
                    value := cell_v cell |} ]
      else acc
  | None => acc
  end.

(** [for (R = s.r; R <= e.r; ++R) for (C = s.c; C <= e.c; ++C) ...] *)
Definition extractCells (ws : WorkSheet) : list SpreadsheetCell :=
  let range := range_of ws in
  fold_left
    (fun acc R =>
       fold_left (fun acc' C => visit ws acc' R C)
                 (seq (s_c range) (S (e_c range) - s_c range)) acc)
    (seq (s_r range) (S (e_r range) - s_r range)) [].

(** *** Corrected-file regeneration in [handleDownloadCorrectedExcel] *)

(** [s.replace('=', '')]: a string pattern replaces its first
    occurrence only. *)
Fixpoint replace_first_eq (s : string) : string :=
  match s with
  | EmptyString => ""
  | String a s' =>
      if Ascii.eqb a "=" then s' else String a (replace_first_eq s')
  end.

(** The methods every object inherits from [Object.prototype]. *)
Definition Object_prototype_methods : list string :=
  [ "constructor"; "hasOwnProperty"; "isPrototypeOf";
    "propertyIsEnumerable"; "toLocaleString"; "toString"; "valueOf";
    "__defineGetter__"; "__defineSetter__"; "__lookupGetter__";
    "__lookupSetter__" ]%string.

(** What [ws[address]] evaluates to: nothing; a text (the ['!ref']
    string or another text entry); a cell object; another object (an
    entry of the reader's, or an inherited method); or, for
    ['__proto__'], [Object.prototype] itself.  Own entries come before
    inherited ones. *)
Inductive Entry :=
| Undefined
| Text
| Cell (cell : CellObject)
| Other
| ObjectPrototype.

Definition entry (ws : WorkSheet) (a : string) : Entry :=
  if String.eqb a "!ref" then
    match ref ws with Some _ => Text | None => Undefined end
  else
    match cells ws !! a with
    | Some cell => Cell cell
    | None =>
        match specials ws !! a with
        | Some TextEntry => Text
        | Some ObjectEntry => Other
        | None =>
            if String.eqb a "__proto__" then ObjectPrototype
            else if bool_decide (a ∈ Object_prototype_methods) then Other
            else Undefined
        end
    end.

Definition set_f_v (f : option string) (v : JsValue) (cell : CellObject)
  : CellObject :=
  {| cell_f := f; cell_v := v; cell_c := cell_c cell;
     cell_t := cell_t cell; cell_w := cell_w cell |}.

Definition push_comment (text : string) (cell : CellObject) : CellObject :=
  {| cell_f := cell_f cell; cell_v := cell_v cell;
     cell_c := Some (default [] (cell_c cell) ++ [ {| comment_t := text |} ]);
     cell_t := cell_t cell; cell_w := cell_w cell |}.

(** The statements applied to an existing cell object. *)
Definition correct_cell (disc : Discrepancy) (cell : CellObject)
  : CellObject :=
  let cell' :=
    if truthy_opt (suggestedFormula disc) then
      set_f_v (Some (replace_first_eq (default "" (suggestedFormula disc))))
              VUndefined cell
    else if truthy_opt (suggestedValue disc) then
      set_f_v None (VString (default "" (suggestedValue disc))) cell
    else cell in
  push_comment ("MDPC Correction: " +:+ reason disc) cell'.

(** How a run of the [forEach] callback ends, seen from the sheet.  It
    returns, leaving the sheet as given; or it throws (a property is
    assigned on a text, in strict mode); or it has written [f], [v] and
    [c] on [Object.prototype].  After such a write every object of the
    page inherits these properties, a cell without comments of its own
    included, and the worksheet alone no longer decides what is read:
    the run is followed no further, and [Object.prototype] is taken to
    be untouched when the handler starts. *)
Inductive Run :=
| Goes (ws : WorkSheet)
| Throws
| Escapes.

(** One run of the callback.  An object that is not a cell takes the
    assignments without the sheet changing. *)
Definition apply_correction (ws : WorkSheet) (disc : Discrepancy) : Run :=
  if truthy_opt (suggestedValue disc) || truthy_opt (suggestedFormula disc)
  then
    match entry ws (d_address disc) with
    | Undefined => Goes ws
    | Text => Throws
    | Cell cell =>
        Goes {| ref := ref ws;
                cells := <[d_address disc := correct_cell disc cell]>
                           (cells ws);
                specials := specials ws |}
    | Other => Goes ws
    | ObjectPrototype => Escapes
    end
  else Goes ws.

Fixpoint apply_corrections (ws : WorkSheet) (ds : list Discrepancy) : Run :=
  match ds with
  | [] => Goes ws
  | disc :: ds' =>
      match apply_correction ws disc with
      | Goes ws' => apply_corrections ws' ds'
      | Throws => Throws
      | Escapes => Escapes
      end
  end.

Inductive Outcome :=
| NoOp                                      (* the guard returns *)
| Alert                                     (* the catch block *)
| WriteFile (name : string) (ws : WorkSheet)
| PrototypeWritten.           (* the run has left the sheet: [Escapes] *)

(** [originalExcelData] is given by the worksheet it parses to. *)
Definition handleDownloadCorrectedExcel
    (originalExcelData : option WorkSheet)
    (excelResult : option ExcelAnalysisResult)
    (currentExcelFile : option string) : Outcome :=
  match originalExcelData, excelResult, currentExcelFile with
  | Some ws, Some result, Some name =>
      match apply_corrections ws (discrepancies result) with
      | Goes ws' => WriteFile ("Corrected_" +:+ name) ws'
      | Throws => Alert
      | Escapes => PrototypeWritten
      end
  | _, _, _ => NoOp
  end.

(** The [cells] argument of the call of [validateSpreadsheet] in
    [handleFileUpload] (line 450): the list the two loops have built,
    as a whole. *)
Definition sent_to_validateSpreadsheet (ws : WorkSheet)
  : list SpreadsheetCell :=
  extractCells ws.

(** *** [encode_cell] is injective *)

Local Open Scope nat_scope.

Fixpoint col_value (l : list nat) : nat :=
  match l with
  | [] => 0
  | d :: l' => S d + 26 * col_value l'
  end.

Fixpoint dec_value (l : list nat) : nat :=
  match l with
  | [] => 0
  | d :: l' => d + 10 * dec_value l'
  end.

Lemma col_digits_value fuel col :
  col <= fuel -> col_value (col_digits fuel col) = col.
Proof.
  revert col. induction fuel as [|fuel IH]; intros [|k] Hk;
    cbn [col_digits col_value]; try lia.
  rewrite IH.
  - pose proof (Nat.div_mod_eq k 26). lia.
  - pose proof (Nat.Div0.div_le_upper_bound k 26 k). lia.
Qed.

Lemma dec_digits_value fuel n :
  n <= fuel -> dec_value (dec_digits fuel n) = n.
Proof.
  revert n. induction fuel as [|fuel IH]; intros [|k] Hk;
    cbn [dec_digits dec_value]; try lia.
  rewrite IH.
  - pose proof (Nat.div_mod_eq (S k) 10). lia.
  - pose proof (Nat.div_lt (S k) 10). lia.
Qed.

Lemma col_digits_bound fuel col :
  Forall (fun d => d < 26) (col_digits fuel col).
Proof.
  revert col. induction fuel as [|fuel IH]; intros [|k];
    cbn [col_digits]; try constructor; [|apply IH].
  apply Nat.mod_upper_bound. lia.
Qed.

Lemma dec_digits_bound fuel n :
  Forall (fun d => d < 10) (dec_digits fuel n).
Proof.
  revert n. induction fuel as [|fuel IH]; intros [|k];
    cbn [dec_digits]; try constructor; [|apply IH].
  apply Nat.mod_upper_bound. lia.
Qed.

Definition is_digit (a : ascii) : Prop :=
  48 <= nat_of_ascii a <= 57.

Lemma letter_code d : d < 26 -> nat_of_ascii (letter d) = 65 + d.
Proof. intros H. unfold letter. apply nat_ascii_embedding. lia. Qed.

Lemma digit_char_code d : d < 10 -> nat_of_ascii (digit_char d) = 48 + d.
Proof. intros H. unfold digit_char. apply nat_ascii_embedding. lia. Qed.

Lemma map_code_inj (code : nat -> ascii) (base bound : nat) l1 l2 :
  (forall d, d < bound -> nat_of_ascii (code d) = base + d) ->
  Forall (fun d => d < bound) l1 -> Forall (fun d => d < bound) l2 ->
  code <$> l1 = code <$> l2 -> l1 = l2.
Proof.
  intros Hc H1. revert l2.
  induction H1 as [|d1 l1 Hd1 _ IH]; intros [|d2 l2] H2 E;
    simpl in E; try discriminate; [done|].
  apply Forall_cons in H2 as [Hd2 H2]. injection E as Ed El.
  f_equal; [|by apply IH].
  apply (f_equal nat_of_ascii) in Ed. rewrite !Hc in Ed by done. lia.
Qed.

(** A run of non-digits followed by a run of digits splits in one way. *)
Lemma split_at_digits (l1 l2 k1 k2 : list ascii) :
  Forall (fun a => ~ is_digit a) l1 -> Forall (fun a => ~ is_digit a) l2 ->
  Forall is_digit k1 -> Forall is_digit k2 ->
  l1 ++ k1 = l2 ++ k2 -> l1 = l2 /\ k1 = k2.
Proof.
  intros H1. revert l2.
  induction H1 as [|a l1 Ha _ IH]; intros l2 H2 K1 K2 E.
  - destruct H2 as [|b l2 Hb _]; [done|]. simpl in E. subst k1.
    apply Forall_cons in K1 as [K1 _]. contradiction.
  - destruct H2 as [|b l2 Hb H2]; simpl in E.
    + subst k2. apply Forall_cons in K2 as [K2 _]. contradiction.
    + injection E as -> E.
      destruct (IH l2 H2 K1 K2 E) as [-> ->]. done.
Qed.

Lemma encode_col_letters c : Forall (fun a => ~ is_digit a) (encode_col c).
Proof.
  unfold encode_col. apply Forall_rev, Forall_fmap.
  eapply Forall_impl; [apply col_digits_bound|].
  intros d Hd. unfold compose, is_digit. cbv beta in *.
  rewrite letter_code by done. lia.
Qed.

Lemma encode_row_digits r : Forall is_digit (encode_row r).
Proof.
  unfold encode_row. apply Forall_rev, Forall_fmap.
  eapply Forall_impl; [apply dec_digits_bound|].
  intros d Hd. unfold compose, is_digit. cbv beta in *.
  rewrite digit_char_code by done. lia.
Qed.

Lemma encode_col_inj c1 c2 : encode_col c1 = encode_col c2 -> c1 = c2.
Proof.
  unfold encode_col. intros E.
  apply (f_equal (@rev ascii)) in E. rewrite !rev_involutive in E.
  apply (map_code_inj letter 65 26) in E;
    [|apply letter_code|apply col_digits_bound..].
  apply (f_equal col_value) in E.
  rewrite !col_digits_value in E by lia. lia.
Qed.

Lemma encode_row_inj r1 r2 : encode_row r1 = encode_row r2 -> r1 = r2.
Proof.
  unfold encode_row. intros E.
  apply (f_equal (@rev ascii)) in E. rewrite !rev_involutive in E.
  apply (map_code_inj digit_char 48 10) in E;
    [|apply digit_char_code|apply dec_digits_bound..].
  apply (f_equal dec_value) in E.
  rewrite !dec_digits_value in E by lia. lia.
Qed.

Lemma encode_cell_inj c1 r1 c2 r2 :
  encode_cell c1 r1 = encode_cell c2 r2 -> c1 = c2 /\ r1 = r2.
Proof.
  unfold encode_cell. intros E.
  apply (f_equal list_ascii_of_string) in E.
  rewrite !list_ascii_of_string_of_list_ascii in E.
  apply split_at_digits in E as [Ec Er];
    auto using encode_col_letters, encode_row_digits.
  split; [by apply encode_col_inj|by apply encode_row_inj].
Qed.

(** No cell address is the key ['!ref']. *)
Lemma encode_cell_not_ref c r : encode_cell c r <> "!ref"%string.
Proof.
  unfold encode_cell, encode_row. intros E.
  apply (f_equal list_ascii_of_string) in E.
  rewrite list_ascii_of_string_of_list_ascii in E.
  cbn [dec_digits fmap list_fmap rev] in E.
  change (list_ascii_of_string "!ref")
    with (["!"; "r"; "e"] ++ ["f"])%char in E.
  rewrite app_assoc in E. apply app_inj_tail in E as [_ E].
  apply (f_equal nat_of_ascii) in E.
  pose proof (Nat.mod_upper_bound (S r) 10) as Hm.
  rewrite digit_char_code in E by lia.
  change (nat_of_ascii "f") with 102 in E. lia.
Qed.

(** *** The extracted list *)

(** The (row, column) pairs of a range in the order of the two loops. *)
Definition row_major (rg : Range) : list (nat * nat) :=
  seq (s_r rg) (S (e_r rg) - s_r rg) ≫= fun R =>
    (fun C => (R, C)) <$> seq (s_c rg) (S (e_c rg) - s_c rg).

Definition address_of (rc : nat * nat) : string := encode_cell rc.2 rc.1.

(** What the loop body appends at a position, if anything. *)
Definition triple_at (ws : WorkSheet) (rc : nat * nat)
  : option SpreadsheetCell :=
  match cells ws !! address_of rc with
  | Some cell =>
      if truthy (formula_text cell) then
        Some {| address := address_of rc; formula := formula_text cell;
                value := cell_v cell |}
      else None
  | None => None
  end.

(** The two tests of the loop body on a cell. *)
Definition has_formula_marker (cell : CellObject) : bool :=
  truthy_opt (cell_f cell).

Definition is_formula_text (cell : CellObject) : bool :=
  match cell_v cell with
  | VString s => startsWith_eq s
  | _ => false
  end.

Definition formula_cell (cell : CellObject) : bool :=
  has_formula_marker cell || is_formula_text cell.

(** The two kinds of formula cell, in the claim's words: the cell
    carries a formula marker (an [f] that is not empty), or its stored
    value is a text beginning with [=]. *)
Definition formula_bearing (cell : CellObject) : Prop :=
  (exists f, cell_f cell = Some f /\ f <> ""%string) \/
  (exists rest, cell_v cell = VString (String "=" rest)).

(** The triple of a formula cell at address [a]: its formula is the
    marker with [=] in front or, for a cell without a marker, the text
    of the value itself. *)
Definition triple_of (a : string) (cell : CellObject)
    (x : SpreadsheetCell) : Prop :=
  address x = a /\ value x = cell_v cell /\
  ((exists f, cell_f cell = Some f /\ f <> ""%string /\
              formula x = String "=" f) \/
   ((cell_f cell = None \/ cell_f cell = Some ""%string) /\
    exists rest, cell_v cell = VString (String "=" rest) /\
                 formula x = String "=" rest)).

(** Every cell object of the sheet lies in the range of ['!ref']. *)
Definition sheet_wf (ws : WorkSheet) : Prop :=
  forall a cell, cells ws !! a = Some cell ->
    exists rc, rc ∈ row_major (range_of ws) /\ a = address_of rc.

Lemma truthy_formula_text cell :
  truthy (formula_text cell) = formula_cell cell.
Proof.
  unfold formula_text, formula_cell, has_formula_marker, is_formula_text.
  destruct (truthy_opt (cell_f cell)); [done|]. simpl.
  destruct (cell_v cell) as [|s| |]; try done.
  destruct s as [|a s]; [done|]. simpl. by destruct (Ascii.eqb a "=").
Qed.

Lemma formula_cell_bearing cell :
  formula_cell cell = true <-> formula_bearing cell.
Proof.
  unfold formula_cell, has_formula_marker, is_formula_text, formula_bearing.
  destruct (cell_f cell) as [[|a f]|]; simpl.
  - destruct (cell_v cell) as [|[|b s]| |]; simpl;
      try (split; [done|by intros [(? & [= <-] & ?)|(? & [=])]]).
    destruct (Ascii.eqb b "=") eqn:E.
    + apply Ascii.eqb_eq in E as ->. split; [|done]. intros _. right. eauto.
    + split; [done|]. intros [(? & [= <-] & ?)|(? & [= -> _])]; [done|].
      by rewrite Ascii.eqb_refl in E.
  - split; [|done]. intros _. left. eauto.
  - destruct (cell_v cell) as [|[|b s]| |]; simpl;
      try (split; [done|by intros [(? & [=] & ?)|(? & [=])]]).
    destruct (Ascii.eqb b "=") eqn:E.
    + apply Ascii.eqb_eq in E as ->. split; [|done]. intros _. right. eauto.
    + split; [done|]. intros [(? & [=] & ?)|(? & [= -> _])].
      by rewrite Ascii.eqb_refl in E.
Qed.

#[local] Instance formula_bearing_dec cell : Decision (formula_bearing cell).
Proof.
  refine (cast_if (decide (formula_cell cell = true)));
    by rewrite <- formula_cell_bearing.
Defined.

(** The triple the loop body builds is the one the claim describes. *)
Lemma triple_of_formula_text a cell x :
  triple_of a cell x <->
  formula_bearing cell /\
  x = {| address := a; formula := formula_text cell; value := cell_v cell |}.
Proof.
  unfold triple_of, formula_bearing, formula_text. destruct x as [xa xf xv].
  simpl. split.
  - intros (-> & -> & [(f & Hf & Hne & ->)|([Hf|Hf] & rest & Hv & ->)]).
    + rewrite Hf. destruct f as [|b f]; [done|]. simpl.
      split; [left; eauto|done].
    + rewrite Hf, Hv. simpl. split; [right; eauto|done].
    + rewrite Hf, Hv. simpl. split; [right; eauto|done].
  - intros (Hb & [= -> -> ->]). split; [done|]. split; [done|].
    destruct (cell_f cell) as [[|b f]|] eqn:Hf; simpl.
    + destruct Hb as [(? & [= <-] & ?)|(rest & Hv)]; [done|].
      right. rewrite Hv. simpl. split; [by right|eauto].
    + left. exists (String b f). by split_and!.
    + destruct Hb as [(? & [=] & ?)|(rest & Hv)].
      right. rewrite Hv. simpl. split; [by left|eauto].
Qed.

Lemma visit_triple ws acc R C :
  visit ws acc R C = acc ++ option_list (triple_at ws (R, C)).
Proof.
  unfold visit, triple_at, address_of. simpl.
  destruct (cells ws !! encode_cell C R) as [cell|]; simpl.
  - destruct (truthy (formula_text cell)); simpl; [done|].
    by rewrite app_nil_r.
  - by rewrite app_nil_r.
Qed.

Lemma inner_loop ws R (cols : list nat) acc :
  fold_left (fun acc' C => visit ws acc' R C) cols acc
  = acc ++ omap (triple_at ws) ((fun C => (R, C)) <$> cols).
Proof.
  revert acc. induction cols as [|C cols IH]; intros acc; simpl.
  - by rewrite app_nil_r.
  - rewrite IH, visit_triple.
    destruct (triple_at ws (R, C)); simpl; [|by rewrite app_nil_r].
    by rewrite <- app_assoc.
Qed.

Lemma outer_loop ws (cols rows : list nat) acc :
  fold_left
    (fun acc R => fold_left (fun acc' C => visit ws acc' R C) cols acc)
    rows acc
  = acc ++ omap (triple_at ws)
             (rows ≫= fun R => (fun C => (R, C)) <$> cols).
Proof.
  revert acc. induction rows as [|R rows IH]; intros acc; simpl.
  - by rewrite app_nil_r.
  - rewrite IH, inner_loop. csimpl. rewrite omap_app.
    by rewrite <- app_assoc.
Qed.

Lemma extractCells_omap ws :
  extractCells ws = omap (triple_at ws) (row_major (range_of ws)).
Proof. unfold extractCells. by rewrite outer_loop. Qed.

Lemma address_of_inj rc1 rc2 : address_of rc1 = address_of rc2 -> rc1 = rc2.
Proof.
  destruct rc1 as [r1 c1], rc2 as [r2 c2]. unfold address_of; simpl.
  intros [-> ->]%encode_cell_inj. done.
Qed.

Lemma row_major_NoDup rg : NoDup (row_major rg).
Proof.
  unfold row_major. apply NoDup_bind.
  - intros R1 R2 rc _ _ H1 H2.
    apply list_elem_of_fmap in H1 as (C1 & -> & _).
    apply list_elem_of_fmap in H2 as (C2 & E & _). by injection E.
  - intros R _. apply NoDup_fmap_2_strong; [|apply NoDup_seq].
    intros C1 C2 _ _ E. by injection E.
  - apply NoDup_seq.
Qed.

Lemma addresses_NoDup rg : NoDup (address_of <$> row_major rg).
Proof.
  apply NoDup_fmap_2_strong; [|apply row_major_NoDup].
  intros rc1 rc2 _ _. apply address_of_inj.
Qed.

Definition extracted_at (ws : WorkSheet) (rc : nat * nat) : Prop :=
  is_Some (triple_at ws rc).

Local Instance extracted_at_dec ws rc : Decision (extracted_at ws rc).
Proof. unfold extracted_at. apply _. Defined.

Lemma extracted_addresses ws (coords : list (nat * nat)) :
  address <$> omap (triple_at ws) coords
  = address_of <$> filter (extracted_at ws) coords.
Proof.
  induction coords as [|rc coords IH]; [done|].
  rewrite filter_cons. cbn [omap list_omap].
  destruct (decide (extracted_at ws rc)) as [[x Hx]|Hn].
  - rewrite Hx. cbn [fmap list_fmap]. f_equal; [|exact IH].
    unfold triple_at in Hx. destruct (cells ws !! _); [|done].
    destruct (truthy _); [|done]. by injection Hx as <-.
  - destruct (triple_at ws rc) as [x|] eqn:E; [|exact IH].
    destruct Hn. by exists x.
Qed.

Lemma triple_at_Some ws rc x :
  triple_at ws rc = Some x <->
  exists cell, cells ws !! address_of rc = Some cell /\
    formula_cell cell = true /\
    x = {| address := address_of rc; formula := formula_text cell;
           value := cell_v cell |}.
Proof.
  unfold triple_at. split.
  - destruct (cells ws !! address_of rc) as [cell|]; [|done].
    rewrite truthy_formula_text.
    destruct (formula_cell cell) eqn:F; [|done].
    intros [= <-]. by exists cell.
  - intros (cell & -> & F & ->). by rewrite truthy_formula_text, F.
Qed.

Lemma extracted_count ws :
  sheet_wf ws ->
  length (extractCells ws)
  = size (filter (fun kv => formula_cell kv.2 = true) (cells ws)).
Proof.
  intros Hwf. rewrite extractCells_omap.
  rewrite <- (length_fmap address), extracted_addresses.
  rewrite <- size_dom.
  rewrite <- (size_list_to_set (C := gset string)).
  2:{ apply NoDup_fmap_2_strong.
      - intros rc1 rc2 _ _. apply address_of_inj.
      - apply NoDup_filter, row_major_NoDup. }
  f_equal. apply set_eq. intros a.
  rewrite elem_of_list_to_set, list_elem_of_fmap, elem_of_dom.
  unfold is_Some. setoid_rewrite map_lookup_filter_Some. simpl.
  split.
  - intros (rc & -> & Hrc). apply list_elem_of_filter in Hrc as [[x Hx] _].
    apply triple_at_Some in Hx as (cell & Hc & F & _). by exists cell.
  - intros (cell & Hc & F). destruct (Hwf a cell Hc) as (rc & Hrc & ->).
    exists rc. split; [done|]. apply list_elem_of_filter. split; [|done].
    eexists. apply triple_at_Some. by exists cell.
Qed.

Lemma filter_all {A} (P : A -> Prop) `{!forall x, Decision (P x)}
    (l : list A) :
  Forall P l -> filter P l = l.
Proof.
  induction 1 as [|x l Hx _ IH]; [done|].
  rewrite filter_cons, decide_True by done. by rewrite IH.
Qed.

Lemma extracted_have_formula ws :
  Forall (fun x => truthy (formula x)) (extractCells ws).
Proof.
  rewrite extractCells_omap. apply Forall_forall. intros x Hx.
  apply list_elem_of_omap in Hx as (rc & _ & Hx).
  apply triple_at_Some in Hx as (cell & _ & F & ->). simpl.
  by rewrite truthy_formula_text, F.
Qed.

(** C1, as the code has it.  The extracted list holds, for the cells
    in the ['!ref'] range of the sheet, one (address, formula, value)
    triple for each cell that has a formula marker or a text value
    beginning with [=], and nothing else; the addresses come in
    row-major order; on a sheet whose range covers its cells the list
    has as many entries, [N], as the sheet has such cells.  The list is
    handed to [validateSpreadsheet] as a whole.  The cut is made
    there: a request to the capability, which is made when the client
    can be constructed and the list is not empty, carries the first 50
    entries, exactly 50 of them when [N > 50]. *)
Theorem extraction_and_cap ws env fileName sopContext :
  let extracted := extractCells ws in
  (forall x, x ∈ extracted <->
     exists rc cell, rc ∈ row_major (range_of ws) /\
       cells ws !! address_of rc = Some cell /\
       triple_of (address_of rc) cell x) /\
  (exists coords, coords `sublist_of` row_major (range_of ws) /\
     address <$> extracted = address_of <$> coords) /\
  (sheet_wf ws ->
     length extracted
     = size (filter (fun kv => formula_bearing kv.2) (cells ws))) /\
  sent_to_validateSpreadsheet ws = extracted /\
  (Gateway.validateSpreadsheet env fileName
     (sent_to_validateSpreadsheet ws) sopContext).2
  = (if Gateway.client_ready env
     then match extracted with
          | [] => []
          | _ :: _ => [ {| Gateway.req_sopContext := sopContext;
                           Gateway.req_cells := take 50 extracted |} ]
          end
     else []) /\
  (50 < length extracted -> length (take 50 extracted) = 50).
Proof.
  intros extracted.
  assert (Hcap : Gateway.formulaCells extracted = take 50 extracted).
  { unfold Gateway.formulaCells. f_equal.
    apply filter_all, extracted_have_formula. }
  split_and!.
  - intros x. subst extracted. rewrite extractCells_omap.
    rewrite list_elem_of_omap. split.
    + intros (rc & Hrc & Hx).
      apply triple_at_Some in Hx as (cell & Hc & F & ->).
      exists rc, cell. split_and!; [done..|].
      apply triple_of_formula_text. split; [|done].
      by apply formula_cell_bearing.
    + intros (rc & cell & Hrc & Hc & Hx).
      apply triple_of_formula_text in Hx as [Hb ->].
      exists rc. split; [done|]. apply triple_at_Some.
      exists cell. split_and!; [done| |done].
      by apply formula_cell_bearing.
  - exists (filter (extracted_at ws) (row_major (range_of ws))).
    split; [apply sublist_filter|].
    subst extracted. rewrite extractCells_omap. apply extracted_addresses.
  - intros Hwf. subst extracted. rewrite extracted_count by done.
    f_equal. apply map_filter_ext. intros a cell _. simpl.
    apply formula_cell_bearing.
  - done.
  - unfold sent_to_validateSpreadsheet. fold extracted.
    rewrite Gateway.validateSpreadsheet_outcomes, Hcap.
    destruct (Gateway.client_ready env); [|done].
    destruct extracted as [|x l]; [done|].
    change (take 50 (x :: l)) with (x :: take 49 l). cbn [length Nat.eqb].
    destruct (Gateway.generateContent env _) as [|text]; [done|].
    by destruct (Gateway.parsed_text env text).
  - intros Hlen. rewrite length_take. lia.
Qed.

(** A one-column sheet: a formula in each of its first 60 rows, a text
    that begins with [=] in the next, and then a plain text, a number
    whose formula marker is empty, and a number. *)
Definition formula_row (r : nat) : string * CellObject :=
  (encode_cell 0 r,
   {| cell_f := Some "B1*2"; cell_v := VNumber 4; cell_c := None;
      cell_t := "n"; cell_w := None |}).

Definition text_row (r : nat) : string * CellObject :=
  (encode_cell 0 r,
   {| cell_f := None; cell_v := VString "note"; cell_c := None;
      cell_t := "s"; cell_w := None |}).

Definition typed_formula : CellObject :=
  {| cell_f := None; cell_v := VString "=A1+A2"; cell_c := None;
     cell_t := "s"; cell_w := None |}.

Definition empty_marker : CellObject :=
  {| cell_f := Some ""; cell_v := VNumber 7; cell_c := None;
     cell_t := "n"; cell_w := None |}.

Definition long_sheet : WorkSheet :=
  {| ref := Some {| s_r := 0; s_c := 0; e_r := 63; e_c := 0 |};
     cells := list_to_map ((formula_row <$> seq 0 60)
                           ++ [ (encode_cell 0 60, typed_formula) ]
                           ++ (text_row <$> seq 61 1)
                           ++ [ (encode_cell 0 62, empty_marker);
                                (encode_cell 0 63,
                                 {| cell_f := None; cell_v := VNumber 1;
                                    cell_c := None; cell_t := "n";
                                    cell_w := None |}) ]);
     specials := ∅ |}.

Lemma long_sheet_wf : sheet_wf long_sheet.
Proof.
  intros a cell H. unfold long_sheet in H; cbn [cells] in H.
  apply elem_of_list_to_map_2 in H.
  assert (exists r, r < 64 /\ a = encode_cell 0 r) as (r & Hr & ->).
  { repeat (apply elem_of_app in H as [H|H]).
    - apply list_elem_of_fmap in H as (r & E & Hr).
      apply elem_of_seq in Hr. injection E as -> _. exists r. split; [lia|done].
    - apply list_elem_of_singleton in H. injection H as -> _.
      exists 60. split; [lia|done].
    - apply list_elem_of_fmap in H as (r & E & Hr).
      apply elem_of_seq in Hr. injection E as -> _. exists r. split; [lia|done].
    - apply elem_of_cons in H as [H|H]; [|apply list_elem_of_singleton in H];
        injection H as -> _; [exists 62|exists 63]; (split; [lia|done]). }
  exists (r, 0). split; [|done].
  unfold row_major. apply list_elem_of_bind. exists r.
  split; [|apply elem_of_seq; simpl; lia].
  apply list_elem_of_fmap. exists 0. split; [done|].
  apply elem_of_seq. simpl. lia.
Qed.

Lemma extraction_and_cap_witness :
  let extracted := extractCells long_sheet in
  length extracted = 61 /\
  size (filter (fun kv => formula_bearing kv.2) (cells long_sheet)) = 61 /\
  extracted !! 0
  = Some {| address := "A1"; formula := "=B1*2"; value := VNumber 4 |} /\
  extracted !! 60
  = Some {| address := "A61"; formula := "=A1+A2";
            value := VString "=A1+A2" |} /\
  length (sent_to_validateSpreadsheet long_sheet) = 61 /\
  (Gateway.validateSpreadsheet Gateway.unreachable "calc.xlsx"
     (sent_to_validateSpreadsheet long_sheet) None).2
  = [ {| Gateway.req_sopContext := None;
         Gateway.req_cells := take 50 extracted |} ] /\
  length (take 50 extracted) = 50 /\
  address <$> last (take 50 extracted) = Some "A50"%string.
Proof.
  intros extracted.
  assert (Hlen : length extracted = 61) by (by vm_compute).
  assert (H0 : extracted !! 0
               = Some {| address := "A1"; formula := "=B1*2";
                         value := VNumber 4 |}) by (by vm_compute).
  assert (H60 : extracted !! 60
                = Some {| address := "A61"; formula := "=A1+A2";
                          value := VString "=A1+A2" |}) by (by vm_compute).
  assert (Hlast : address <$> last (take 50 extracted) = Some "A50"%string)
    by (by vm_compute).
  destruct (extraction_and_cap long_sheet Gateway.unreachable "calc.xlsx"
              None) as (_ & _ & Hcount & Hsent & Hreq & Hcap).
  specialize (Hcount long_sheet_wf).
  fold extracted in Hcount, Hsent, Hreq, Hcap.
  split; [exact Hlen|].
  split; [rewrite <- Hcount; exact Hlen|].
  split; [exact H0|]. split; [exact H60|].
  split; [rewrite Hsent; exact Hlen|].
  split; [|split; [apply Hcap; lia|exact Hlast]].
  rewrite Hreq. cbn [Gateway.client_ready Gateway.unreachable].
  clear -Hlen. clearbody extracted.
  destruct extracted; [discriminate Hlen|reflexivity].
Defined.

(** C1 as stated fails in its last clause: the sheet has 61 formula
    cells, and the list handed to [validateSpreadsheet] has 61 entries,
    not 50. *)
Lemma all_formula_cells_reach_validateSpreadsheet :
  50 < length (extractCells long_sheet) /\
  length (sent_to_validateSpreadsheet long_sheet) = 61 /\
  length (sent_to_validateSpreadsheet long_sheet) <> 50.
Proof. vm_compute. split_and!; [lia|done|done]. Qed.

(** *** Corrections *)

(** The discrepancy carries a suggestion: the outer test of the
    [forEach] callback. *)
Definition carries_suggestion (disc : Discrepancy) : bool :=
  truthy_opt (suggestedValue disc) || truthy_opt (suggestedFormula disc).

(** The address names nothing on the worksheet object: no cell, no
    entry of the reader's, nothing inherited. *)
Definition names_nothing (ws : WorkSheet) (a : string) : Prop :=
  a <> "!ref"%string /\ cells ws !! a = None /\ specials ws !! a = None /\
  a <> "__proto__"%string /\ a ∉ Object_prototype_methods.

Lemma entry_names_nothing ws a : names_nothing ws a -> entry ws a = Undefined.
Proof.
  intros (Hr & Hc & Hs & Hp & Hm). unfold entry.
  apply String.eqb_neq in Hr, Hp. rewrite Hr, Hc, Hs, Hp.
  by rewrite bool_decide_eq_false_2.
Qed.

Lemma apply_correction_absent ws disc :
  entry ws (d_address disc) = Undefined -> apply_correction ws disc = Goes ws.
Proof.
  intros H. unfold apply_correction. rewrite H.
  by destruct (_ || _).
Qed.

Lemma apply_correction_no_suggestion ws disc :
  carries_suggestion disc = false -> apply_correction ws disc = Goes ws.
Proof. unfold apply_correction, carries_suggestion. by intros ->. Qed.

Lemma apply_correction_cell ws disc cell :
  carries_suggestion disc = true ->
  entry ws (d_address disc) = Cell cell ->
  apply_correction ws disc
  = Goes {| ref := ref ws;
            cells := <[d_address disc := correct_cell disc cell]>
                       (cells ws);
            specials := specials ws |}.
Proof.
  unfold apply_correction, carries_suggestion. by intros -> ->.
Qed.

Lemma entry_Cell ws a cell :
  entry ws a = Cell cell -> cells ws !! a = Some cell.
Proof.
  unfold entry. destruct (String.eqb a "!ref").
  - by destruct (ref ws).
  - destruct (cells ws !! a); [by intros [= ->]|].
    destruct (specials ws !! a) as [[]|]; [done..|].
    destruct (String.eqb a "__proto__"); [done|].
    by destruct (bool_decide _).
Qed.

(** One correction keeps the range, the other entries, the set of cell
    addresses and every cell object at another address. *)
Lemma apply_correction_frame ws disc ws' :
  apply_correction ws disc = Goes ws' ->
  ref ws' = ref ws /\ specials ws' = specials ws /\
  (forall a, cells ws' !! a = None <-> cells ws !! a = None) /\
  (forall a, a <> d_address disc -> cells ws' !! a = cells ws !! a).
Proof.
  unfold apply_correction.
  destruct (_ || _); [|by intros [= <-]].
  destruct (entry ws (d_address disc)) as [| |cell| |] eqn:E;
    [by intros [= <-]|done| |by intros [= <-]|done].
  intros [= <-]. simpl. apply entry_Cell in E. split_and!; [done..| |].
  - intros a. destruct (decide (a = d_address disc)) as [->|Hne].
    + rewrite lookup_insert_eq, E. done.
    + by rewrite lookup_insert_ne.
  - intros a Hne. by rewrite lookup_insert_ne.
Qed.

Lemma apply_corrections_frame ws ds ws' :
  apply_corrections ws ds = Goes ws' ->
  ref ws' = ref ws /\ specials ws' = specials ws /\
  (forall a, cells ws' !! a = None <-> cells ws !! a = None) /\
  (forall a,
      Forall (fun d => carries_suggestion d = true -> d_address d <> a) ds ->
      cells ws' !! a = cells ws !! a).
Proof.
  revert ws. induction ds as [|disc ds IH]; intros ws; simpl.
  - by intros [= <-].
  - destruct (apply_correction ws disc) as [ws1| |] eqn:E1; [|done..].
    intros E. destruct (IH _ E) as (Hr & Hs & Hd & Hf).
    split_and!.
    + rewrite Hr. by apply apply_correction_frame in E1 as (? & _).
    + rewrite Hs. by apply apply_correction_frame in E1 as (_ & ? & _).
    + intros a. rewrite Hd.
      by apply apply_correction_frame in E1 as (_ & _ & ? & _).
    + intros a Ha. apply Forall_cons in Ha as [Ha Hds].
      rewrite Hf by done.
      destruct (carries_suggestion disc) eqn:S.
      * apply apply_correction_frame in E1 as (_ & _ & _ & H).
        apply H. by intros ->; apply Ha.
      * rewrite apply_correction_no_suggestion in E1 by done.
        by injection E1 as <-.
Qed.

(** What a correction at an existing cell writes, by kind of
    suggestion. *)
Lemma correct_cell_value disc cell sv :
  truthy_opt (suggestedFormula disc) = false ->
  suggestedValue disc = Some sv -> truthy sv = true ->
  correct_cell disc cell =
  {| cell_f := None; cell_v := VString sv;
     cell_c := Some (default [] (cell_c cell)
                     ++ [ {| comment_t := "MDPC Correction: "
                                          +:+ reason disc |} ]);
     cell_t := cell_t cell; cell_w := cell_w cell |}.
Proof.
  intros Hf Hv Ht. unfold correct_cell. rewrite Hf, Hv. simpl.
  by rewrite Ht.
Qed.

Lemma correct_cell_formula disc cell sf :
  suggestedFormula disc = Some sf -> truthy sf = true ->
  correct_cell disc cell =
  {| cell_f := Some (replace_first_eq sf); cell_v := VUndefined;
     cell_c := Some (default [] (cell_c cell)
                     ++ [ {| comment_t := "MDPC Correction: "
                                          +:+ reason disc |} ]);
     cell_t := cell_t cell; cell_w := cell_w cell |}.
Proof.
  intros Hf Ht. unfold correct_cell. rewrite Hf. simpl. by rewrite Ht.
Qed.

(** [replace('=', '')] strips a leading [=] and leaves a text without
    [=] as it is. *)
Lemma replace_first_eq_leading s : replace_first_eq (String "=" s) = s.
Proof. reflexivity. Qed.

Lemma replace_first_eq_none s :
  Forall (fun a => a <> "="%char) (list_ascii_of_string s) ->
  replace_first_eq s = s.
Proof.
  induction s as [|a s IH]; simpl; [done|].
  intros H. apply Forall_cons in H as [Ha H].
  destruct (Ascii.eqb a "=") eqn:E.
  - by apply Ascii.eqb_eq in E.
  - by rewrite IH.
Qed.

(** Where the guard of the callback does what it is there for: a
    discrepancy whose address names nothing on the worksheet object
    leaves the sheet as it is; no run of corrections that goes through
    creates a cell or touches the range; and the discrepancy list of
    the failure fallback changes nothing, so that the file written is
    the original sheet. *)
Lemma unknown_address_is_skipped :
  (forall ws disc,
      names_nothing ws (d_address disc) ->
      apply_correction ws disc = Goes ws) /\
  (forall ws ds ws' a,
      apply_corrections ws ds = Goes ws' ->
      ref ws' = ref ws /\
      (cells ws !! a = None -> cells ws' !! a = None)) /\
  (forall ws fileName name,
      handleDownloadCorrectedExcel (Some ws)
        (Some (Gateway.failure fileName)) (Some name)
      = WriteFile ("Corrected_" +:+ name) ws).
Proof.
  split_and!.
  - intros ws disc H. by apply apply_correction_absent, entry_names_nothing.
  - intros ws ds ws' a H.
    apply apply_corrections_frame in H as (Hr & _ & Hd & _).
    split; [done|]. apply Hd.
  - done.
Qed.

(** A two-cell sheet and discrepancies on it. *)
Definition cell_A1 : CellObject :=
  {| cell_f := None; cell_v := VNumber 2; cell_c := None;
     cell_t := "n"; cell_w := Some "2" |}.

Definition cell_B2 : CellObject :=
  {| cell_f := Some "A1*2"; cell_v := VNumber 4; cell_c := None;
     cell_t := "n"; cell_w := Some "4" |}.

Definition small_sheet : WorkSheet :=
  {| ref := Some {| s_r := 0; s_c := 0; e_r := 1; e_c := 1 |};
     cells := {[ "A1"%string := cell_A1; "B2"%string := cell_B2 ]};
     specials := ∅ |}.

(** The same sheet as a reader leaves it that records page margins. *)
Definition sheet_with_margins : WorkSheet :=
  {| ref := ref small_sheet; cells := cells small_sheet;
     specials := {[ "!margins"%string := ObjectEntry ]} |}.

Definition suggestion (a : string) (sf sv : option string) : Discrepancy :=
  {| d_address := a; d_formula := "=A1*2"; d_value := VNumber 4;
     reason := "Hardcoded value"; severity := Medium;
     suggestedFormula := sf; suggestedValue := sv |}.

(** C10, at suggestions addressed to something that is no cell.  The
    sheet has no cell at ['!ref'], and yet a suggestion addressed there
    is not skipped: the callback throws, the handler alerts and writes
    no file.  It has none at ['__proto__'] either, and there the
    suggestion is written on [Object.prototype].  A suggestion for
    [Z9], which names nothing, is skipped, and so is the discrepancy of
    the failure fallback: the file written is the sheet as it was. *)
Theorem non_cell_entry_is_not_skipped :
  let download ds :=
    handleDownloadCorrectedExcel (Some small_sheet)
      (Some (Gateway.result "calc.xlsx" 1 ds false "s"))
      (Some "calc.xlsx"%string) in
  cells small_sheet !! "!ref"%string = None /\
  download [suggestion "!ref" None (Some "42")] = Alert /\
  cells small_sheet !! "__proto__"%string = None /\
  download [suggestion "__proto__" None (Some "42")] = PrototypeWritten /\
  download [suggestion "Z9" None (Some "42")]
  = WriteFile "Corrected_calc.xlsx" small_sheet /\
  handleDownloadCorrectedExcel (Some small_sheet)
    (Some (Gateway.failure "calc.xlsx")) (Some "calc.xlsx"%string)
  = WriteFile "Corrected_calc.xlsx" small_sheet.
Proof. by vm_compute. Qed.

(** C3, at a suggested formula without a leading [=] that contains a
    comparison: the formula written to the cell is the suggestion with
    its first [=] deleted. *)
Theorem formula_suggestion_loses_inner_equals :
  exists ws',
    handleDownloadCorrectedExcel (Some small_sheet)
      (Some (Gateway.result "calc.xlsx" 1
               [suggestion "B2" (Some "IF(A1=1,2,3)") None] false "s"))
      (Some "calc.xlsx"%string)
    = WriteFile "Corrected_calc.xlsx" ws' /\
    cell_f <$> cells ws' !! "B2"%string = Some (Some "IF(A11,2,3)"%string) /\
    cell_v <$> cells ws' !! "B2"%string = Some VUndefined /\
    cells ws' !! "A1"%string = Some cell_A1.
Proof. eexists. split; [reflexivity|]. by vm_compute. Qed.

(** The sheet, or what its two cells hold, after the corrections. *)
Definition cells_after (ws : WorkSheet) (ds : list Discrepancy)
  : option (option CellObject * option CellObject) :=
  match apply_corrections ws ds with
  | Goes ws' => Some (cells ws' !! "A1"%string, cells ws' !! "B2"%string)
  | Throws | Escapes => None
  end.

(** The spec's two examples at B2. *)
Example suggested_value_at_B2 :
  cells_after small_sheet [suggestion "B2" None (Some "42")]
  = Some (Some cell_A1,
          Some {| cell_f := None; cell_v := VString "42";
                  cell_c := Some [ {| comment_t :=
                                        "MDPC Correction: Hardcoded value" |} ];
                  cell_t := "n"; cell_w := Some "4" |}).
Proof. by vm_compute. Qed.

Example suggested_formula_at_B2 :
  cells_after small_sheet [suggestion "B2" (Some "SUM(A1:A3)") None]
  = Some (Some cell_A1,
          Some {| cell_f := Some "SUM(A1:A3)"; cell_v := VUndefined;
                  cell_c := Some [ {| comment_t :=
                                        "MDPC Correction: Hardcoded value" |} ];
                  cell_t := "n"; cell_w := Some "4" |}).
Proof. by vm_compute. Qed.

(** Suggestions addressed to an entry of the reader's and to an
    inherited method land on objects that are no cells: the sheet is
    written as it was. *)
Example correction_on_other_objects :
  apply_corrections sheet_with_margins
    [ suggestion "!margins" None (Some "42");
      suggestion "toString" (Some "=A1") None ]
  = Goes sheet_with_margins.
Proof. by vm_compute. Qed.

End Sheet.

(** ** The draft autosave effect ([SystemList.tsx], [storageService])

    The effect is

      [useEffect(() => { const timer = setTimeout(() => { if (open)
         saveUserDraft(user, key, form) }, 1000);
         return () => clearTimeout(timer) }, [form, open, user])]

    Each commit with changed dependencies first runs the cleanup of the
    previous run (the pending timer is cleared) and then the effect (a new
    timer is set, whose callback has captured the values of that render).
    Time is the millisecond clock of the event loop; a timer fires when
    the clock has reached its due time, before a later event is handled. *)

Module Autosave.

Section Effect.
(** The form state kept as a draft, and the form key of the effect
    (['inspection_form'] or ['sop_form']). *)
Context {Form : Type} (key : string).

(** The [USER_DRAFTS] slot: [drafts[userId][key]]. *)
Definition saveUserDraft (store : option (gmap string (gmap string Form)))
    (userId k : string) (data : Form)
  : option (gmap string (gmap string Form)) :=
  let drafts := default ∅ store in
  let own := default ∅ (drafts !! userId) in
  Some (<[userId := <[k := data]> own]> drafts).

Definition getUserDraft (store : option (gmap string (gmap string Form)))
    (userId k : string) : option Form :=
  match store with
  | None => None
  | Some drafts => drafts !! userId ≫= fun own => own !! k
  end.

(** The values a render passes to the effect. *)
Record Props := {
  form : Form;
  open : bool;          (* [isAddingInspection] / [isUploadingSOP] *)
  user : string         (* [currentUser.id] *)
}.

Record Timer := { due : Z; captured : Props }.

Record State := {
  clock : Z;
  timer : option Timer;
  store : option (gmap string (gmap string Form));
  (** the draft writes performed so far, oldest first *)
  writes : list (string * string * Form)
}.

Inductive Event :=
| Commit (t : Z) (p : Props)   (* a render with changed dependencies *)
| Wait (t : Z).                (* the clock reaches [t], nothing else *)

(** The timer callback. *)
Definition fire (tm : Timer) (st : State) : State :=
  let p := captured tm in
  if open p then
    {| clock := clock st; timer := None;
       store := saveUserDraft (store st) (user p) key (form p);
       writes := writes st ++ [(user p, key, form p)] |}
  else
    {| clock := clock st; timer := None; store := store st;
       writes := writes st |}.

(** The clock moves to [t]; a pending timer that is due fires. *)
Definition advance (t : Z) (st : State) : State :=
  let st' :=
    match timer st with
    | Some tm => if due tm <=? t then fire tm st else st
    | None => st
    end in
  {| clock := t; timer := timer st'; store := store st';
     writes := writes st' |}.

Definition step (st : State) (e : Event) : State :=
  match e with
  | Wait t => advance t st
  | Commit t p =>
      let st' := advance t st in
      (* cleanup: clearTimeout; effect: setTimeout(..., 1000) *)
      {| clock := t; timer := Some {| due := t + 1000; captured := p |};
         store := store st'; writes := writes st' |}
  end.

Definition run (st : State) (es : list Event) : State :=
  fold_left step es st.

(** Edits in quick succession from time [t] on: each comes less than
    the debounce window after the one before. *)
Fixpoint rapid (t : Z) (edits : list (Z * Props)) : Prop :=
  match edits with
  | [] => True
  | (t', _) :: edits' => t <= t' < t + 1000 /\ rapid t' edits'
  end.

Definition commits (edits : list (Z * Props)) : list Event :=
  (fun e => Commit e.1 e.2) <$> edits.

(** The last edit of a burst that starts with [e]. *)
Fixpoint final (e : Z * Props) (edits : list (Z * Props)) : Z * Props :=
  match edits with
  | [] => e
  | e' :: edits' => final e' edits'
  end.

Lemma getUserDraft_saveUserDraft st userId data :
  getUserDraft (saveUserDraft st userId key data) userId key = Some data.
Proof.
  unfold getUserDraft, saveUserDraft. rewrite lookup_insert_eq. simpl.
  by rewrite lookup_insert_eq.
Qed.

(** While the edits keep coming, the pending timer is replaced and
    nothing is written. *)
Lemma run_commits edits : forall st e,
  timer st = Some {| due := e.1 + 1000; captured := e.2 |} ->
  rapid e.1 edits ->
  writes (run st (commits edits)) = writes st /\
  store (run st (commits edits)) = store st /\
  timer (run st (commits edits))
  = Some {| due := (final e edits).1 + 1000;
            captured := (final e edits).2 |}.
Proof.
  induction edits as [|[t' p'] edits IH]; intros st e Ht Hr.
  - done.
  - destruct Hr as [Hlt Hr].
    change (run st (commits ((t', p') :: edits)))
      with (run (step st (Commit t' p')) (commits edits)).
    set (st1 := step st (Commit t' p')).
    assert (H1 : writes st1 = writes st /\ store st1 = store st /\
                 timer st1 = Some {| due := t' + 1000; captured := p' |}).
    { subst st1. unfold step, advance. rewrite Ht. simpl.
      destruct (e.1 + 1000 <=? t') eqn:E; [lia|done]. }
    destruct H1 as (Hw & Hs & Htm).
    destruct (IH st1 (t', p') Htm Hr) as (Hw' & Hs' & Htm').
    by rewrite Hw', Hs', Htm', Hw, Hs.
Qed.

Lemma run_app st es1 es2 : run st (es1 ++ es2) = run (run st es1) es2.
Proof. unfold run. apply fold_left_app. Qed.

(** C7. A burst of edits, each less than the debounce window after
    the one before, followed by a quiet period longer than the
    window: nothing is written while the edits keep coming, and then
    exactly one draft is written, holding the form state of the last
    edit.  With a single edit this is the edit followed by a quiet
    period.  The form is open at the last edit (the callback writes
    only then), and no timer set earlier is due before the first
    edit. *)
Theorem burst_writes_final_state_once st e1 edits T :
  match timer st with Some tm => e1.1 < due tm | None => True end ->
  rapid e1.1 edits ->
  open (final e1 edits).2 = true ->
  (final e1 edits).1 + 1000 < T ->
  let burst := Commit e1.1 e1.2 :: commits edits in
  let pn := (final e1 edits).2 in
  writes (run st burst) = writes st /\
  writes (run st (burst ++ [Wait T]))
  = writes st ++ [(user pn, key, form pn)] /\
  store (run st (burst ++ [Wait T]))
  = saveUserDraft (store st) (user pn) key (form pn) /\
  getUserDraft (store (run st (burst ++ [Wait T]))) (user pn) key
  = Some (form pn) /\
  timer (run st (burst ++ [Wait T])) = None.
Proof.
  intros Hpend Hr Hopen HT burst pn.
  set (st1 := step st (Commit e1.1 e1.2)).
  assert (H1 : writes st1 = writes st /\ store st1 = store st /\
               timer st1 = Some {| due := e1.1 + 1000;
                                   captured := e1.2 |}).
  { subst st1. unfold step, advance.
    destruct (timer st) as [tm|]; [|done]. simpl.
    destruct (due tm <=? e1.1) eqn:E; [lia|done]. }
  destruct H1 as (Hw & Hs & Htm).
  destruct (run_commits edits st1 e1 Htm Hr) as (Hw' & Hs' & Htm').
  assert (Hb : run st burst = run st1 (commits edits)) by done.
  rewrite run_app, Hb.
  set (st2 := run st1 (commits edits)) in *.
  assert (H2 : run st2 [Wait T]
               = {| clock := T; timer := None;
                    store := saveUserDraft (store st) (user pn) key
                                           (form pn);
                    writes := writes st ++ [(user pn, key, form pn)] |}).
  { unfold run; simpl. unfold advance. rewrite Htm'. simpl.
    destruct (_ <=? T) eqn:E; [|lia].
    unfold fire. cbn [captured]. rewrite Hopen. cbn [clock store writes].
    by rewrite Hw', Hs', Hw, Hs. }
  rewrite H2. simpl. split_and!; try done.
  - by rewrite Hw'.
  - apply getUserDraft_saveUserDraft.
Qed.

End Effect.

(** Three keystrokes 200 ms apart in the inspection form, then
    silence. *)
Definition typing : list (Z * Props (Form := string)) :=
  [ (5200, {| form := "ab"; open := true; user := "u1" |});
    (5400, {| form := "abc"; open := true; user := "u1" |}) ].

Definition idle : State (Form := string) :=
  {| clock := 0; timer := None; store := None; writes := [] |}.

Lemma burst_writes_final_state_once_witness :
  let e1 := (5000, {| form := "a"; open := true; user := "u1" |}) in
  let events := Commit e1.1 e1.2 :: commits typing ++ [Wait 6401] in
  rapid e1.1 typing /\
  writes (run "inspection_form" idle events)
  = [("u1"%string, "inspection_form"%string, "abc"%string)].
Proof.
  intros e1 events.
  assert (Hr : rapid e1.1 typing) by (simpl; lia).
  split; [exact Hr|].
  destruct (burst_writes_final_state_once "inspection_form" idle e1 typing
              6401 I Hr eq_refl) as (_ & H & _).
  { simpl. lia. }
  exact H.
Defined.

End Autosave.

(** ** Accounts and sessions ([authService])

    The two localStorage slots hold the JSON text of the user list and of
    the session user; a slot is modelled by the value it encodes, [None]
    when the key is absent.  An optional field that is [undefined] is left
    out by [JSON.stringify] and is [None] here. *)

Module Auth.

Inductive UserRole := ADMIN | OPERATOR.

Record User := {
  id : string;
  name : string;
  username : string;
  role : UserRole;
  password : option string;
  lastLogin : option string
}.

Record Storage := {
  USERS : option (list User);
  CURRENT_USER : option User
}.

Definition empty_storage : Storage :=
  {| USERS := None; CURRENT_USER := None |}.

Definition defaultAdmin : User :=
  {| id := "admin-001"; name := "System Administrator";
     username := "admin"; role := ADMIN; password := Some "admin";
     lastLogin := None |}.

(** [initUsers]: the default administrator is written when the key is
    absent. *)
Definition initUsers (st : Storage) : Storage :=
  match USERS st with
  | None => {| USERS := Some [defaultAdmin];
               CURRENT_USER := CURRENT_USER st |}
  | Some _ => st
  end.

(** [usersData ? JSON.parse(usersData) : []] *)
Definition users (st : Storage) : list User := default [] (USERS st).

(** [u.username === username && u.password === password] *)
Definition credentials (username password : string) (u : User) : Prop :=
  Auth.username u = username /\ Auth.password u = Some password.

#[global] Instance credentials_dec username password u :
  Decision (credentials username password u).
Proof. unfold credentials. apply _. Defined.

(** The session copy: [{...user}] with [password] deleted and
    [lastLogin] set. *)
Definition safeUser (isoNow : string) (user : User) : User :=
  {| id := id user; name := name user; username := username user;
     role := role user; password := None; lastLogin := Some isoNow |}.

(** [login]; [now] is the clock reading of [new Date()]. *)
Definition login (now : Z) (st : Storage) (username password : string)
  : option User * Storage :=
  let st1 := initUsers st in
  match list_find (credentials username password) (users st1) with
  | Some (_, user) =>
      let safe := safeUser (JsDate.toISOString now) user in
      (Some safe, {| USERS := USERS st1; CURRENT_USER := Some safe |})
  | None => (None, st1)
  end.

Definition logout (st : Storage) : Storage :=
  {| USERS := USERS st; CURRENT_USER := None |}.

Definition getCurrentUser (st : Storage) : option User := CURRENT_USER st.

(** [const { password, ...rest } = u; return rest] *)
Definition without_password (u : User) : User :=
  {| id := id u; name := name u; username := username u; role := role u;
     password := None; lastLogin := lastLogin u |}.

Definition getAllUsers (st : Storage) : list User * Storage :=
  let st1 := initUsers st in
  (without_password <$> users st1, st1).

(** The argument of [addUser] as the program passes it.  The one call,
    in [UserManagement.handleSubmit], passes the form state, whose four
    fields are texts, and is not reached unless username and password
    are non-empty.  The parameter type, [Partial<User>], also admits an
    argument without them; no such call is made, and none is modelled. *)
Record NewUser := {
  n_name : option string;
  n_username : string;
  n_password : string;
  n_role : option UserRole
}.

Inductive AuthError := UsernameExists | UserNotFound.

(** [addUser]; [now] is the reading of [Date.now()]. *)
Definition addUser (now : Z) (st : Storage) (newUser : NewUser)
  : AuthError + Storage :=
  match list_find (fun u => username u = n_username newUser) (users st) with
  | Some _ => inl UsernameExists
  | None =>
      let user :=
        {| id := pretty now;
           name := or_default (n_name newUser) "Unknown";
           username := n_username newUser;
           role := default OPERATOR (n_role newUser);
           password := Some (n_password newUser);
           lastLogin := None |} in
      inr {| USERS := Some (users st ++ [user]);
             CURRENT_USER := CURRENT_USER st |}
  end.

Definition set_password (p : string) (u : User) : User :=
  {| id := id u; name := name u; username := username u; role := role u;
     password := Some p; lastLogin := lastLogin u |}.

Definition changePassword (st : Storage) (userId newPassword : string)
  : AuthError + Storage :=
  match list_find (fun u => id u = userId) (users st) with
  | Some (index, u) =>
      inr {| USERS := Some (<[index := set_password newPassword u]>
                              (users st));
             CURRENT_USER := CURRENT_USER st |}
  | None => inl UserNotFound
  end.

(** A call of the service; a call that throws has written nothing. *)
Inductive Call :=
| Login (now : Z) (username password : string)
| Logout
| GetAllUsers
| AddUser (now : Z) (newUser : NewUser)
| ChangePassword (userId newPassword : string).

Definition call (st : Storage) (c : Call) : Storage :=
  match c with
  | Login now u p => (login now st u p).2
  | Logout => logout st
  | GetAllUsers => (getAllUsers st).2
  | AddUser now nu =>
      match addUser now st nu with inr st' => st' | inl _ => st end
  | ChangePassword i p =>
      match changePassword st i p with inr st' => st' | inl _ => st end
  end.

Definition calls (st : Storage) (cs : list Call) : Storage :=
  fold_left call cs st.

(** What every reachable state satisfies. *)
Definition consistent (st : Storage) : Prop :=
  NoDup (username <$> users st) /\
  Forall (fun u => is_Some (password u) /\ lastLogin u = None) (users st) /\
  (forall u, CURRENT_USER st = Some u ->
             password u = None /\ is_Some (lastLogin u)).

(** *** Facts *)

Lemma users_initUsers st :
  users (initUsers st)
  = match USERS st with Some l => l | None => [defaultAdmin] end.
Proof.
  unfold initUsers, users. destruct (USERS st) eqn:E; simpl; [|done].
  by rewrite E.
Qed.

Lemma CURRENT_USER_initUsers st :
  CURRENT_USER (initUsers st) = CURRENT_USER st.
Proof. unfold initUsers. by destruct (USERS st). Qed.

Lemma USERS_initUsers st : USERS (initUsers st) = Some (users (initUsers st)).
Proof.
  unfold initUsers, users. destruct (USERS st) eqn:E; simpl; [|done].
  by rewrite E.
Qed.

Lemma consistent_initUsers st : consistent st -> consistent (initUsers st).
Proof.
  intros (Hn & Hf & Hc). unfold consistent.
  rewrite users_initUsers, CURRENT_USER_initUsers.
  unfold users in *. destruct (USERS st) as [l|]; simpl in *.
  - done.
  - split_and!; [apply NoDup_singleton| |done].
    constructor; [|constructor]. split; [by eexists|done].
Qed.

Lemma consistent_call st c : consistent st -> consistent (call st c).
Proof.
  intros H. destruct c as [now u p| | |now nu|i p]; simpl.
  - apply consistent_initUsers in H. unfold login.
    destruct (list_find _ _) as [[k user]|]; [|exact H].
    destruct H as (Hn & Hf & Hc). unfold consistent, users in *. simpl.
    split_and!; [done..|].
    intros ? [= <-]. simpl. split; [done|by eexists].
  - destruct H as (Hn & Hf & Hc). unfold consistent, logout, users in *.
    simpl. by split_and!.
  - by apply consistent_initUsers.
  - unfold addUser. destruct (list_find _ _) eqn:E; [exact H|].
    destruct H as (Hn & Hf & Hc). unfold consistent. simpl.
    change (users {| USERS := Some ?l; CURRENT_USER := _ |}) with l.
    split_and!; [| |done].
    + rewrite fmap_app. apply NoDup_app.
      split_and!; [done| |apply NoDup_singleton].
      intros x Hx Hx'. apply list_elem_of_singleton in Hx'. subst x.
      apply list_elem_of_fmap in Hx as (u & Hu & Hin).
      apply list_find_None in E. rewrite Forall_forall in E.
      by apply (E u Hin).
    + apply Forall_app. split; [done|]. repeat constructor. by eexists.
  - unfold changePassword.
    destruct (list_find _ _) as [[k u]|] eqn:E; [|exact H].
    apply list_find_Some in E as (Hk & Hid & _).
    destruct H as (Hn & Hf & Hc). unfold consistent. simpl.
    change (users {| USERS := Some ?l; CURRENT_USER := _ |}) with l.
    split_and!; [| |done].
    + rewrite list_fmap_insert. simpl.
      rewrite list_insert_id; [done|].
      by rewrite list_lookup_fmap, Hk.
    + apply Forall_insert; [done|]. simpl. split; [by eexists|].
      rewrite Forall_forall in Hf. apply (Hf u).
      by eapply list_elem_of_lookup_2.
Qed.

Lemma consistent_calls cs : forall st,
  consistent st -> consistent (calls st cs).
Proof.
  induction cs as [|c cs IH]; intros st H; [exact H|].
  apply IH. by apply consistent_call.
Qed.

(** X1. In every state reached from an empty storage by calls of the
    service in which [addUser] is given a username and a password, as
    the program's one call of it does, the usernames of the stored
    accounts are pairwise distinct,
    every stored account has a password and no last-login time (the
    login time is written to the session copy only), and the session
    user, when there is one, carries no password.  The list shown by
    [getAllUsers] then holds neither passwords nor login times. *)
Theorem accounts_stay_consistent (cs : list Call) :
  let st := calls empty_storage cs in
  consistent st /\
  Forall (fun u => password u = None /\ lastLogin u = None)
         (getAllUsers st).1.
Proof.
  intros st.
  assert (H : consistent st).
  { apply consistent_calls. unfold consistent, empty_storage, users. simpl.
    split_and!; [constructor|constructor|done]. }
  split; [exact H|].
  apply consistent_initUsers in H as (_ & Hf & _).
  unfold getAllUsers. simpl. apply Forall_fmap.
  eapply Forall_impl; [exact Hf|]. simpl. intros u [_ Hl]. by split.
Qed.

(** X2. A successful login returns the stored account that has the
    given username and password, without its password and with the
    login time, and that value is the session user afterwards; a failed
    login leaves the session slot as it was.  The stored user list is
    not changed by a login (beyond the seeding of the default
    administrator). *)
Theorem login_opens_session_without_password now st u p :
  let out := login now st u p in
  USERS out.2 = USERS (initUsers st) /\
  match out.1 with
  | Some user =>
      password user = None /\
      lastLogin user = Some (JsDate.toISOString now) /\
      getCurrentUser out.2 = Some user /\
      exists stored, stored ∈ users (initUsers st) /\
        username stored = u /\ password stored = Some p /\
        user = safeUser (JsDate.toISOString now) stored
  | None =>
      getCurrentUser out.2 = getCurrentUser st /\
      Forall (fun s => ~ credentials u p s) (users (initUsers st))
  end.
Proof.
  unfold login. simpl.
  destruct (list_find _ _) as [[k user]|] eqn:E; simpl.
  - split; [done|]. split_and!; try done.
    apply list_find_Some in E as (Hk & [Hu Hp] & _).
    exists user. split_and!; try done.
    by eapply list_elem_of_lookup_2.
  - split; [done|]. split; [apply CURRENT_USER_initUsers|].
    by apply list_find_None in E.
Qed.

(** X3. On a storage without a user list every login attempt first
    writes the list holding the default administrator alone, and
    succeeds exactly for the username [admin] with the password
    [admin]. *)
Theorem fresh_store_has_default_admin now st u p :
  USERS st = None ->
  USERS (login now st u p).2 = Some [defaultAdmin] /\
  (is_Some (login now st u p).1 <-> u = "admin"%string /\ p = "admin"%string).
Proof.
  intros H. unfold login, initUsers, users. rewrite H. simpl.
  destruct (decide (credentials u p defaultAdmin)) as [[Hu Hp]|Hn]; simpl.
  - split; [done|]. simpl in *. split; [|by eexists].
    intros _. split; [done|congruence].
  - split; [done|]. split; [by intros []|].
    intros [-> ->]. by destruct Hn.
Qed.

Lemma fresh_store_has_default_admin_witness :
  USERS empty_storage = None /\
  (login 0 empty_storage "admin" "admin").1
  = Some (safeUser "1970-01-01T00:00:00.000Z" defaultAdmin) /\
  is_Some (login 0 empty_storage "admin" "admin").1.
Proof.
  split; [reflexivity|]. split; [reflexivity|].
  apply (fresh_store_has_default_admin 0 empty_storage "admin" "admin"
           eq_refl).
  by split.
Defined.

(** X4. After a successful [addUser] the new account can log in with
    the username and password it was created with; the session user is
    the new account: its id is the creation clock reading, an empty name
    has become [Unknown] and a missing role [OPERATOR]. *)
Theorem added_user_can_log_in now st newUser st' now' :
  addUser now st newUser = inr st' ->
  (login now' st' (n_username newUser) (n_password newUser)).1
  = Some {| id := pretty now;
            name := or_default (n_name newUser) "Unknown";
            username := n_username newUser;
            role := default OPERATOR (n_role newUser);
            password := None;
            lastLogin := Some (JsDate.toISOString now') |}.
Proof.
  unfold addUser. destruct (list_find _ (users st)) eqn:E; [done|].
  intros [= <-]. unfold login, initUsers. simpl.
  change (users {| USERS := Some ?l; CURRENT_USER := _ |}) with l.
  set (user := {| id := pretty now |}).
  assert (Hl : list_find (credentials (n_username newUser)
                                      (n_password newUser)) (users st)
               = None).
  { apply list_find_None. apply list_find_None in E.
    eapply Forall_impl; [exact E|]. simpl. intros u Hu [Hu' _]. by apply Hu. }
  rewrite list_find_app_r by exact Hl. simpl.
  rewrite decide_True by done. reflexivity.
Qed.

Definition analyst : NewUser :=
  {| n_name := Some ""; n_username := "sara"; n_password := "s3cret";
     n_role := None |}.

Lemma added_user_can_log_in_witness :
  let st := (getAllUsers empty_storage).2 in
  exists st',
    addUser 1700000000000 st analyst = inr st' /\
    (login 1700000000500 st' "sara" "s3cret").1
    = Some {| id := "1700000000000"; name := "Unknown"; username := "sara";
              role := OPERATOR; password := None;
              lastLogin := Some "2023-11-14T22:13:20.500Z" |}.
Proof.
  intros st. eexists. split; [reflexivity|].
  exact (added_user_can_log_in 1700000000000 st analyst _ 1700000000500
           eq_refl).
Defined.

(** Replacing an element on which a predicate fails by another on which
    it fails does not change what [find] returns. *)
Lemma list_find_insert_other {A} (P : A -> Prop) `{!forall x, Decision (P x)}
    (l : list A) (k : nat) (x y : A) :
  l !! k = Some x -> ~ P x -> ~ P y ->
  list_find P (<[k := y]> l) = list_find P l.
Proof.
  revert k. induction l as [|z l IH]; intros k Hk Hx Hy; [done|].
  destruct k as [|k]; simpl in *.
  - injection Hk as ->. by rewrite !decide_False.
  - destruct (decide (P z)); [done|]. by rewrite IH.
Qed.

(** X5. With pairwise distinct usernames, a successful [changePassword]
    concerns one stored account with the given id: afterwards that
    account logs in with the new password and with no other, and a login
    under any other username is answered as before. *)
Theorem changed_password_takes_effect st userId newPassword st' :
  NoDup (username <$> users st) ->
  changePassword st userId newPassword = inr st' ->
  exists u, u ∈ users st /\ id u = userId /\
    (forall now,
        (login now st' (username u) newPassword).1
        = Some (safeUser (JsDate.toISOString now) u)) /\
    (forall now old, old <> newPassword ->
        (login now st' (username u) old).1 = None) /\
    (forall now other pw, other <> username u ->
        (login now st' other pw).1 = (login now st other pw).1).
Proof.
  intros Hn. unfold changePassword.
  destruct (list_find _ (users st)) as [[k u]|] eqn:E; [|done].
  intros [= <-]. apply list_find_Some in E as (Hk & Hid & _).
  exists u. split; [by eapply list_elem_of_lookup_2|]. split; [done|].
  assert (Hst : initUsers st = st).
  { unfold initUsers, users in *. destruct (USERS st); [done|].
    simpl in Hk. by rewrite lookup_nil in Hk. }
  assert (Hother : forall j y, users st !! j = Some y -> j <> k ->
                               username y <> username u).
  { intros j y Hj Hjk Heq. apply Hjk.
    eapply (NoDup_lookup _ j k (username u)); [exact Hn| |].
    - by rewrite list_lookup_fmap, Hj, <- Heq.
    - by rewrite list_lookup_fmap, Hk. }
  unfold login, initUsers. simpl.
  change (users {| USERS := Some ?l; CURRENT_USER := _ |}) with l.
  split_and!.
  - intros now.
    assert (Hf : list_find (credentials (username u) newPassword)
                   (<[k := set_password newPassword u]> (users st))
                 = Some (k, set_password newPassword u)).
    { apply list_find_Some. split_and!.
      - apply list_lookup_insert_eq. by eapply lookup_lt_Some.
      - done.
      - intros j y Hj Hjk [Hy _].
        rewrite list_lookup_insert_ne in Hj by lia.
        apply (Hother j y Hj); [lia|exact Hy]. }
    by rewrite Hf.
  - intros now old Hold.
    assert (Hf : list_find (credentials (username u) old)
                   (<[k := set_password newPassword u]> (users st))
                 = None).
    { apply list_find_None. apply Forall_forall. intros y Hy [Hu Hp].
      apply list_elem_of_lookup_1 in Hy as [j Hj].
      destruct (decide (j = k)) as [->|Hjk].
      - rewrite list_lookup_insert_eq in Hj by (by eapply lookup_lt_Some).
        injection Hj as <-. simpl in Hp. congruence.
      - rewrite list_lookup_insert_ne in Hj by done.
        by apply (Hother j y Hj). }
    by rewrite Hf.
  - intros now other pw Hne.
    rewrite (list_find_insert_other _ _ k u) by
      (try done; intros [? _]; simpl in *; congruence).
    fold (initUsers st). rewrite Hst.
    by destruct (list_find _ _) as [[??]|].
Qed.

Lemma changed_password_takes_effect_witness :
  let st := (getAllUsers empty_storage).2 in
  exists st',
    changePassword st "admin-001" "Gamp5!" = inr st' /\
    (login 0 st' "admin" "Gamp5!").1
    = Some (safeUser "1970-01-01T00:00:00.000Z" defaultAdmin) /\
    (login 0 st' "admin" "admin").1 = None.
Proof.
  intros st.
  assert (Hn : NoDup (username <$> users st)).
  { apply NoDup_singleton. }
  destruct (changed_password_takes_effect st "admin-001" "Gamp5!" _
              Hn eq_refl) as (u & Hu & _ & H1 & H2 & _).
  eexists. split; [reflexivity|].
  apply list_elem_of_singleton in Hu. subst u.
  split; [exact (H1 0)|]. apply H2. discriminate.
Defined.

End Auth.

(** ** Procedures ([storageService]: the SOP slot)

    The slot holds the JSON text of the SOP list and is modelled by that
    list, [None] when the key is absent. *)

Module Sops.

Inductive Category :=
  Operation | Validation | Maintenance | SpreadsheetValidation | Safety.

Inductive AiStatus := Compliant | NonCompliant | Pending.

Record SOP := {
  id : string;
  systemId : string;
  title : string;
  version : string;
  category : Category;
  fileName : string;
  uploadDate : string;
  uploadedBy : string;
  isActive : bool;
  aiComplianceStatus : option AiStatus;
  aiAnalysisReport : option string;
  extractedRules : option string
}.

Definition Store : Type := option (list SOP).

Section Store.
(** [new Date(s).getTime()]; [None] is [NaN]. *)
Variable getTime : string -> option Z.

(** [(a, b) => new Date(b.uploadDate).getTime()
               - new Date(a.uploadDate).getTime()] *)
Definition by_upload_desc (a b : SOP) : option Z :=
  RecordStore.minus (getTime (uploadDate b)) (getTime (uploadDate a)).

Definition getSOPs (st : Store) (sid : string) : list SOP :=
  match st with
  | None => []
  | Some allSops =>
      RecordStore.sort by_upload_desc
        (filter (fun s => systemId s = sid) allSops)
  end.
End Store.

Definition saveSOP (st : Store) (sop : SOP) : Store :=
  Some (default [] st ++ [sop]).

(** [deleteSOP]: without a stored list nothing is written. *)
Definition deleteSOP (st : Store) (sopId : string) : Store :=
  match st with
  | None => None
  | Some allSops => Some (filter (fun s => id s <> sopId) allSops)
  end.

(** *** Sorting and filtering commute *)

Section SortFilter.
Context {A : Type} (compare : A -> A -> option Z) (key : A -> Z).

Lemma insert_sorted_at (x : A) (l1 l2 : list A) :
  RecordStore.keyed_on compare key (x :: l1 ++ l2) ->
  Forall (fun y => key x < key y) l1 ->
  match l2 with [] => True | y :: _ => key y <= key x end ->
  RecordStore.insert_sorted compare x (l1 ++ l2) = l1 ++ x :: l2.
Proof.
  intros Hk H1 H2. induction H1 as [|y l1 Hy _ IH]; simpl.
  - destruct l2 as [|y l2]; [done|]. simpl.
    unfold RecordStore.not_after.
    rewrite (Hk x y) by (simpl; rewrite !elem_of_cons; auto).
    cbn beta iota.
    by replace (key y - key x <=? 0) with true by lia.
  - unfold RecordStore.not_after.
    rewrite (Hk x y) by (simpl; rewrite !elem_of_cons; auto).
    cbn beta iota.
    replace (key y - key x <=? 0) with false by lia.
    rewrite IH; [done|].
    intros a b Ha Hb. apply Hk.
    + simpl. rewrite !elem_of_cons in *. tauto.
    + simpl. rewrite !elem_of_cons in *. tauto.
Qed.

Lemma sorted_split (x : A) (l : list A) :
  StronglySorted (fun a b => key b <= key a) l ->
  exists l1 l2, l = l1 ++ l2 /\
    Forall (fun y => key x < key y) l1 /\
    Forall (fun y => key y <= key x) l2.
Proof.
  induction 1 as [|y l Hs IH Hy].
  - by exists [], [].
  - destruct (decide (key y <= key x)) as [Hle|Hgt].
    + exists [], (y :: l). split_and!; [done|constructor|].
      constructor; [done|].
      eapply Forall_impl; [exact Hy|]. simpl. intros; lia.
    + destruct IH as (l1 & l2 & -> & H1 & H2).
      exists (y :: l1), l2. split_and!; [done| |done].
      constructor; [lia|done].
Qed.

Lemma filter_insert_sorted (P : A -> Prop) `{!forall a, Decision (P a)}
    (x : A) (l : list A) :
  RecordStore.keyed_on compare key (x :: l) ->
  StronglySorted (fun a b => key b <= key a) l ->
  filter P (RecordStore.insert_sorted compare x l)
  = if decide (P x)
    then RecordStore.insert_sorted compare x (filter P l)
    else filter P l.
Proof.
  intros Hk Hs.
  destruct (sorted_split x l Hs) as (l1 & l2 & -> & H1 & H2).
  rewrite insert_sorted_at; [|done|done|by destruct H2].
  rewrite !filter_app, filter_cons.
  destruct (decide (P x)); [|done].
  rewrite insert_sorted_at; [done| | |].
  - intros a b Ha Hb. apply Hk.
    + rewrite elem_of_cons, elem_of_app, !list_elem_of_filter in Ha.
      rewrite elem_of_cons, elem_of_app. tauto.
    + rewrite elem_of_cons, elem_of_app, !list_elem_of_filter in Hb.
      rewrite elem_of_cons, elem_of_app. tauto.
  - rewrite Forall_forall in H1 |- *. intros y Hy.
    apply list_elem_of_filter in Hy as [_ Hy]. by apply H1.
  - destruct (filter P l2) as [|y l2'] eqn:E; [done|].
    assert (Hy : y ∈ filter P l2) by (rewrite E; left).
    apply list_elem_of_filter in Hy as [_ Hy].
    rewrite Forall_forall in H2. by apply H2.
Qed.

Lemma filter_sort (P : A -> Prop) `{!forall a, Decision (P a)}
    (l : list A) :
  RecordStore.keyed_on compare key l ->
  filter P (RecordStore.sort compare l)
  = RecordStore.sort compare (filter P l).
Proof.
  induction l as [|x l IH]; intros Hk; [done|].
  assert (Hk' : RecordStore.keyed_on compare key l).
  { intros a b Ha Hb. apply Hk; by apply list_elem_of_further. }
  simpl. rewrite filter_insert_sorted.
  - rewrite filter_cons. destruct (decide (P x)); simpl; by rewrite IH.
  - intros a b Ha Hb. apply Hk.
    + rewrite elem_of_cons in *. by rewrite RecordStore.sort_perm in Ha.
    + rewrite elem_of_cons in *. by rewrite RecordStore.sort_perm in Hb.
  - by apply RecordStore.sort_sorted.
Qed.
End SortFilter.

(** *** Facts about the SOP slot *)

Section Facts.
Variable getTime : string -> option Z.

Definition stored (st : Store) : list SOP := default [] st.

Definition valid_dates (st : Store) : Prop :=
  Forall (fun s => is_Some (getTime (uploadDate s))) (stored st).

Definition time (s : SOP) : Z := default 0 (getTime (uploadDate s)).

Lemma keyed (l : list SOP) :
  Forall (fun s => is_Some (getTime (uploadDate s))) l ->
  RecordStore.keyed_on (by_upload_desc getTime) time l.
Proof.
  intros Hv a b Ha Hb. rewrite Forall_forall in Hv.
  destruct (Hv a Ha) as [ta Hta]. destruct (Hv b Hb) as [tb Htb].
  unfold by_upload_desc, time. by rewrite Hta, Htb.
Qed.

Lemma Forall_filter_weaken {B} (P Q : B -> Prop) `{!forall x, Decision (Q x)}
    (l : list B) :
  Forall P l -> Forall P (filter Q l).
Proof.
  rewrite !Forall_forall. intros HP x Hx.
  apply list_elem_of_filter in Hx as [_ Hx]. by apply HP.
Qed.

Lemma getSOPs_perm st sid :
  getSOPs getTime st sid ≡ₚ filter (fun s => systemId s = sid) (stored st).
Proof.
  unfold getSOPs, stored. destruct st as [l|]; simpl; [|done].
  apply RecordStore.sort_perm.
Qed.

Lemma getSOPs_sorted st sid :
  valid_dates st ->
  StronglySorted (fun a b => time b <= time a) (getSOPs getTime st sid).
Proof.
  unfold valid_dates, getSOPs, stored.
  destruct st as [l|]; simpl; intros Hv; [|constructor].
  apply RecordStore.sort_sorted, keyed. by apply Forall_filter_weaken.
Qed.

(** X6. [deleteSOP] removes the procedures with the given id and no
    other: a listing afterwards holds what it held before without them.
    With valid upload dates the remaining procedures also keep their
    order in every listing.  Without a stored list nothing is written,
    and deleting twice is deleting once. *)
Theorem deleteSOP_removes_that_id_only (st : Store) (sopId : string) :
  (forall sid s,
      s ∈ getSOPs getTime (deleteSOP st sopId) sid
      <-> s ∈ getSOPs getTime st sid /\ id s <> sopId) /\
  (valid_dates st -> forall sid,
      getSOPs getTime (deleteSOP st sopId) sid
      = filter (fun s => id s <> sopId) (getSOPs getTime st sid)) /\
  (st = None -> deleteSOP st sopId = None) /\
  deleteSOP (deleteSOP st sopId) sopId = deleteSOP st sopId.
Proof.
  split_and!.
  - intros sid s. rewrite !getSOPs_perm.
    unfold deleteSOP, stored. destruct st as [l|]; simpl.
    + rewrite !list_elem_of_filter. tauto.
    + rewrite elem_of_nil. tauto.
  - intros Hv sid. unfold valid_dates, stored in Hv.
    unfold deleteSOP, getSOPs. destruct st as [l|]; simpl in *; [|done].
    rewrite (filter_sort _ time); [|by apply keyed, Forall_filter_weaken].
    f_equal. rewrite !list_filter_filter. apply list_filter_iff.
    intros s. tauto.
  - by intros ->.
  - unfold deleteSOP. destruct st as [l|]; [|done].
    f_equal. rewrite list_filter_filter. apply list_filter_iff.
    intros s. tauto.
Qed.

(** X7. A saved procedure is listed for its asset; the listings of the
    other assets are unchanged; and with valid upload dates every
    listing holds the stored procedures of its asset, most recently
    uploaded first. *)
Theorem saved_sop_is_listed (st : Store) (sop : SOP) :
  sop ∈ getSOPs getTime (saveSOP st sop) (systemId sop) /\
  (forall sid, sid <> systemId sop ->
      getSOPs getTime (saveSOP st sop) sid = getSOPs getTime st sid) /\
  (valid_dates st -> forall sid,
      getSOPs getTime st sid
        ≡ₚ filter (fun s => systemId s = sid) (stored st) /\
      StronglySorted (fun a b => time b <= time a)
                     (getSOPs getTime st sid)).
Proof.
  split_and!.
  - rewrite getSOPs_perm. apply list_elem_of_filter. split; [done|].
    unfold stored, saveSOP. simpl. apply elem_of_app. right. left.
  - intros sid Hne. unfold getSOPs, saveSOP. simpl.
    rewrite filter_app, filter_cons, decide_False by done.
    rewrite filter_nil, app_nil_r. by destruct st.
  - intros Hv sid. split; [apply getSOPs_perm|by apply getSOPs_sorted].
Qed.
End Facts.

End Sops.

(** ** Clearing drafts ([storageService]: the drafts slot)

    The slot is the one written by [saveUserDraft]: an object keyed by
    user id whose values are objects keyed by form name.  The drafts kept
    are form objects, which are truthy. *)

Module Drafts.

Section Drafts.
Context {Form : Type}.

Definition Store : Type := option (gmap string (gmap string Form)).

(** [clearUserDrafts]: the slot is rewritten only when the user has an
    entry. *)
Definition clearUserDrafts (store : Store) (userId : string) : Store :=
  match store with
  | None => None
  | Some drafts =>
      match drafts !! userId with
      | Some _ => Some (delete userId drafts)
      | None => Some drafts
      end
  end.

(** [clearSpecificDraft] *)
Definition clearSpecificDraft (store : Store) (userId key : string)
  : Store :=
  match store with
  | None => None
  | Some drafts =>
      match drafts !! userId with
      | Some own =>
          match own !! key with
          | Some _ => Some (<[userId := delete key own]> drafts)
          | None => Some drafts
          end
      | None => Some drafts
      end
  end.

(** *** Facts *)

Lemma getUserDraft_clearUserDrafts store userId u k :
  Autosave.getUserDraft (clearUserDrafts store userId) u k
  = if decide (u = userId) then None else Autosave.getUserDraft store u k.
Proof.
  unfold clearUserDrafts, Autosave.getUserDraft.
  destruct store as [drafts|]; [|by destruct (decide _)].
  destruct (decide (u = userId)) as [->|Hne].
  - destruct (drafts !! userId) eqn:E; [|by rewrite E].
    by rewrite lookup_delete_eq.
  - destruct (drafts !! userId) eqn:E; [|done].
    by rewrite lookup_delete_ne.
Qed.

Lemma getUserDraft_clearSpecificDraft store userId key u k :
  Autosave.getUserDraft (clearSpecificDraft store userId key) u k
  = if decide (u = userId /\ k = key) then None
    else Autosave.getUserDraft store u k.
Proof.
  unfold clearSpecificDraft, Autosave.getUserDraft.
  destruct store as [drafts|]; [|by destruct (decide _)].
  destruct (drafts !! userId) as [own|] eqn:E.
  - destruct (own !! key) eqn:Ek.
    + destruct (decide (u = userId)) as [->|Hne].
      * rewrite lookup_insert_eq, E. simpl.
        destruct (decide (k = key)) as [->|Hk].
        -- rewrite decide_True by done. by rewrite lookup_delete_eq.
        -- rewrite decide_False by tauto. by rewrite lookup_delete_ne.
      * rewrite decide_False by tauto. by rewrite lookup_insert_ne.
    + destruct (decide (u = userId /\ k = key)) as [[-> ->]|]; [|done].
      by rewrite E; simpl.
  - destruct (decide (u = userId /\ k = key)) as [[-> ->]|]; [|done].
    by rewrite E.
Qed.

End Drafts.
End Drafts.

(** ** The text-generating operations ([geminiService.ts])

    [generateTestProtocols], [analyzeSystemRisk], [analyzeSOP] and
    [translateToPersian] send one prompt each.  A prompt is a fixed
    template around the arguments of the function, so it is given by the
    function and those arguments.  The external capability is a
    parameter, as for [validateSpreadsheet]. *)

Module Advisor.

Definition type_value (t : Assets.SystemType) : string :=
  match t with
  | Assets.WATER_SYSTEM => "Water System (WFI/PW)"
  | Assets.HVAC => "HVAC / Air Handling"
  | Assets.LAB_EQUIPMENT => "Lab Equipment (HPLC/TOC)"
  | Assets.MONITORING => "Env. Monitoring (Fridge/Sensors)"
  | Assets.SOFTWARE => "GAMP 5 Software"
  end.

Definition stage_value (s : Assets.ValidationStage) : string :=
  match s with
  | Assets.URS => "URS (User Requirements)"
  | Assets.IQ => "IQ (Installation Qualification)"
  | Assets.OQ => "OQ (Operational Qualification)"
  | Assets.PQ => "PQ (Performance Qualification)"
  | Assets.VSR => "Validation Summary Report"
  end.

Inductive Prompt :=
| ProtocolsPrompt (systemName systemType stage : string)
| RiskPrompt (systemType description : string)
| SopPrompt (title category contentSnippet : string)
| TranslationPrompt (text : string).

(** What [JSON.parse] makes of the answer to the SOP prompt, as far as
    [analyzeSOP] looks at it: the [report] and [rules] properties, at the
    types of the response schema.  The [status] property is not read. *)
Inductive ParsedSop :=
| SyntaxError
| JsonNull
| JsonValue (report rules : option string).

Record Env := {
  client_ready : bool;
  generateContent : Prompt -> Gateway.Reply;
  JSON_parse : string -> ParsedSop
}.

(** Computations inside a [try] block, with the prompts sent so far. *)
Definition Try (A : Type) : Type := list Prompt -> option A * list Prompt.

Definition ret {A} (a : A) : Try A := fun log => (Some a, log).
Definition throw {A} : Try A := fun log => (None, log).
Definition bind {A B} (m : Try A) (k : A -> Try B) : Try B :=
  fun log =>
    match m log with
    | (Some a, log') => k a log'
    | (None, log') => (None, log')
    end.

Notation "x <- m ;; k" := (bind m (fun x => k))
  (at level 100, m at next level, right associativity).

(** [try { ... } catch { return fallback }] *)
Definition catch {A} (m : Try A) (fallback : A) : A * list Prompt :=
  match m [] with
  | (Some a, log) => (a, log)
  | (None, log) => (fallback, log)
  end.

Definition new_GoogleGenAI (env : Env) : Try unit :=
  if client_ready env then ret tt else throw.

Definition call_generateContent (env : Env) (p : Prompt)
  : Try (option string) :=
  fun log =>
    match generateContent env p with
    | Gateway.Rejected => (None, log ++ [p])
    | Gateway.Response text => (Some text, log ++ [p])
    end.

Definition generateTestProtocols (env : Env)
    (systemName : string) (systemType : Assets.SystemType) (stage : string)
  : string * list Prompt :=
  catch
    (ai <- new_GoogleGenAI env ;;
     text <- call_generateContent env
               (ProtocolsPrompt systemName (type_value systemType) stage) ;;
     ret (or_default text "No protocols generated."))
    "Error generating protocols. Please check your API key.".

Definition analyzeSystemRisk (env : Env)
    (description : string) (systemType : Assets.SystemType)
  : string * list Prompt :=
  catch
    (ai <- new_GoogleGenAI env ;;
     text <- call_generateContent env
               (RiskPrompt (type_value systemType) description) ;;
     ret (or_default text "Unable to analyze risk."))
    "Error analyzing risk.".

Record SopAnalysis := {
  status : Sops.AiStatus;
  report : string;
  rules : string
}.

(** [JSON.parse(response.text || '{}')] and the two property reads. *)
Definition parse_sop (env : Env) (text : option string)
  : Try (option string * option string) :=
  let parsed :=
    if truthy_opt text then JSON_parse env (default "" text)
    else JsonValue None None in
  match parsed with
  | SyntaxError => throw
  | JsonNull => throw
  | JsonValue rp rl => ret (rp, rl)
  end.

Definition analyzeSOP (env : Env) (title category contentSnippet : string)
  : SopAnalysis * list Prompt :=
  catch
    (ai <- new_GoogleGenAI env ;;
     text <- call_generateContent env
               (SopPrompt title category contentSnippet) ;;
     result <- parse_sop env text ;;
     ret {| status := Sops.Compliant;
            report := or_default result.1 "Rules extracted successfully.";
            rules := or_default result.2 "No specific rules extracted." |})
    {| status := Sops.NonCompliant;
       report := "AI Service Error during SOP analysis.";
       rules := "" |}.

Definition translateToPersian (env : Env) (text : string)
  : string * list Prompt :=
  catch
    (ai <- new_GoogleGenAI env ;;
     answer <- call_generateContent env (TranslationPrompt text) ;;
     ret (or_default answer text))
    text.

(** *** The protocol panel of [SystemList.tsx]

    [aiProtocols] maps an asset id to the protocol text shown for it. *)

Definition handleGenerateProtocols (env : Env)
    (aiProtocols : gmap string string) (system : Assets.PharmaSystem)
  : gmap string string * list Prompt :=
  let out := generateTestProtocols env (Assets.name system)
               (Assets.type system)
               (stage_value (Assets.currentStage system)) in
  (<[Assets.id system := out.1]> aiProtocols, out.2).

(** [handleTranslateProtocol]: nothing happens without a protocol. *)
Definition handleTranslateProtocol (env : Env)
    (aiProtocols : gmap string string) (sysId : string)
  : gmap string string * list Prompt :=
  match aiProtocols !! sysId with
  | Some protocol =>
      if truthy protocol then
        let out := translateToPersian env protocol in
        (<[sysId := out.1]> aiProtocols, out.2)
      else (aiProtocols, [])
  | None => (aiProtocols, [])
  end.

Inductive PanelEvent :=
| Generate (system : Assets.PharmaSystem)
| Translate (sysId : string).

Definition panel_step (env : Env) (aiProtocols : gmap string string)
    (e : PanelEvent) : gmap string string :=
  match e with
  | Generate system => (handleGenerateProtocols env aiProtocols system).1
  | Translate sysId => (handleTranslateProtocol env aiProtocols sysId).1
  end.

(** *** Facts *)

Lemma truthy_or_default o d : truthy d = true -> truthy (or_default o d) = true.
Proof.
  intros Hd. unfold or_default. destruct o as [s|]; [|done].
  by destruct (truthy s) eqn:E.
Qed.

Lemma text_outcomes env p (empty failed : string) :
  catch (ai <- new_GoogleGenAI env ;;
         text <- call_generateContent env p ;;
         ret (or_default text empty)) failed
  = if client_ready env then
      match generateContent env p with
      | Gateway.Rejected => (failed, [p])
      | Gateway.Response text => (or_default text empty, [p])
      end
    else (failed, []).
Proof.
  unfold catch, bind, new_GoogleGenAI, call_generateContent.
  destruct (client_ready env); [|done]. simpl.
  by destruct (generateContent env p).
Qed.

Definition parsed_text (env : Env) (text : option string) : ParsedSop :=
  if truthy_opt text then JSON_parse env (default "" text)
  else JsonValue None None.

Lemma analyzeSOP_outcomes env title category contentSnippet :
  let p := SopPrompt title category contentSnippet in
  let failure := {| status := Sops.NonCompliant;
                    report := "AI Service Error during SOP analysis.";
                    rules := "" |} in
  analyzeSOP env title category contentSnippet
  = if client_ready env then
      match generateContent env p with
      | Gateway.Rejected => (failure, [p])
      | Gateway.Response text =>
          match parsed_text env text with
          | SyntaxError | JsonNull => (failure, [p])
          | JsonValue rp rl =>
              ({| status := Sops.Compliant;
                  report := or_default rp "Rules extracted successfully.";
                  rules := or_default rl "No specific rules extracted." |},
               [p])
          end
      end
    else (failure, []).
Proof.
  intros p failure.
  unfold analyzeSOP, catch, bind, new_GoogleGenAI, call_generateContent.
  destruct (client_ready env); [|done]. simpl. fold p.
  destruct (generateContent env p) as [|text]; [done|].
  unfold parse_sop, parsed_text.
  by destruct (if truthy_opt text then _ else _).
Qed.

Lemma analyzeSOP_rules env title category snippet :
  let out := analyzeSOP env title category snippet in
  (length out.2 <= 1)%nat /\
  (status out.1 = Sops.NonCompliant <-> rules out.1 = ""%string).
Proof.
  simpl. rewrite analyzeSOP_outcomes.
  destruct (client_ready env); [|by split; [simpl; lia|]].
  destruct (generateContent env _) as [|text]; [by split; [simpl; lia|]|].
  destruct (parsed_text env text) as [| |rp rl];
    [by split; [simpl; lia|]..|].
  split; [simpl; lia|]. simpl. split; [done|]. intros H.
  assert (Ht : truthy (or_default rl "No specific rules extracted.") = true)
    by (by apply truthy_or_default).
  by rewrite H in Ht.
Qed.

(** X8. [analyzeSOP] never throws and sends at most one prompt.  Its
    status is [Compliant] exactly when an answer came back and parsed to
    a value other than [null], whatever that answer says; the extracted
    rules are then a non-empty text.  In every other case the status is
    [Non-Compliant] and the rules are the empty text. *)
Theorem analyzeSOP_status_reports_the_call env title category snippet :
  let out := analyzeSOP env title category snippet in
  (length out.2 <= 1)%nat /\
  (status out.1 = Sops.Compliant <->
     client_ready env = true /\
     exists text rp rl,
       generateContent env (SopPrompt title category snippet)
       = Gateway.Response text /\
       parsed_text env text = JsonValue rp rl) /\
  (status out.1 = Sops.Compliant ->
     truthy (rules out.1) = true /\ truthy (report out.1) = true) /\
  (status out.1 = Sops.NonCompliant <-> rules out.1 = ""%string).
Proof.
  simpl. rewrite analyzeSOP_outcomes.
  destruct (client_ready env).
  2:{ simpl. split_and!; [lia| |done|done].
      split; [done|]. by intros []. }
  destruct (generateContent env _) as [|text].
  { simpl. split_and!; [lia| |done|done].
    split; [done|]. by intros (_ & ? & ? & ? & ? & _). }
  destruct (parsed_text env text) as [| |rp rl] eqn:P; simpl.
  - split_and!; [lia| |done|done].
    split; [done|]. intros (_ & ? & ? & ? & [= <-] & ?). congruence.
  - split_and!; [lia| |done|done].
    split; [done|]. intros (_ & ? & ? & ? & [= <-] & ?). congruence.
  - split_and!; [lia| | |].
    + split; [|done]. intros _. split; [done|]. by exists text, rp, rl.
    + intros _. split; by apply truthy_or_default.
    + split; [done|]. intros H.
      assert (Ht : truthy (or_default rl "No specific rules extracted.")
                   = true) by (by apply truthy_or_default).
      by rewrite H in Ht.
Qed.

Lemma generateTestProtocols_truthy env n t s :
  truthy (generateTestProtocols env n t s).1 = true.
Proof.
  unfold generateTestProtocols. rewrite text_outcomes.
  destruct (client_ready env); [|done].
  destruct (generateContent env _); [done|]. by apply truthy_or_default.
Qed.

Lemma translateToPersian_truthy env text :
  truthy text = true -> truthy (translateToPersian env text).1 = true.
Proof.
  intros H. unfold translateToPersian. rewrite text_outcomes.
  destruct (client_ready env); [|done].
  destruct (generateContent env _); [done|]. by apply truthy_or_default.
Qed.

Lemma panel_step_truthy env m e :
  map_Forall (fun _ p => truthy p = true) m ->
  map_Forall (fun _ p => truthy p = true) (panel_step env m e).
Proof.
  intros H. destruct e as [system|sysId]; simpl.
  - apply map_Forall_insert_2; [|done]. apply generateTestProtocols_truthy.
  - unfold handleTranslateProtocol.
    destruct (m !! sysId) as [p|] eqn:E; [|done].
    destruct (truthy p) eqn:Hp; [|done]. simpl.
    apply map_Forall_insert_2; [|done]. by apply translateToPersian_truthy.
Qed.

(** X9. A translation never loses a protocol.  [translateToPersian]
    returns its argument unless a non-empty answer came back, so
    [handleTranslateProtocol] leaves a non-empty text at the asset's
    entry, leaves the other entries alone and sends nothing when the
    asset has no protocol; and over every sequence of generations and
    translations, starting without protocols, each entry present is a
    non-empty text. *)
Theorem translation_never_loses_a_protocol env :
  (forall text, (translateToPersian env text).1 = text \/
     exists answer,
       generateContent env (TranslationPrompt text)
       = Gateway.Response (Some answer) /\
       truthy answer = true /\ (translateToPersian env text).1 = answer) /\
  (forall m sysId,
     let out := handleTranslateProtocol env m sysId in
     (forall i, i <> sysId -> out.1 !! i = m !! i) /\
     (forall p, m !! sysId = Some p -> truthy p = true ->
                exists p', out.1 !! sysId = Some p' /\ truthy p' = true) /\
     (m !! sysId = None -> out = (m, []))) /\
  (forall events,
     map_Forall (fun _ p => truthy p = true)
                (fold_left (panel_step env) events ∅)).
Proof.
  split_and!.
  - intros text. unfold translateToPersian. rewrite text_outcomes.
    destruct (client_ready env); [|by left].
    destruct (generateContent env _) as [|[answer|]] eqn:E;
      [by left| |by left].
    simpl. destruct (truthy answer) eqn:Ht; [|by left].
    right. by exists answer.
  - intros m sysId. simpl. unfold handleTranslateProtocol. split_and!.
    + intros i Hi. destruct (m !! sysId) as [p|]; [|done].
      destruct (truthy p); [|done]. simpl. by rewrite lookup_insert_ne.
    + intros p -> Hp. rewrite Hp. simpl. eexists.
      split; [apply lookup_insert_eq|]. by apply translateToPersian_truthy.
    + by intros ->.
  - intros events.
    assert (H : forall m, map_Forall (fun _ p => truthy p = true) m ->
                map_Forall (fun _ p => truthy p = true)
                           (fold_left (panel_step env) events m)).
    { induction events as [|e events IH]; intros m Hm; [done|].
      simpl. apply IH. by apply panel_step_truthy. }
    apply H. apply map_Forall_empty.
Qed.

End Advisor.

(** ** The SOP and spreadsheet panels ([SystemList.tsx]) *)

Module Panel.
Import Types.

Definition category_value (c : Sops.Category) : string :=
  match c with
  | Sops.Operation => "Operation"
  | Sops.Validation => "Validation"
  | Sops.Maintenance => "Maintenance"
  | Sops.SpreadsheetValidation => "Spreadsheet Validation"
  | Sops.Safety => "Safety"
  end.

(** The form state [newSOP]; the form always carries a category. *)
Record SopForm := {
  f_title : option string;
  f_version : option string;
  f_category : Sops.Category;
  f_contentText : option string
}.

(** [handleSOPUpload].  [file] is the name of the chosen file, [now_id]
    the reading of [Date.now()] and [now_upload] that of [new Date()].
    The result is [None] when the guard returns; otherwise the SOP slot,
    the drafts slot and the prompts sent. *)
Definition handleSOPUpload {Form : Type} (env : Advisor.Env)
    (now_id now_upload : Z) (newSOP : SopForm) (file : option string)
    (selectedSystem : string) (currentUser : Auth.User)
    (store : Sops.Store) (drafts : Drafts.Store (Form := Form))
  : option (Sops.Store * Drafts.Store (Form := Form)
            * list Advisor.Prompt) :=
  match file with
  | Some fileName =>
      if truthy_opt (f_title newSOP) then
        let contentText :=
          or_default (f_contentText newSOP)
                     ("Simulated SOP content for " +:+ fileName) in
        let analysis :=
          Advisor.analyzeSOP env (default "" (f_title newSOP))
            (category_value (f_category newSOP)) contentText in
        let sop :=
          {| Sops.id := pretty now_id;
             Sops.systemId := selectedSystem;
             Sops.title := default "" (f_title newSOP);
             Sops.version := or_default (f_version newSOP) "1.0";
             Sops.category := f_category newSOP;
             Sops.fileName := fileName;
             Sops.uploadDate := JsDate.toISOString now_upload;
             Sops.uploadedBy := Auth.name currentUser;
             Sops.isActive := true;
             Sops.aiComplianceStatus := Some (Advisor.status analysis.1);
             Sops.aiAnalysisReport := Some (Advisor.report analysis.1);
             Sops.extractedRules := Some (Advisor.rules analysis.1) |} in
        Some (Sops.saveSOP store sop,
              Drafts.clearSpecificDraft drafts (Auth.id currentUser)
                                        "sop_form",
              analysis.2)
      else None
  | None => None
  end.

(** [handleDeleteSOP]; [confirmed] is the answer to the [confirm]
    dialog.  The second component tells whether the alert was shown. *)
Definition handleDeleteSOP (currentUser : Auth.User) (confirmed : bool)
    (store : Sops.Store) (sopId : string) : Sops.Store * bool :=
  match Auth.role currentUser with
  | Auth.ADMIN =>
      if confirmed then (Sops.deleteSOP store sopId, false)
      else (store, false)
  | Auth.OPERATOR => (store, true)
  end.

(** [sops.find(s => s.isActive && s.category === 'Spreadsheet Validation')] *)
Definition applicable (s : Sops.SOP) : Prop :=
  Sops.isActive s = true /\ Sops.category s = Sops.SpreadsheetValidation.

#[global] Instance category_eq_dec : EqDecision Sops.Category.
Proof. solve_decision. Defined.

#[global] Instance applicable_dec s : Decision (applicable s).
Proof. unfold applicable. apply _. Defined.

Definition activeSOP (sops : list Sops.SOP) : option Sops.SOP :=
  snd <$> list_find applicable sops.

(** What [handleFileUpload] leaves behind: the displayed result, the
    record store and the requests sent. *)
Record Uploaded := {
  excelResult : ExcelAnalysisResult;
  storage : RecordStore.Storage;
  requests : list Gateway.Request
}.

(** [handleFileUpload].  [file] is the chosen file, given by its name
    and the first worksheet it parses to; [sops] is the component's SOP
    list; [now_stamp] and [now_save] are the clock readings taken for
    the report date and, inside [saveExcelReport], for the retention
    date.  The analysis object passed to [saveExcelReport] is the one
    kept as [excelResult], so the retention date written into it shows
    in both. *)
Definition handleFileUpload (env : Gateway.Env) (tz : JsDate.TimeZone)
    (now_stamp now_save : Z) (sops : list Sops.SOP)
    (file : option (string * Sheet.WorkSheet)) (sysId : string)
    (st : RecordStore.Storage) : option Uploaded :=
  match file with
  | None => None
  | Some (name, ws) =>
      let cells := Sheet.extractCells ws in
      let active := activeSOP sops in
      let sopContext := active ≫= Sops.extractedRules in
      let out := Gateway.validateSpreadsheet env name cells sopContext in
      let analysis :=
        stamp sysId (JsDate.toISOString now_stamp)
              (Sops.title <$> active) out.1 in
      Some {| excelResult :=
                set_retentionDate (RecordStore.retention tz now_save)
                                  analysis;
              storage := RecordStore.saveExcelReport tz now_save st analysis;
              requests := out.2 |}
  end.

(** The two places of the prompt of [validateSpreadsheet] that depend on
    [sopContext]: [sopContext || 'General GAMP 5 Guidelines'] and
    [sopContext ? sopContext : "No specific SOP provided. ..."]. *)
Definition prompt_rules (sopContext : option string) : string * string :=
  (or_default sopContext "General GAMP 5 Guidelines",
   if truthy_opt sopContext then default "" sopContext
   else "No specific SOP provided. Use standard GAMP 5 best practices (No hardcoding, data integrity).").

(** The SOP events of a session of [currentUser]. *)
Inductive SopEvent :=
| Upload (env : Advisor.Env) (now_id now_upload : Z) (newSOP : SopForm)
         (file : option string) (selectedSystem : string)
| Delete (confirmed : bool) (sopId : string).

Definition sop_step (currentUser : Auth.User) (store : Sops.Store)
    (e : SopEvent) : Sops.Store :=
  match e with
  | Upload env now_id now_upload newSOP file selectedSystem =>
      match handleSOPUpload (Form := unit) env now_id now_upload newSOP
              file selectedSystem currentUser store None with
      | Some out => out.1.1
      | None => store
      end
  | Delete confirmed sopId =>
      (handleDeleteSOP currentUser confirmed store sopId).1
  end.

(** *** Facts *)

(** X10. [handleSOPUpload] does nothing without a title or a file.
    Otherwise it sends one analysis prompt at most and stores one new
    procedure, which is listed for the selected asset, is active, names
    the current user as uploader, and carries the extracted rules: the
    empty text exactly when the analysis failed.  Of the drafts only the
    current user's SOP form is removed. *)
Theorem uploaded_sop_is_listed_and_active {Form : Type}
    (getTime : string -> option Z) env now_id now_upload newSOP file
    selectedSystem currentUser store (drafts : Drafts.Store (Form := Form)) :
  let out := handleSOPUpload env now_id now_upload newSOP file
               selectedSystem currentUser store drafts in
  (out = None <-> file = None \/ truthy_opt (f_title newSOP) = false) /\
  (forall store' drafts' prompts, out = Some (store', drafts', prompts) ->
     (length prompts <= 1)%nat /\
     exists sop,
       store' = Some (Sops.stored store ++ [sop]) /\
       sop ∈ Sops.getSOPs getTime store' selectedSystem /\
       Sops.isActive sop = true /\
       Sops.uploadedBy sop = Auth.name currentUser /\
       Sops.uploadDate sop = JsDate.toISOString now_upload /\
       (Sops.extractedRules sop = Some ""%string <->
        Sops.aiComplianceStatus sop = Some Sops.NonCompliant) /\
       (forall u k,
          Autosave.getUserDraft drafts' u k
          = if decide (u = Auth.id currentUser /\ k = "sop_form"%string)
            then None else Autosave.getUserDraft drafts u k)).
Proof.
  intros out. subst out. unfold handleSOPUpload. split.
  - destruct file as [fileName|]; [|by split; [left|]].
    destruct (truthy_opt (f_title newSOP)); split; try done.
    + by intros [|].
    + by right.
  - intros store' drafts' prompts.
    destruct file as [fileName|]; [|done].
    destruct (truthy_opt (f_title newSOP)); [|done].
    set (analysis := Advisor.analyzeSOP env _ _ _).
    intros [= <- <- <-].
    pose proof (Advisor.analyzeSOP_rules env
                  (default "" (f_title newSOP))
                  (category_value (f_category newSOP))
                  (or_default (f_contentText newSOP)
                     ("Simulated SOP content for " +:+ fileName)))
      as (Hlen & Hrules).
    fold analysis in Hlen, Hrules.
    split; [exact Hlen|].
    eexists. split; [reflexivity|]. split_and!; try done.
    + rewrite Sops.getSOPs_perm. apply list_elem_of_filter. split; [done|].
      unfold Sops.stored, Sops.saveSOP. simpl.
      apply elem_of_app. right. left.
    + simpl. split.
      * intros [= H]. f_equal. by apply Hrules.
      * intros [= H]. f_equal. by apply Hrules.
    + intros u k. apply Drafts.getUserDraft_clearSpecificDraft.
Qed.

Lemma sop_step_operator currentUser store e :
  Auth.role currentUser = Auth.OPERATOR ->
  Sops.stored store `prefix_of` Sops.stored (sop_step currentUser store e).
Proof.
  intros Hr. destruct e as [env n1 n2 newSOP file sel|confirmed sopId]; simpl.
  - unfold handleSOPUpload. destruct file as [fileName|]; [|done].
    destruct (truthy_opt (f_title newSOP)); [|done]. simpl.
    by apply prefix_app_r.
  - unfold handleDeleteSOP. by rewrite Hr.
Qed.

(** X11. In a session of a user with the role Operator no stored
    procedure is ever removed or changed: after any sequence of uploads
    and delete attempts the stored list starts with the list it started
    from.  ([handleDeleteSOP] alerts and returns for every role but
    Admin.) *)
Theorem operator_session_keeps_sops currentUser store events :
  Auth.role currentUser = Auth.OPERATOR ->
  Sops.stored store
    `prefix_of` Sops.stored (fold_left (sop_step currentUser) events store).
Proof.
  intros Hr. revert store.
  induction events as [|e events IH]; intros store; [done|].
  simpl. etrans; [|apply IH]. by apply sop_step_operator.
Qed.

Lemma sorted_lookup {A} (R : A -> A -> Prop) (l : list A) :
  StronglySorted R l ->
  forall i j x y, l !! i = Some x -> l !! j = Some y -> (i < j)%nat -> R x y.
Proof.
  induction 1 as [|a l Hs IH Ha]; intros i j x y Hi Hj Hlt; [done|].
  destruct j as [|j]; [lia|]. simpl in Hj.
  destruct i as [|i]; simpl in Hi.
  - injection Hi as <-. rewrite Forall_forall in Ha. apply Ha.
    by eapply list_elem_of_lookup_2.
  - apply (IH i j); [done..|lia].
Qed.

Lemma activeSOP_Some sops s :
  activeSOP sops = Some s ->
  exists i, sops !! i = Some s /\ applicable s /\
    forall j y, sops !! j = Some y -> (j < i)%nat -> ~ applicable y.
Proof.
  unfold activeSOP. destruct (list_find applicable sops) as [[i x]|] eqn:E;
    [|done].
  intros [= <-]. apply list_find_Some in E. by exists i.
Qed.

(** X12. The SOP whose rules go into the validation prompt.  When the
    component's SOP list is the listing of the asset and the stored
    upload dates are valid, the SOP chosen by [handleFileUpload] is an
    active Spreadsheet-Validation procedure of that asset that no other
    such procedure is newer than; and none is chosen exactly when the
    asset has no such procedure. *)
Theorem active_sop_is_newest (getTime : string -> option Z)
    (store : Sops.Store) (sid : string) :
  Sops.valid_dates getTime store ->
  match activeSOP (Sops.getSOPs getTime store sid) with
  | Some s =>
      s ∈ Sops.stored store /\ Sops.systemId s = sid /\ applicable s /\
      forall s', s' ∈ Sops.stored store -> Sops.systemId s' = sid ->
                 applicable s' ->
                 Sops.time getTime s' <= Sops.time getTime s
  | None =>
      forall s', s' ∈ Sops.stored store -> Sops.systemId s' = sid ->
                 ~ applicable s'
  end.
Proof.
  intros Hv.
  pose proof (Sops.getSOPs_sorted getTime store sid Hv) as Hs.
  pose proof (Sops.getSOPs_perm getTime store sid) as Hp.
  destruct (activeSOP _) as [s|] eqn:E.
  - apply activeSOP_Some in E as (i & Hi & Ha & Hfirst).
    assert (Hin : s ∈ Sops.getSOPs getTime store sid)
      by (by eapply list_elem_of_lookup_2).
    rewrite Hp in Hin. apply list_elem_of_filter in Hin as [Hsid Hin].
    split_and!; try done.
    intros s' Hin' Hsid' Ha'.
    assert (Hl : s' ∈ Sops.getSOPs getTime store sid).
    { rewrite Hp. by apply list_elem_of_filter. }
    apply list_elem_of_lookup_1 in Hl as [j Hj].
    destruct (decide (j < i)%nat) as [Hlt|Hge].
    { by destruct (Hfirst j s' Hj Hlt). }
    destruct (decide (j = i)) as [->|Hne].
    { rewrite Hi in Hj. injection Hj as <-. lia. }
    apply (sorted_lookup _ _ Hs i j s s'); [done..|lia].
  - intros s' Hin' Hsid' Ha'.
    unfold activeSOP in E.
    destruct (list_find applicable _) as [[??]|] eqn:F; [done|].
    apply list_find_None in F. rewrite Forall_forall in F.
    apply (F s'); [|done]. rewrite Hp. by apply list_elem_of_filter.
Qed.

Lemma totalFormulas_cases env fileName cells sopContext :
  let out := Gateway.validateSpreadsheet env fileName cells sopContext in
  let fc := Gateway.formulaCells cells in
  (out.1 = Gateway.failure fileName \/
   totalFormulas out.1 = Z.of_nat (length fc)) /\
  Forall (fun req => Gateway.req_cells req = fc) out.2.
Proof.
  simpl. rewrite Gateway.validateSpreadsheet_outcomes.
  destruct (Gateway.client_ready env); [|by split; [left|]].
  destruct (length _ =? 0)%nat eqn:E.
  { apply Nat.eqb_eq in E. rewrite E. by split; [right|]. }
  destruct (Gateway.generateContent env _) as [|text].
  { split; [by left|]. by repeat constructor. }
  destruct (Gateway.parsed_text env text).
  - split; [by left|]. by repeat constructor.
  - split; [by left|]. by repeat constructor.
  - split; [by right|]. by repeat constructor.
Qed.

(** X13. The formula count in a report is the capped count.
    [totalFormulas] never exceeds 50: it is 0 on the failure path and
    otherwise the number of formula cells cut at 50; a request carries
    at most 50 cells; and a report that is valid stands for the first
    [min n 50] formula cells only, [n] being the number of formula cells
    in the sheet. *)
Theorem reported_formula_count_is_capped env fileName cells sopContext :
  let out := Gateway.validateSpreadsheet env fileName cells sopContext in
  let n := length (filter (fun c => truthy (formula c)) cells) in
  0 <= totalFormulas out.1 <= 50 /\
  (totalFormulas out.1 = 0 \/ totalFormulas out.1 = Z.of_nat (n `min` 50)) /\
  (isValid out.1 = true -> totalFormulas out.1 = Z.of_nat (n `min` 50)) /\
  Forall (fun req =>
            Gateway.req_cells req
            = take 50 (filter (fun c => truthy (formula c)) cells))
         out.2.
Proof.
  intros out n.
  destruct (totalFormulas_cases env fileName cells sopContext)
    as [Hcase Hreq].
  fold out in Hcase, Hreq.
  assert (Hlen : length (Gateway.formulaCells cells) = (n `min` 50)%nat).
  { unfold Gateway.formulaCells. rewrite length_take. subst n. lia. }
  rewrite Hlen in Hcase.
  split_and!.
  - destruct Hcase as [->| ->]; simpl; lia.
  - destruct Hcase as [->| ->]; simpl; lia.
  - destruct Hcase as [->|Ht]; [by left|by right].
  - destruct Hcase as [->|Ht]; [done|by intros _].
  - exact Hreq.
Qed.

Lemma saved_report_listed getTime tz now st r sid :
  systemId r = Some sid ->
  set_retentionDate (RecordStore.retention tz now) r
  ∈ RecordStore.getExcelReports getTime
      (RecordStore.saveExcelReport tz now st r) sid.
Proof.
  intros Hs. unfold RecordStore.getExcelReports, RecordStore.saveExcelReport.
  simpl. rewrite RecordStore.sort_perm. apply list_elem_of_filter.
  split; [done|]. apply elem_of_app. right. left.
Qed.

(** X14. What an upload leaves behind.  [handleFileUpload] on a file
    stores one report and shows the same value, retention date
    included: it is listed for the asset, carries the asset id, the
    upload time, the file name and the verdict of [validateSpreadsheet]
    on the extracted cells, and names the chosen SOP.  The rules sent
    are those of the chosen SOP; a chosen SOP whose rules are empty or
    missing is still named in the report, although the prompt is then
    the one sent without any SOP. *)
Theorem upload_is_recorded_as_shown (getTime : string -> option Z)
    env tz now_stamp now_save sops name ws sysId st :
  exists up,
    handleFileUpload env tz now_stamp now_save sops (Some (name, ws))
                     sysId st = Some up /\
    RecordStore.reports (storage up)
    = RecordStore.reports st ++ [excelResult up] /\
    excelResult up
      ∈ RecordStore.getExcelReports getTime (storage up) sysId /\
    systemId (excelResult up) = Some sysId /\
    date (excelResult up) = Some (JsDate.toISOString now_stamp) /\
    retentionDate (excelResult up)
    = Some (RecordStore.retention tz now_save) /\
    fileName (excelResult up) = name /\
    (isValid (excelResult up) = true <-> discrepancies (excelResult up) = []) /\
    referencedSopTitle (excelResult up) = Sops.title <$> activeSOP sops /\
    Forall (fun req =>
              Gateway.req_sopContext req
              = activeSOP sops ≫= Sops.extractedRules /\
              Gateway.req_cells req = take 50 (Sheet.extractCells ws))
           (requests up) /\
    (forall s, activeSOP sops = Some s ->
       truthy_opt (Sops.extractedRules s) = false ->
       referencedSopTitle (excelResult up) = Some (Sops.title s) /\
       Forall (fun req =>
                 prompt_rules (Gateway.req_sopContext req)
                 = prompt_rules None)
              (requests up)).
Proof.
  eexists. split; [reflexivity|]. cbn [excelResult storage requests].
  set (active := activeSOP sops).
  set (out := Gateway.validateSpreadsheet env name (Sheet.extractCells ws)
                (active ≫= Sops.extractedRules)).
  assert (Hreq : Forall (fun req =>
              Gateway.req_sopContext req = active ≫= Sops.extractedRules /\
              Gateway.req_cells req = take 50 (Sheet.extractCells ws))
            out.2).
  { subst out. rewrite Gateway.validateSpreadsheet_outcomes.
    assert (Hfc : Gateway.formulaCells (Sheet.extractCells ws)
                  = take 50 (Sheet.extractCells ws)).
    { unfold Gateway.formulaCells. f_equal.
      apply Sheet.filter_all, Sheet.extracted_have_formula. }
    rewrite Hfc.
    destruct (Gateway.client_ready env); [|constructor].
    destruct (length _ =? 0)%nat; [constructor|].
    destruct (Gateway.generateContent env _) as [|text];
      [by repeat constructor|].
    destruct (Gateway.parsed_text env text); by repeat constructor. }
  assert (Hname : fileName out.1 = name).
  { subst out. rewrite Gateway.validateSpreadsheet_outcomes.
    destruct (Gateway.client_ready env); [|done].
    destruct (length _ =? 0)%nat; [done|].
    destruct (Gateway.generateContent env _) as [|text]; [done|].
    by destruct (Gateway.parsed_text env text). }
  assert (Htitle : referencedSopTitle out.1 = None).
  { subst out. rewrite Gateway.validateSpreadsheet_outcomes.
    destruct (Gateway.client_ready env); [|done].
    destruct (length _ =? 0)%nat; [done|].
    destruct (Gateway.generateContent env _) as [|text]; [done|].
    by destruct (Gateway.parsed_text env text). }
  split_and!.
  - done.
  - by apply saved_report_listed.
  - done.
  - done.
  - done.
  - exact Hname.
  - simpl. subst out. rewrite Gateway.validateSpreadsheet_outcomes.
    destruct (Gateway.client_ready env); [|done].
    destruct (length _ =? 0)%nat; [done|].
    destruct (Gateway.generateContent env _) as [|text]; [done|].
    destruct (Gateway.parsed_text env text) as [| |ds sm]; [done..|].
    simpl. by destruct (default [] ds).
  - simpl. rewrite Htitle. by destruct active.
  - exact Hreq.
  - intros s Hs Hr. fold active in Hs. split.
    + simpl. by rewrite Hs.
    + eapply Forall_impl; [exact Hreq|]. simpl. intros req [-> _].
      rewrite Hs. simpl. unfold prompt_rules, or_default.
      destruct (Sops.extractedRules s) as [r|]; [|done].
      simpl in Hr |- *. by rewrite Hr.
Qed.

Lemma formulaCells_nil cells :
  Gateway.formulaCells cells = [] <->
  ~ Exists (fun c => truthy (formula c) = true) cells.
Proof.
  unfold Gateway.formulaCells. split.
  - intros H He. apply Exists_exists in He as (c & Hc & Ht).
    assert (Hin : c ∈ filter (fun c => truthy (formula c)) cells).
    { apply list_elem_of_filter. split; [by rewrite Ht|done]. }
    destruct (filter _ cells) as [|x l]; [by apply elem_of_nil in Hin|].
    done.
  - intros Hn.
    destruct (filter (fun c => truthy (formula c)) cells) as [|x l] eqn:E;
      [done|].
    destruct Hn. apply Exists_exists. exists x.
    assert (Hin : x ∈ filter (fun c => truthy (formula c)) cells)
      by (rewrite E; left).
    apply list_elem_of_filter in Hin as [Ht Hin]. split; [done|].
    by destruct (truthy (formula x)).
Qed.

(** X15. [validateSpreadsheet] sends at most one request, and it
    sends one exactly when the client could be constructed and the list
    has a formula cell.  Its result names the file it was given, has a
    non-empty summary and, until the caller stamps it, no asset id, no
    date, no retention date and no SOP title. *)
Theorem validation_sends_one_request_at_most env name cells sopContext :
  let out := Gateway.validateSpreadsheet env name cells sopContext in
  (length out.2 <= 1)%nat /\
  (out.2 <> [] <->
     Gateway.client_ready env = true /\
     Exists (fun c => truthy (formula c) = true) cells) /\
  fileName out.1 = name /\
  truthy (summary out.1) = true /\
  systemId out.1 = None /\ date out.1 = None /\
  retentionDate out.1 = None /\ referencedSopTitle out.1 = None.
Proof.
  simpl. rewrite Gateway.validateSpreadsheet_outcomes.
  pose proof (formulaCells_nil cells) as Hnil.
  destruct (Gateway.client_ready env).
  2:{ simpl. split_and!; try done; [lia|]. split; [done|]. by intros []. }
  destruct (length (Gateway.formulaCells cells) =? 0)%nat eqn:E.
  { apply Nat.eqb_eq in E.
    destruct (Gateway.formulaCells cells); [|done].
    simpl. split_and!; try done; [lia|]. split; [done|].
    intros [_ He]. exfalso. by apply (proj1 Hnil eq_refl). }
  apply Nat.eqb_neq in E.
  assert (He : Exists (fun c => truthy (formula c) = true) cells).
  { destruct (decide (Exists (fun c => truthy (formula c) = true) cells))
      as [He|Hn]; [done|].
    apply Hnil in Hn. by rewrite Hn in E. }
  destruct (Gateway.generateContent env _) as [|text].
  { simpl. split_and!; try done; lia. }
  destruct (Gateway.parsed_text env text) as [| |ds sm]; simpl.
  - split_and!; try done; lia.
  - split_and!; try done; lia.
  - split_and!; try done; try lia.
    unfold or_default. destruct sm as [t|]; [|done].
    by destruct (truthy t) eqn:Ht.
Qed.

(** *** A concrete SOP store *)

(** Time value of a text [YYYY-MM-DDTHH:mm:ss.sssZ], the form
    [toISOString] prints, with the hour below 24; other forms are not
    read here. *)
Definition parse_iso_instant (s : string) : option Z :=
  match list_ascii_of_string s with
  | [y1; y2; y3; y4; "-"; m1; m2; "-"; d1; d2; "T"; h1; h2; ":"; n1; n2;
     ":"; s1; s2; "."; f1; f2; f3; "Z"]%char =>
      match JsDate.parse_iso_date
              (string_of_list_ascii
                 [y1; y2; y3; y4; "-"; m1; m2; "-"; d1; d2]%char),
            JsDate.number_of 0 [h1; h2], JsDate.number_of 0 [n1; n2],
            JsDate.number_of 0 [s1; s2], JsDate.number_of 0 [f1; f2; f3] with
      | Some day, Some h, Some n, Some sec, Some ms =>
          if (h <=? 23) && (n <=? 59) && (sec <=? 59) then
            Some (day + h * 3600000 + n * 60000 + sec * 1000 + ms)
          else None
      | _, _, _, _, _ => None
      end
  | _ => None
  end.

Definition sop (i sid t : string) (c : Sops.Category) (uploaded : string)
    (rules : string) : Sops.SOP :=
  {| Sops.id := i; Sops.systemId := sid; Sops.title := t;
     Sops.version := "1.0"; Sops.category := c; Sops.fileName := "sop.pdf";
     Sops.uploadDate := uploaded; Sops.uploadedBy := "System Administrator";
     Sops.isActive := true;
     Sops.aiComplianceStatus := Some Sops.Compliant;
     Sops.aiAnalysisReport := Some "Rules extracted successfully.";
     Sops.extractedRules := Some rules |}.

Definition calc_2023 : Sops.SOP :=
  sop "1" "5" "Spreadsheet checks 2023" Sops.SpreadsheetValidation
      "2023-11-02T08:30:00.000Z" "No hardcoded constants".

Definition backup : Sops.SOP :=
  sop "2" "5" "Backup" Sops.Operation
      "2024-03-01T10:00:00.000Z" "Daily backup".

Definition calc_2024 : Sops.SOP :=
  sop "3" "5" "Spreadsheet checks 2024" Sops.SpreadsheetValidation
      "2024-02-05T16:45:10.250Z" "Conductivity < 1.3".

Definition sample_sops : Sops.Store :=
  Sops.saveSOP (Sops.saveSOP (Sops.saveSOP None calc_2023) backup) calc_2024.

Lemma sample_sops_valid : Sops.valid_dates parse_iso_instant sample_sops.
Proof. repeat constructor; by eexists. Qed.

Lemma active_sop_is_newest_witness :
  Sops.valid_dates parse_iso_instant sample_sops /\
  Sops.id <$> Sops.getSOPs parse_iso_instant sample_sops "5"
  = ["2"; "3"; "1"]%string /\
  activeSOP (Sops.getSOPs parse_iso_instant sample_sops "5")
  = Some calc_2024 /\
  Sops.time parse_iso_instant calc_2023
  <= Sops.time parse_iso_instant calc_2024.
Proof.
  split; [exact sample_sops_valid|]. split; [by vm_compute|].
  assert (E : activeSOP (Sops.getSOPs parse_iso_instant sample_sops "5")
              = Some calc_2024) by (by vm_compute).
  split; [exact E|].
  pose proof (active_sop_is_newest parse_iso_instant sample_sops "5"
                sample_sops_valid) as H.
  rewrite E in H. destruct H as (_ & _ & _ & H).
  apply H; [|done|by split].
  unfold Sops.stored, sample_sops, Sops.saveSOP. simpl.
  rewrite !elem_of_cons. by left.
Defined.

Lemma deleteSOP_removes_that_id_only_witness :
  Sops.valid_dates parse_iso_instant sample_sops /\
  Sops.getSOPs parse_iso_instant (Sops.deleteSOP sample_sops "3") "5"
  = filter (fun s => Sops.id s <> "3"%string)
           (Sops.getSOPs parse_iso_instant sample_sops "5") /\
  Sops.id <$> Sops.getSOPs parse_iso_instant
                (Sops.deleteSOP sample_sops "3") "5"
  = ["2"; "1"]%string.
Proof.
  split; [exact sample_sops_valid|]. split; [|by vm_compute].
  exact (proj1 (proj2 (Sops.deleteSOP_removes_that_id_only
                         parse_iso_instant sample_sops "3"))
               sample_sops_valid "5").
Defined.

Lemma saved_sop_is_listed_witness :
  Sops.valid_dates parse_iso_instant sample_sops /\
  calc_2024 ∈ Sops.getSOPs parse_iso_instant sample_sops "5" /\
  StronglySorted
    (fun a b => Sops.time parse_iso_instant b
                <= Sops.time parse_iso_instant a)
    (Sops.getSOPs parse_iso_instant sample_sops "5").
Proof.
  split; [exact sample_sops_valid|]. split.
  - exact (proj1 (Sops.saved_sop_is_listed parse_iso_instant
                    (Sops.saveSOP (Sops.saveSOP None calc_2023) backup)
                    calc_2024)).
  - exact (proj2 (proj2 (proj2 (Sops.saved_sop_is_listed parse_iso_instant
                                  sample_sops calc_2024))
                        sample_sops_valid "5")).
Defined.

Definition analyst : Auth.User :=
  {| Auth.id := "1700000000000"; Auth.name := "Sara";
     Auth.username := "sara"; Auth.role := Auth.OPERATOR;
     Auth.password := None;
     Auth.lastLogin := Some "2024-03-02T07:00:00.000Z" |}.

Lemma operator_session_keeps_sops_witness :
  Auth.role analyst = Auth.OPERATOR /\
  Sops.stored sample_sops
    `prefix_of` Sops.stored
                  (fold_left (sop_step analyst)
                             [Delete true "3"; Delete true "1"] sample_sops) /\
  fold_left (sop_step analyst) [Delete true "3"; Delete true "1"] sample_sops
  = sample_sops.
Proof.
  split; [reflexivity|]. split; [|reflexivity].
  exact (operator_session_keeps_sops analyst sample_sops
           [Delete true "3"; Delete true "1"] eq_refl).
Defined.

End Panel.

(** ** The inspection history ([storageService.filterInspections] and the
    history tab of [SystemList.tsx]) *)

Module History.
Import RecordStore.

Definition MAX_SAFE_INTEGER : Z := 9007199254740991.

(** [recordTime >= start && recordTime <= end]: a comparison with [NaN]
    is false. *)
Definition in_window (start end_ recordTime : option Z) : Prop :=
  match recordTime, start, end_ with
  | Some t, Some s, Some e => s <= t /\ t <= e
  | _, _, _ => False
  end.

#[global] Instance in_window_dec start end_ recordTime :
  Decision (in_window start end_ recordTime).
Proof.
  unfold in_window.
  destruct recordTime, start, end_; apply _.
Defined.

Section History.
(** [new Date(s).getTime()]; [None] is [NaN]. *)
Variable getTime : string -> option Z.

Definition start_bound (startDate : string) : option Z :=
  if truthy startDate then getTime startDate else Some 0.

Definition end_bound (endDate : string) : option Z :=
  if truthy endDate then getTime endDate else Some MAX_SAFE_INTEGER.

Definition filterInspections (st : Storage)
    (systemId startDate endDate : string) : list InspectionRecord :=
  let records := getInspections getTime st systemId in
  let start := start_bound startDate in
  let end_ := end_bound endDate in
  filter (fun r => in_window start end_ (getTime (date r))) records.

(** [loadInspections]; [dateFilter] is the pair of the two date inputs. *)
Definition loadInspections (st : Storage) (dateFilter : string * string)
    (sysId : string) : list InspectionRecord :=
  if truthy dateFilter.1 || truthy dateFilter.2 then
    filterInspections st sysId dateFilter.1 dateFilter.2
  else getInspections getTime st sysId.

(** The form state [newInspection], as far as it is read. *)
Record InspectionForm := {
  f_date : option string;
  f_inspectorName : option string;
  f_notes : option string;
  f_parameters : option (gmap string string)
}.

(** [handleSaveInspection]; [now] is the reading of [Date.now()] and
    [signatureData] the data URL of the signature canvas.  [None] is
    the alert that asks for date and inspector name. *)
Definition handleSaveInspection {Form : Type} (now : Z)
    (signatureData : option string) (sysId : string)
    (currentUser : Auth.User) (newInspection : InspectionForm)
    (st : Storage) (drafts : Drafts.Store (Form := Form))
  : option (Storage * Drafts.Store (Form := Form)) :=
  if negb (truthy_opt (f_inspectorName newInspection))
     || negb (truthy_opt (f_date newInspection))
  then None
  else
    let record :=
      {| id := pretty now;
         systemId := sysId;
         date := default "" (f_date newInspection);
         inspectorName := default "" (f_inspectorName newInspection);
         notes := or_default (f_notes newInspection) "";
         parameters := default ∅ (f_parameters newInspection);
         signature := signatureData |} in
    Some (saveInspection st record,
          Drafts.clearSpecificDraft drafts (Auth.id currentUser)
                                    "inspection_form").

(** *** Facts *)

Lemma StronglySorted_filter {A} (R : A -> A -> Prop) (P : A -> Prop)
    `{!forall x, Decision (P x)} (l : list A) :
  StronglySorted R l -> StronglySorted R (filter P l).
Proof.
  induction 1 as [|x l Hs IH Hx]; [constructor|].
  rewrite filter_cons. destruct (decide (P x)); [|done].
  constructor; [done|].
  rewrite Forall_forall in Hx |- *. intros y Hy.
  apply list_elem_of_filter in Hy as [_ Hy]. by apply Hx.
Qed.

(** X16. The date filter of the inspection history.
    [filterInspections] keeps, in the order of the listing, exactly the
    listed records whose date is a valid date inside the window, both
    ends included; an empty start date stands for the epoch and an
    empty end date for the largest safe integer.  So a record with an
    unparsable date is never shown under a filter, a bound that does
    not parse hides every record, and without a start date the records
    dated before 1970 are hidden.  [loadInspections] applies the filter
    as soon as one of the two dates is set and lists everything
    otherwise. *)
Theorem date_filter_keeps_the_window (st : Storage)
    (sysId startDate endDate : string) :
  let shown := filterInspections st sysId startDate endDate in
  shown `sublist_of` getInspections getTime st sysId /\
  (forall r, r ∈ shown <->
     r ∈ getInspections getTime st sysId /\
     exists t s e, getTime (date r) = Some t /\
       start_bound startDate = Some s /\ end_bound endDate = Some e /\
       s <= t <= e) /\
  (start_bound startDate = None \/ end_bound endDate = None -> shown = []) /\
  (startDate = ""%string ->
     Forall (fun r => exists t, getTime (date r) = Some t /\ 0 <= t) shown) /\
  (Forall (fun r => is_Some (getTime (date r))) (stored st) ->
     StronglySorted (not_older getTime) shown) /\
  loadInspections st (startDate, endDate) sysId
  = (if truthy startDate || truthy endDate then shown
     else getInspections getTime st sysId).
Proof.
  intros shown.
  assert (Hmem : forall r, r ∈ shown <->
     r ∈ getInspections getTime st sysId /\
     exists t s e, getTime (date r) = Some t /\
       start_bound startDate = Some s /\ end_bound endDate = Some e /\
       s <= t <= e).
  { intros r. subst shown. unfold filterInspections.
    rewrite list_elem_of_filter. unfold in_window. split.
    - intros [Hw Hr]. split; [done|].
      destruct (getTime (date r)) as [t|]; [|done].
      destruct (start_bound startDate) as [s|]; [|done].
      destruct (end_bound endDate) as [e|]; [|done].
      by exists t, s, e.
    - intros [Hr (t & s & e & -> & -> & -> & Hw)]. split; [lia|done]. }
  split_and!.
  - apply sublist_filter.
  - exact Hmem.
  - intros Hb. destruct shown as [|r l]; [done|].
    assert (Hr : r ∈ r :: l) by left.
    apply Hmem in Hr as (_ & t & s & e & _ & Hs & He & _).
    destruct Hb; congruence.
  - intros ->. apply Forall_forall. intros r Hr.
    apply Hmem in Hr as (_ & t & s & e & Ht & Hs & _ & Hw).
    unfold start_bound in Hs. simpl in Hs. injection Hs as <-.
    exists t. split; [done|lia].
  - intros Hv. apply StronglySorted_filter.
    by apply getInspections_sorted.
  - done.
Qed.

(** X17. Saving an inspection.  [handleSaveInspection] alerts and
    writes nothing unless the form has an inspector name and a date.
    Otherwise one record is appended, listed for the asset, with the
    date and name of the form, an absent note as the empty text and
    absent parameters as the empty object; the report slot is left
    alone and, of the drafts, only the current user's inspection form
    is removed. *)
Theorem saved_inspection_is_listed {Form : Type} (now : Z)
    (signatureData : option string) (sysId : string)
    (currentUser : Auth.User) (newInspection : InspectionForm)
    (st : Storage) (drafts : Drafts.Store (Form := Form)) :
  let out := handleSaveInspection now signatureData sysId currentUser
               newInspection st drafts in
  (out = None <->
     truthy_opt (f_inspectorName newInspection) = false \/
     truthy_opt (f_date newInspection) = false) /\
  (forall st' drafts', out = Some (st', drafts') ->
     exists record,
       stored st' = stored st ++ [record] /\
       record ∈ getInspections getTime st' sysId /\
       Some (date record) = f_date newInspection /\
       Some (inspectorName record) = f_inspectorName newInspection /\
       notes record = or_default (f_notes newInspection) "" /\
       parameters record = default ∅ (f_parameters newInspection) /\
       id record = pretty now /\
       EXCEL_REPORTS st' = EXCEL_REPORTS st /\
       (forall u k,
          Autosave.getUserDraft drafts' u k
          = if decide (u = Auth.id currentUser
                       /\ k = "inspection_form"%string)
            then None else Autosave.getUserDraft drafts u k)).
Proof.
  intros out. subst out. unfold handleSaveInspection.
  destruct (f_inspectorName newInspection) as [n|] eqn:En; simpl;
    [|split; [by split; [left|]|done]].
  destruct (f_date newInspection) as [d|] eqn:Ed; simpl;
    [|rewrite orb_true_r; split; [by split; [right|]|done]].
  destruct (truthy n) eqn:Hn; simpl; [|split; [by split; [left|]|done]].
  destruct (truthy d) eqn:Hd; simpl; [|split; [by split; [right|]|done]].
  split; [split; [done|by intros [|]]|].
  intros st' drafts' [= <- <-]. eexists. split; [reflexivity|].
  split_and!; try done.
  - rewrite getInspections_perm. apply list_elem_of_filter. split; [done|].
    unfold stored, saveInspection. simpl. apply elem_of_app. right. left.
  - intros u k. apply Drafts.getUserDraft_clearSpecificDraft.
Qed.

End History.

Lemma date_filter_keeps_the_window_witness :
  let shown := filterInspections JsDate.parse_iso_date sample_store
                 "1" "2024-01-01" "" in
  Forall (fun r => is_Some (JsDate.parse_iso_date (date r)))
         (stored sample_store) /\
  id <$> shown = ["c"; "a"]%string /\
  StronglySorted (not_older JsDate.parse_iso_date) shown.
Proof.
  intros shown.
  assert (Hv : Forall (fun r => is_Some (JsDate.parse_iso_date (date r)))
                      (stored sample_store)).
  { repeat constructor; by eexists. }
  split; [exact Hv|]. split; [by vm_compute|].
  destruct (date_filter_keeps_the_window JsDate.parse_iso_date sample_store
              "1" "2024-01-01" "") as (_ & _ & _ & _ & H & _).
  by apply H.
Defined.

End History.

(** ** The dashboard figures and the drill-down ([Dashboard.tsx], the
    filter effect of [SystemList.tsx], [App.handleDrillDown])

    Enumeration members are compared by their string values, which is
    how the drill-down filters meet the assets. *)

Module Dashboard.
Import Assets.

Definition status_value (s : ComplianceStatus) : string :=
  match s with
  | COMPLIANT => "Compliant"
  | IN_PROGRESS => "In Progress"
  | DEVIATION => "Deviation/Non-Compliant"
  | NOT_STARTED => "Not Started"
  end.

Definition risk_value (r : RiskLevel) : string :=
  match r with High => "High" | Medium => "Medium" | Low => "Low" end.

#[global] Instance status_eq_dec : EqDecision ComplianceStatus.
Proof. solve_decision. Defined.

#[global] Instance risk_eq_dec : EqDecision RiskLevel.
Proof. solve_decision. Defined.

#[global] Instance type_eq_dec : EqDecision SystemType.
Proof. solve_decision. Defined.

(** *** The figures of [Dashboard] *)

Definition totalSystems (systems : list PharmaSystem) : nat :=
  length systems.

Definition compliantCount (systems : list PharmaSystem) : nat :=
  length (filter (fun s => status s = COMPLIANT) systems).

Definition deviationCount (systems : list PharmaSystem) : Z :=
  fold_left (fun acc curr => acc + deviationsCount curr) systems 0.

(** [Math.round(a / b)] for integers [a] and [b > 0]: the quotient
    rounded to the nearest integer, a half upwards.  (The division is
    a floating-point one; for integers of the size of a progress sum
    it lies on the same side of every half-integer as the exact
    quotient.) *)
Definition round_div (a b : Z) : Z := (2 * a + b) / (2 * b).

Definition avgProgress (systems : list PharmaSystem) : Z :=
  if (0 <? totalSystems systems)%nat then
    round_div (fold_left (fun acc curr => acc + progress curr) systems 0)
              (Z.of_nat (totalSystems systems))
  else 0.

(** An entry of a pie chart: [name] and [value] (the colours of the
    risk entries play no part here). *)
Record Slice := { slice_name : string; slice_value : nat }.

Definition count_status (systems : list PharmaSystem)
    (s : ComplianceStatus) : nat :=
  length (filter (fun x => status x = s) systems).

Definition count_risk (systems : list PharmaSystem) (r : RiskLevel) : nat :=
  length (filter (fun x => riskLevel x = r) systems).

Definition statusData (systems : list PharmaSystem) : list Slice :=
  filter (fun d => (0 < slice_value d)%nat)
    [ {| slice_name := "Compliant";
         slice_value := count_status systems COMPLIANT |};
      {| slice_name := "In Progress";
         slice_value := count_status systems IN_PROGRESS |};
      {| slice_name := "Deviation";
         slice_value := count_status systems DEVIATION |};
      {| slice_name := "Not Started";
         slice_value := count_status systems NOT_STARTED |} ].

Definition riskData (systems : list PharmaSystem) : list Slice :=
  filter (fun d => (0 < slice_value d)%nat)
    [ {| slice_name := "High"; slice_value := count_risk systems High |};
      {| slice_name := "Medium"; slice_value := count_risk systems Medium |};
      {| slice_name := "Low"; slice_value := count_risk systems Low |} ].

(** The groups built by the [reduce] over an object keyed by type; the
    values of that object come out in the order in which the keys were
    first written. *)
Record Group := {
  g_type : SystemType;
  g_count : Z;
  g_progressSum : Z
}.

Fixpoint add_to_group (curr : PharmaSystem) (acc : list Group)
  : list Group :=
  match acc with
  | [] =>
      [ {| g_type := type curr; g_count := 0 + 1;
           g_progressSum := 0 + progress curr |} ]
  | g :: acc' =>
      if decide (g_type g = type curr) then
        {| g_type := g_type g; g_count := g_count g + 1;
           g_progressSum := g_progressSum g + progress curr |} :: acc'
      else g :: add_to_group curr acc'
  end.

Definition typeGroups (systems : list PharmaSystem) : list Group :=
  fold_left (fun acc curr => add_to_group curr acc) systems [].

(** [s.split(' ')[0]] *)
Fixpoint first_word (s : string) : string :=
  match s with
  | EmptyString => ""
  | String a s' => if Ascii.eqb a " " then "" else String a (first_word s')
  end.

Record Bar := {
  bar_name : string;
  bar_avgProgress : Z;
  bar_count : Z;
  bar_fullType : string
}.

Definition barData (systems : list PharmaSystem) : list Bar :=
  (fun g =>
     {| bar_name := first_word (Advisor.type_value (g_type g));
        bar_avgProgress := round_div (g_progressSum g) (g_count g);
        bar_count := g_count g;
        bar_fullType := Advisor.type_value (g_type g) |})
  <$> typeGroups systems.

Record TrendPoint := { trend_name : string; Trend : Z; Baseline : Z }.

Definition trendData (systems : list PharmaSystem) : list TrendPoint :=
  (fun d =>
     {| trend_name := bar_name d; Trend := bar_avgProgress d;
        Baseline := Z.max 0 (bar_avgProgress d - 15) |})
  <$> barData systems.

(** *** The drill-down *)

(** [activeFilters], as [handleDrillDown(type, status, risk)] sets it. *)
Record Filters := {
  f_type : option string;
  f_status : option string;
  f_risk : option string
}.

Definition handleDrillDown (type status risk : option string) : Filters :=
  {| f_type := type; f_status := status; f_risk := risk |}.

(** One step of the filter effect: [if (f) result = result.filter(...)]. *)
Definition narrow (f : option string) (field : PharmaSystem -> string)
    (result : list PharmaSystem) : list PharmaSystem :=
  if truthy_opt f then filter (fun s => Some (field s) = f) result
  else result.

(** [filteredSystems] after the filter effect of [SystemList]. *)
Definition filteredSystems (systems : list PharmaSystem)
    (initialFilters : option Filters) : list PharmaSystem :=
  let result := systems in
  let result :=
    narrow (initialFilters ≫= f_type)
           (fun s => Advisor.type_value (type s)) result in
  let result :=
    narrow (initialFilters ≫= f_status)
           (fun s => status_value (status s)) result in
  narrow (initialFilters ≫= f_risk)
         (fun s => risk_value (riskLevel s)) result.

(** The systems shown after a click on a status slice, a risk slice, a
    bar, or one of the three figures that drill down by status. *)
Definition after_status (systems : list PharmaSystem) (name : string)
  : list PharmaSystem :=
  filteredSystems systems (Some (handleDrillDown None (Some name) None)).

Definition after_risk (systems : list PharmaSystem) (name : string)
  : list PharmaSystem :=
  filteredSystems systems (Some (handleDrillDown None None (Some name))).

Definition after_type (systems : list PharmaSystem) (fullType : string)
  : list PharmaSystem :=
  filteredSystems systems (Some (handleDrillDown (Some fullType) None None)).

(** *** Facts *)

Lemma status_value_inj a b : status_value a = status_value b -> a = b.
Proof. by destruct a, b. Qed.

Lemma risk_value_inj a b : risk_value a = risk_value b -> a = b.
Proof. by destruct a, b. Qed.

Lemma type_value_inj a b :
  Advisor.type_value a = Advisor.type_value b -> a = b.
Proof. by destruct a, b. Qed.

Lemma status_partition (systems : list PharmaSystem) :
  (count_status systems COMPLIANT + count_status systems IN_PROGRESS
   + count_status systems DEVIATION + count_status systems NOT_STARTED
   = length systems)%nat.
Proof.
  unfold count_status. induction systems as [|x l IH]; [done|].
  rewrite !filter_cons. simpl.
  destruct (status x); simpl;
    repeat (rewrite decide_True by done || rewrite decide_False by done);
    simpl; lia.
Qed.

Lemma risk_partition (systems : list PharmaSystem) :
  (count_risk systems High + count_risk systems Medium
   + count_risk systems Low = length systems)%nat.
Proof.
  unfold count_risk. induction systems as [|x l IH]; [done|].
  rewrite !filter_cons. simpl.
  destruct (riskLevel x); simpl;
    repeat (rewrite decide_True by done || rewrite decide_False by done);
    simpl; lia.
Qed.

Lemma sum_positive_slices (l : list Slice) :
  sum_list (slice_value <$> filter (fun d => (0 < slice_value d)%nat) l)
  = sum_list (slice_value <$> l).
Proof.
  induction l as [|d l IH]; [done|].
  rewrite filter_cons. destruct (decide _) as [Hp|Hn]; csimpl.
  - by rewrite IH.
  - rewrite IH. lia.
Qed.

(** X18. The two pie charts account for every asset exactly once: the
    values of the status slices add up to the number of assets, and so
    do the values of the risk slices; a slice that is shown has a
    positive value; and the figure behind "Overall Compliance" is the
    value of the [Compliant] slice. *)
Theorem slices_cover_every_system (systems : list PharmaSystem) :
  sum_list (slice_value <$> statusData systems) = totalSystems systems /\
  sum_list (slice_value <$> riskData systems) = totalSystems systems /\
  Forall (fun d => (0 < slice_value d)%nat)
         (statusData systems ++ riskData systems) /\
  (forall d, d ∈ statusData systems -> slice_name d = "Compliant"%string ->
             slice_value d = compliantCount systems).
Proof.
  unfold statusData, riskData, totalSystems. split_and!.
  - rewrite sum_positive_slices. simpl.
    pose proof (status_partition systems). lia.
  - rewrite sum_positive_slices. simpl.
    pose proof (risk_partition systems). lia.
  - apply Forall_app. split; apply Forall_forall; intros d Hd;
      by apply list_elem_of_filter in Hd as [? _].
  - intros d Hd Hn. apply list_elem_of_filter in Hd as [_ Hd].
    rewrite !elem_of_cons, elem_of_nil in Hd.
    destruct Hd as [->|[->|[->|[->|[]]]]]; by simpl in Hn.
Qed.

Lemma narrow_none field l : narrow None field l = l.
Proof. done. Qed.

Lemma after_status_filter systems name :
  truthy name = true ->
  after_status systems name
  = filter (fun s => status_value (status s) = name) systems.
Proof.
  intros Hn. unfold after_status, filteredSystems, narrow. simpl.
  rewrite Hn. apply list_filter_iff. intros s. split; congruence.
Qed.

Lemma after_risk_filter systems name :
  truthy name = true ->
  after_risk systems name
  = filter (fun s => risk_value (riskLevel s) = name) systems.
Proof.
  intros Hn. unfold after_risk, filteredSystems, narrow. simpl.
  rewrite Hn. apply list_filter_iff. intros s. split; congruence.
Qed.

Lemma after_type_filter systems name :
  truthy name = true ->
  after_type systems name
  = filter (fun s => Advisor.type_value (type s) = name) systems.
Proof.
  intros Hn. unfold after_type, filteredSystems, narrow. simpl.
  rewrite Hn. apply list_filter_iff. intros s. split; congruence.
Qed.

Lemma after_status_count systems s :
  length (after_status systems (status_value s)) = count_status systems s.
Proof.
  rewrite after_status_filter by (by destruct s).
  unfold count_status. f_equal. apply list_filter_iff. intros x. split.
  - apply status_value_inj.
  - by intros ->.
Qed.

(** X19. Drilling down from the status chart.  A click on a slice
    filters the asset list by the name of the slice.  For the slices
    [Compliant], [In Progress] and [Not Started] the list then shows as
    many assets as the slice counts.  The slice [Deviation] is named
    differently from the status it counts ([Deviation/Non-Compliant]):
    whenever that slice is shown, the list it leads to is empty.  The
    figures that drill down with the status itself lead to as many
    assets as have that status. *)
Theorem status_slice_drilldown (systems : list PharmaSystem) :
  (forall d, d ∈ statusData systems ->
     if decide (slice_name d = "Deviation"%string)
     then after_status systems (slice_name d) = [] /\
          (0 < slice_value d)%nat
     else length (after_status systems (slice_name d)) = slice_value d) /\
  (forall s, length (after_status systems (status_value s))
             = count_status systems s).
Proof.
  split; [|apply after_status_count].
  intros d Hd. unfold statusData in Hd.
  apply list_elem_of_filter in Hd as [Hpos Hd].
  rewrite !elem_of_cons, elem_of_nil in Hd.
  destruct Hd as [->|[->|[->|[->|[]]]]]; simpl in *.
  - apply (after_status_count systems COMPLIANT).
  - apply (after_status_count systems IN_PROGRESS).
  - split; [|done]. rewrite after_status_filter by done.
    clear Hpos. induction systems as [|x l IH]; [done|].
    rewrite filter_cons, decide_False; [|by destruct (status x)].
    apply IH.
  - apply (after_status_count systems NOT_STARTED).
Qed.

(** *** The groups by type *)

Definition count_type (systems : list PharmaSystem) (t : SystemType) : nat :=
  length (filter (fun x => type x = t) systems).

(** The progress values of a list of assets, added up. *)
Fixpoint total_progress (systems : list PharmaSystem) : Z :=
  match systems with
  | [] => 0
  | s :: systems' => progress s + total_progress systems'
  end.

(** What the groups of a type hold together. *)
Fixpoint count_in (t : SystemType) (acc : list Group) : Z :=
  match acc with
  | [] => 0
  | g :: acc' =>
      (if decide (g_type g = t) then g_count g else 0) + count_in t acc'
  end.

Fixpoint sum_in (t : SystemType) (acc : list Group) : Z :=
  match acc with
  | [] => 0
  | g :: acc' =>
      (if decide (g_type g = t) then g_progressSum g else 0) + sum_in t acc'
  end.

Lemma fold_progress (systems : list PharmaSystem) (a : Z) :
  fold_left (fun acc curr => acc + progress curr) systems a
  = a + total_progress systems.
Proof.
  revert a. induction systems as [|s l IH]; intros a; simpl; [lia|].
  rewrite IH. lia.
Qed.

Lemma count_in_add curr acc t :
  count_in t (add_to_group curr acc)
  = count_in t acc + (if decide (type curr = t) then 1 else 0).
Proof.
  induction acc as [|g acc IH]; simpl.
  - destruct (decide (type curr = t)); lia.
  - destruct (decide (g_type g = type curr)) as [E|E]; simpl.
    + destruct (decide (g_type g = t)), (decide (type curr = t));
        try congruence; lia.
    + rewrite IH. lia.
Qed.

Lemma sum_in_add curr acc t :
  sum_in t (add_to_group curr acc)
  = sum_in t acc + (if decide (type curr = t) then progress curr else 0).
Proof.
  induction acc as [|g acc IH]; simpl.
  - destruct (decide (type curr = t)); lia.
  - destruct (decide (g_type g = type curr)) as [E|E]; simpl.
    + destruct (decide (g_type g = t)), (decide (type curr = t));
        try congruence; lia.
    + rewrite IH. lia.
Qed.

Lemma types_add curr acc :
  g_type <$> add_to_group curr acc
  = if decide (type curr ∈ g_type <$> acc) then g_type <$> acc
    else (g_type <$> acc) ++ [type curr].
Proof.
  induction acc as [|g acc IH]; cbn [add_to_group].
  - rewrite decide_False; [done|]. by intros ?%elem_of_nil.
  - destruct (decide (g_type g = type curr)) as [E|E]; rewrite !fmap_cons.
    + rewrite decide_True; [done|]. cbn [g_type]. rewrite E. left.
    + rewrite IH. destruct (decide (type curr ∈ g_type <$> acc)) as [H|H].
      * rewrite decide_True; [done|]. by right.
      * rewrite decide_False; [done|].
        rewrite elem_of_cons. intros [?|?]; [congruence|done].
Qed.

Lemma types_add_NoDup curr acc :
  NoDup (g_type <$> acc) -> NoDup (g_type <$> add_to_group curr acc).
Proof.
  intros Hn. rewrite types_add. destruct (decide _) as [H|H]; [done|].
  apply NoDup_app. split_and!; [done| |apply NoDup_singleton].
  intros t Ht Ht'. apply list_elem_of_singleton in Ht'. by subst t.
Qed.

Lemma types_add_mono curr acc t :
  t ∈ g_type <$> acc -> t ∈ g_type <$> add_to_group curr acc.
Proof.
  intros Ht. rewrite types_add. destruct (decide _); [done|].
  apply elem_of_app. by left.
Qed.

Lemma types_add_new curr acc : type curr ∈ g_type <$> add_to_group curr acc.
Proof.
  rewrite types_add. destruct (decide _); [done|].
  apply elem_of_app. right. left.
Qed.

Lemma fold_groups (systems : list PharmaSystem) : forall acc,
  let groups := fold_left (fun acc curr => add_to_group curr acc)
                          systems acc in
  (NoDup (g_type <$> acc) -> NoDup (g_type <$> groups)) /\
  (forall t, count_in t groups
             = count_in t acc + Z.of_nat (count_type systems t)) /\
  (forall t, sum_in t groups
             = sum_in t acc
               + total_progress (filter (fun x => type x = t) systems)) /\
  (forall t, t ∈ g_type <$> acc -> t ∈ g_type <$> groups) /\
  (forall s, s ∈ systems -> type s ∈ g_type <$> groups).
Proof.
  induction systems as [|curr l IH]; intros acc; simpl.
  - split_and!; try done.
    + intros t. unfold count_type. simpl. lia.
    + intros t. lia.
    + by intros s ?%elem_of_nil.
  - destruct (IH (add_to_group curr acc)) as (H1 & H2 & H3 & H4 & H5).
    split_and!.
    + intros Hn. by apply H1, types_add_NoDup.
    + intros t. rewrite H2, count_in_add. unfold count_type.
      rewrite filter_cons. destruct (decide (type curr = t)); simpl; lia.
    + intros t. rewrite H3, sum_in_add.
      rewrite filter_cons. destruct (decide (type curr = t)); simpl; lia.
    + intros t Ht. by apply H4, types_add_mono.
    + intros s Hs. apply elem_of_cons in Hs as [->|Hs]; [|by apply H5].
      apply H4, types_add_new.
Qed.

Lemma count_in_unique (acc : list Group) (g : Group) :
  NoDup (g_type <$> acc) -> g ∈ acc ->
  count_in (g_type g) acc = g_count g /\
  sum_in (g_type g) acc = g_progressSum g.
Proof.
  induction acc as [|h acc IH]; intros Hn Hg; [by apply elem_of_nil in Hg|].
  simpl in Hn. apply NoDup_cons in Hn as [Hh Hn].
  assert (Hz : forall t, t ∉ g_type <$> acc ->
                 count_in t acc = 0 /\ sum_in t acc = 0).
  { clear. induction acc as [|k acc IH]; intros t Ht; [done|].
    simpl in *. rewrite not_elem_of_cons in Ht. destruct Ht as [Hk Ht].
    rewrite !decide_False by congruence.
    destruct (IH t Ht) as [-> ->]. done. }
  apply elem_of_cons in Hg as [->|Hg]; simpl.
  - rewrite !decide_True by done. destruct (Hz _ Hh) as [-> ->]. lia.
  - assert (Hne : g_type h <> g_type g).
    { intros E. apply Hh. rewrite E. by apply list_elem_of_fmap_2. }
    rewrite !decide_False by done.
    destruct (IH Hn Hg) as [-> ->]. lia.
Qed.

Lemma group_of_type (systems : list PharmaSystem) (g : Group) :
  g ∈ typeGroups systems ->
  g_count g = Z.of_nat (count_type systems (g_type g)) /\
  g_progressSum g
  = total_progress (filter (fun x => type x = g_type g) systems).
Proof.
  intros Hg. destruct (fold_groups systems []) as (H1 & H2 & H3 & _).
  fold (typeGroups systems) in H1, H2, H3.
  destruct (count_in_unique (typeGroups systems) g) as [Hc Hs];
    [apply H1; constructor|done|].
  rewrite <- Hc, <- Hs, H2, H3. simpl. lia.
Qed.

Lemma group_nonempty (systems : list PharmaSystem) (g : Group) :
  g ∈ typeGroups systems -> 0 < g_count g.
Proof.
  intros Hg.
  assert (Hinv : forall l acc,
            Forall (fun g => 0 < g_count g) acc ->
            Forall (fun g => 0 < g_count g)
                   (fold_left (fun acc curr => add_to_group curr acc) l acc)).
  { clear. induction l as [|curr l IH]; intros acc Ha; [done|].
    simpl. apply IH. clear IH.
    induction Ha as [|g acc Hg Ha IH]; simpl.
    - repeat constructor.
    - destruct (decide _); constructor; simpl; try done. lia. }
  specialize (Hinv systems [] ltac:(constructor)).
  rewrite Forall_forall in Hinv. by apply Hinv.
Qed.

(** X20. The bars and the drill-down by type and by risk.  The groups
    behind the bar chart have pairwise distinct types, one for every
    type that occurs; a group counts the assets of its type (at least
    one, so its average never divides by zero) and adds up their
    progress.  A click on a bar, or on a risk slice, leads to a list
    with exactly as many assets as the bar or the slice counts. *)
Theorem bars_and_risk_slices_match_the_list (systems : list PharmaSystem) :
  NoDup (g_type <$> typeGroups systems) /\
  (forall s, s ∈ systems -> type s ∈ g_type <$> typeGroups systems) /\
  (forall g, g ∈ typeGroups systems ->
     0 < g_count g /\
     g_count g = Z.of_nat (count_type systems (g_type g)) /\
     g_progressSum g
     = total_progress (filter (fun x => type x = g_type g) systems)) /\
  (forall b, b ∈ barData systems ->
     Z.of_nat (length (after_type systems (bar_fullType b))) = bar_count b) /\
  (forall d, d ∈ riskData systems ->
     length (after_risk systems (slice_name d)) = slice_value d).
Proof.
  destruct (fold_groups systems []) as (H1 & _ & _ & _ & H5).
  fold (typeGroups systems) in H1, H5.
  split_and!.
  - apply H1. constructor.
  - exact H5.
  - intros g Hg. split; [by eapply group_nonempty|].
    by apply group_of_type.
  - intros b Hb. unfold barData in Hb.
    apply list_elem_of_fmap in Hb as (g & -> & Hg). simpl.
    destruct (group_of_type systems g Hg) as [-> _].
    rewrite after_type_filter by (by destruct (g_type g)).
    unfold count_type. do 2 f_equal. apply list_filter_iff. intros x. split.
    + apply type_value_inj.
    + by intros ->.
  - intros d Hd. unfold riskData in Hd.
    apply list_elem_of_filter in Hd as [_ Hd].
    rewrite !elem_of_cons, elem_of_nil in Hd.
    assert (Hr : forall r, length (after_risk systems (risk_value r))
                           = count_risk systems r).
    { intros r. rewrite after_risk_filter by (by destruct r).
      unfold count_risk. f_equal. apply list_filter_iff. intros x. split.
      - apply risk_value_inj.
      - by intros ->. }
    destruct Hd as [->|[->|[->|[]]]]; simpl.
    + apply (Hr High).
    + apply (Hr Medium).
    + apply (Hr Low).
Qed.

Lemma round_div_bounds (a b lo hi : Z) :
  0 < b -> lo * b <= a <= hi * b -> lo <= round_div a b <= hi.
Proof.
  intros Hb Ha. unfold round_div. split.
  - apply Z.div_le_lower_bound; nia.
  - apply Z.lt_succ_r. apply Z.div_lt_upper_bound; nia.
Qed.

Lemma total_progress_bounds (l : list PharmaSystem) (lo hi : Z) :
  Forall (fun s => lo <= progress s <= hi) l ->
  lo * Z.of_nat (length l) <= total_progress l <= hi * Z.of_nat (length l).
Proof.
  induction 1 as [|s l Hs _ IH]; simpl length; simpl total_progress; lia.
Qed.

(** X21. The averages stay within the data.  When every asset has its
    progress between [lo] and [hi], so has the average shown in "Avg
    Validation %" (for a list that is not empty; it is 0 for the empty
    list), so has the average of every bar, and the baseline of the
    trend chart lies between 0 and the trend value whenever [lo] is not
    negative. *)
Theorem averages_stay_within_the_data (systems : list PharmaSystem)
    (lo hi : Z) :
  Forall (fun s => lo <= progress s <= hi) systems ->
  (systems <> [] -> lo <= avgProgress systems <= hi) /\
  avgProgress [] = 0 /\
  Forall (fun b => lo <= bar_avgProgress b <= hi) (barData systems) /\
  (0 <= lo ->
   Forall (fun p => 0 <= Baseline p <= Trend p) (trendData systems)).
Proof.
  intros Hall.
  assert (Hbars : Forall (fun b => lo <= bar_avgProgress b <= hi)
                         (barData systems)).
  { apply Forall_forall. intros b Hb. unfold barData in Hb.
    apply list_elem_of_fmap in Hb as (g & -> & Hg). simpl.
    pose proof (group_nonempty systems g Hg) as Hpos.
    destruct (group_of_type systems g Hg) as [Hc Hs].
    apply round_div_bounds; [done|]. rewrite Hs, Hc.
    apply total_progress_bounds.
    rewrite Forall_forall in Hall |- *. intros x Hx.
    apply list_elem_of_filter in Hx as [_ Hx]. by apply Hall. }
  split_and!.
  - intros Hne. unfold avgProgress, totalSystems.
    destruct systems as [|s l]; [done|].
    replace (0 <? length (s :: l))%nat with true
      by (symmetry; apply Nat.ltb_lt; simpl; lia).
    rewrite fold_progress, Z.add_0_l.
    apply round_div_bounds; [simpl length; lia|].
    by apply total_progress_bounds.
  - done.
  - exact Hbars.
  - intros Hlo. unfold trendData. apply Forall_fmap.
    eapply Forall_impl; [exact Hbars|]. simpl. intros b Hb. lia.
Qed.

Lemma averages_stay_within_the_data_witness :
  Forall (fun s => 0 <= progress s <= 100) INITIAL_SYSTEMS /\
  avgProgress INITIAL_SYSTEMS = 67 /\
  0 <= avgProgress INITIAL_SYSTEMS <= 100 /\
  bar_avgProgress <$> barData INITIAL_SYSTEMS = [65; 100; 30; 45; 95].
Proof.
  assert (H : Forall (fun s => 0 <= progress s <= 100) INITIAL_SYSTEMS).
  { repeat constructor; simpl; lia. }
  split; [exact H|]. split; [reflexivity|]. split; [|reflexivity].
  apply (averages_stay_within_the_data INITIAL_SYSTEMS 0 100 H).
  discriminate.
Defined.

End Dashboard.

(** ** The application shell ([App.tsx]) and the forms that write
    accounts and assets ([Login.tsx], [UserManagement.tsx],
    [ChangePasswordModal.tsx], [SystemForm.tsx])

    The state of [App] and the localStorage slots it reaches make up a
    [World].  An event is a handler run; it is enabled when the element
    that triggers it is rendered in the current state. *)

Module Shell.

Inductive Tab := TabDashboard | TabSystems | TabUsers.

#[global] Instance tab_eq_dec : EqDecision Tab.
Proof. solve_decision. Defined.

#[global] Instance role_eq_dec : EqDecision Auth.UserRole.
Proof. solve_decision. Defined.

Record AppState := {
  currentUser : option Auth.User;
  activeTab : Tab;
  systems : list Assets.PharmaSystem;
  isAdding : bool;
  isChangePasswordOpen : bool;
  isLogoutConfirmOpen : bool;
  isAuthChecking : bool;
  darkMode : bool;
  activeFilters : Dashboard.Filters
}.

(** [setActiveFilters({})] *)
Definition no_filters : Dashboard.Filters :=
  Dashboard.handleDrillDown None None None.

Definition initial_state : AppState :=
  {| currentUser := None; activeTab := TabDashboard;
     systems := Assets.INITIAL_SYSTEMS; isAdding := false;
     isChangePasswordOpen := false; isLogoutConfirmOpen := false;
     isAuthChecking := true; darkMode := false;
     activeFilters := no_filters |}.

Section Shell.
Context {Form : Type}.

Record World := {
  app : AppState;
  auth : Auth.Storage;
  drafts : Drafts.Store (Form := Form);
  theme : option string          (* the [mdpc_theme] slot *)
}.

Definition set_app (w : World) (a : AppState) : World :=
  {| app := a; auth := auth w; drafts := drafts w; theme := theme w |}.

(** The effect that runs once on load. *)
Definition on_load (w : World) : World :=
  let a := app w in
  let user := Auth.getCurrentUser (auth w) in
  set_app w
    {| currentUser := match user with Some u => Some u
                      | None => currentUser a end;
       activeTab := activeTab a; systems := systems a;
       isAdding := isAdding a;
       isChangePasswordOpen := isChangePasswordOpen a;
       isLogoutConfirmOpen := isLogoutConfirmOpen a;
       isAuthChecking := false;
       darkMode := bool_decide (theme w = Some "dark"%string);
       activeFilters := activeFilters a |}.

Definition toggleTheme (w : World) : World :=
  let a := app w in
  let newMode := negb (darkMode a) in
  {| app := {| currentUser := currentUser a; activeTab := activeTab a;
               systems := systems a; isAdding := isAdding a;
               isChangePasswordOpen := isChangePasswordOpen a;
               isLogoutConfirmOpen := isLogoutConfirmOpen a;
               isAuthChecking := isAuthChecking a;
               darkMode := newMode;
               activeFilters := activeFilters a |};
     auth := auth w; drafts := drafts w;
     theme := Some (if newMode then "dark" else "light")%string |}.

Definition handleLogin (user : Auth.User) (a : AppState) : AppState :=
  {| currentUser := Some user; activeTab := TabDashboard;
     systems := systems a; isAdding := isAdding a;
     isChangePasswordOpen := isChangePasswordOpen a;
     isLogoutConfirmOpen := isLogoutConfirmOpen a;
     isAuthChecking := isAuthChecking a; darkMode := darkMode a;
     activeFilters := activeFilters a |}.

(** [Login.handleSubmit]: the login of the service, then [handleLogin]
    on success. *)
Definition login_submit (now : Z) (username password : string) (w : World)
  : World :=
  let out := Auth.login now (auth w) username password in
  {| app := match out.1 with
            | Some user => handleLogin user (app w)
            | None => app w
            end;
     auth := out.2; drafts := drafts w; theme := theme w |}.

Definition set_logout_dialog (b : bool) (a : AppState) : AppState :=
  {| currentUser := currentUser a; activeTab := activeTab a;
     systems := systems a; isAdding := isAdding a;
     isChangePasswordOpen := isChangePasswordOpen a;
     isLogoutConfirmOpen := b;
     isAuthChecking := isAuthChecking a; darkMode := darkMode a;
     activeFilters := activeFilters a |}.

Definition set_settings_dialog (b : bool) (a : AppState) : AppState :=
  {| currentUser := currentUser a; activeTab := activeTab a;
     systems := systems a; isAdding := isAdding a;
     isChangePasswordOpen := b;
     isLogoutConfirmOpen := isLogoutConfirmOpen a;
     isAuthChecking := isAuthChecking a; darkMode := darkMode a;
     activeFilters := activeFilters a |}.

(** [confirmLogout(saveChanges)] *)
Definition confirmLogout (saveChanges : bool) (w : World) : World :=
  let a := app w in
  {| app := {| currentUser := None; activeTab := activeTab a;
               systems := systems a; isAdding := isAdding a;
               isChangePasswordOpen := isChangePasswordOpen a;
               isLogoutConfirmOpen := false;
               isAuthChecking := isAuthChecking a; darkMode := darkMode a;
               activeFilters := activeFilters a |};
     auth := Auth.logout (auth w);
     drafts :=
       match currentUser a with
       | Some u =>
           if saveChanges then drafts w
           else Drafts.clearUserDrafts (drafts w) (Auth.id u)
       | None => drafts w
       end;
     theme := theme w |}.

Definition set_systems (l : list Assets.PharmaSystem) (adding : bool)
    (tab : Tab) (a : AppState) : AppState :=
  {| currentUser := currentUser a; activeTab := tab; systems := l;
     isAdding := adding;
     isChangePasswordOpen := isChangePasswordOpen a;
     isLogoutConfirmOpen := isLogoutConfirmOpen a;
     isAuthChecking := isAuthChecking a; darkMode := darkMode a;
     activeFilters := activeFilters a |}.

Definition handleAddSystem (newSystem : Assets.PharmaSystem) (a : AppState)
  : AppState :=
  set_systems (Assets.handleAddSystem (systems a) newSystem) false
              TabSystems a.

Definition handleUpdateProgress (i : string) (newProgress : Z)
    (a : AppState) : AppState :=
  set_systems (Assets.handleUpdateProgress (systems a) i newProgress)
              (isAdding a) (activeTab a) a.

Definition set_view (tab : Tab) (adding : bool) (f : Dashboard.Filters)
    (a : AppState) : AppState :=
  {| currentUser := currentUser a; activeTab := tab; systems := systems a;
     isAdding := adding;
     isChangePasswordOpen := isChangePasswordOpen a;
     isLogoutConfirmOpen := isLogoutConfirmOpen a;
     isAuthChecking := isAuthChecking a; darkMode := darkMode a;
     activeFilters := f |}.

Definition handleDrillDown (type status risk : option string)
    (a : AppState) : AppState :=
  set_view TabSystems (isAdding a)
           (Dashboard.handleDrillDown type status risk) a.

Definition handleTabChange (tab : Tab) (a : AppState) : AppState :=
  set_view tab
    (if decide (tab <> TabSystems) then false else isAdding a)
    (if decide (tab = TabDashboard \/ tab = TabUsers) then no_filters
     else activeFilters a)
    a.

(** [SystemForm.handleSubmit]: the asset handed to [onAdd]. *)
Definition new_system (now : Z) (name : string) (type : Assets.SystemType)
    (location : string) : Assets.PharmaSystem :=
  {| Assets.id := pretty now; Assets.name := name; Assets.type := type;
     Assets.location := location; Assets.riskLevel := Assets.Medium;
     Assets.currentStage := Assets.URS;
     Assets.status := Assets.NOT_STARTED; Assets.progress := 0;
     Assets.lastValidationDate := "N/A"; Assets.deviationsCount := 0 |}.

(** [UserManagement.handleSubmit]: nothing happens without a username
    and a password; an error of [addUser] is alerted. *)
Definition submit_new_user (now : Z) (name username password : string)
    (role : Auth.UserRole) (st : Auth.Storage) : Auth.Storage :=
  if negb (truthy username) || negb (truthy password) then st
  else
    match Auth.addUser now st
            {| Auth.n_name := Some name; Auth.n_username := username;
               Auth.n_password := password; Auth.n_role := Some role |} with
    | inr st' => st'
    | inl _ => st
    end.

(** [ChangePasswordModal.handleSubmit] for the user id passed by [App];
    [password.length] is the number of UTF-16 code units. *)
Definition submit_password (userId password confirmPassword : string)
    (st : Auth.Storage) : Auth.Storage :=
  if negb (String.eqb password confirmPassword) then st
  else if (js_length password <? 4)%nat then st
  else
    match Auth.changePassword st userId password with
    | inr st' => st'
    | inl _ => st
    end.

Inductive Event :=
| PageLoad
| ToggleTheme
| LoginSubmit (now : Z) (username password : string)
| InitiateLogout
| CancelLogout
| ConfirmLogout (saveChanges : bool)
| OpenSettings
| CloseSettings
| SubmitPassword (password confirmPassword : string)
| TabChange (tab : Tab)
| DrillDown (type status risk : option string)
| ClearFilters
| SetAdding (b : bool)
| SubmitSystem (now : Z) (name : string) (type : Assets.SystemType)
               (location : string)
| UpdateProgress (i : string) (newProgress : Z)
| OpenUserList
| SubmitNewUser (now : Z) (name username password : string)
                (role : Auth.UserRole).

(** Where the triggering element is rendered: nothing before the load
    effect has run; the login form without a current user; the shell
    with one, its [User Management] button for administrators only, the
    asset form and the asset list on the systems tab, the user form on
    the users tab, the password form in the settings dialog. *)
Definition enabled (a : AppState) (e : Event) : Prop :=
  match e with
  | PageLoad => isAuthChecking a = true
  | LoginSubmit _ _ _ => isAuthChecking a = false /\ currentUser a = None
  | _ =>
      isAuthChecking a = false /\
      exists u, currentUser a = Some u /\
        match e with
        | TabChange TabUsers => Auth.role u = Auth.ADMIN
        | ClearFilters | UpdateProgress _ _ =>
            activeTab a = TabSystems /\ isAdding a = false
        | SetAdding b => activeTab a = TabSystems /\ isAdding a = negb b
        | SubmitSystem _ _ _ _ => activeTab a = TabSystems /\ isAdding a = true
        | OpenUserList | SubmitNewUser _ _ _ _ _ => activeTab a = TabUsers
        | SubmitPassword _ _ => isChangePasswordOpen a = true
        | CancelLogout | ConfirmLogout _ => isLogoutConfirmOpen a = true
        | _ => True
        end
  end.

Definition handle (w : World) (e : Event) : World :=
  match e with
  | PageLoad => on_load w
  | ToggleTheme => toggleTheme w
  | LoginSubmit now u p => login_submit now u p w
  | InitiateLogout => set_app w (set_logout_dialog true (app w))
  | CancelLogout => set_app w (set_logout_dialog false (app w))
  | ConfirmLogout saveChanges => confirmLogout saveChanges w
  | OpenSettings => set_app w (set_settings_dialog true (app w))
  | CloseSettings => set_app w (set_settings_dialog false (app w))
  | SubmitPassword p c =>
      {| app := app w;
         auth := match currentUser (app w) with
                 | Some u => submit_password (Auth.id u) p c (auth w)
                 | None => auth w
                 end;
         drafts := drafts w; theme := theme w |}
  | TabChange tab => set_app w (handleTabChange tab (app w))
  | DrillDown t s r => set_app w (handleDrillDown t s r (app w))
  | ClearFilters =>
      set_app w (set_view (activeTab (app w)) (isAdding (app w))
                          no_filters (app w))
  | SetAdding b =>
      set_app w (set_view (activeTab (app w)) b (activeFilters (app w))
                          (app w))
  | SubmitSystem now name type location =>
      set_app w (handleAddSystem (new_system now name type location) (app w))
  | UpdateProgress i p => set_app w (handleUpdateProgress i p (app w))
  | OpenUserList =>
      {| app := app w; auth := (Auth.getAllUsers (auth w)).2;
         drafts := drafts w; theme := theme w |}
  | SubmitNewUser now name username password role =>
      {| app := app w;
         auth := submit_new_user now name username password role (auth w);
         drafts := drafts w; theme := theme w |}
  end.

(** The worlds reached from a first render over any storage. *)
Inductive reachable : World -> Prop :=
| reach_start st d t :
    reachable {| app := initial_state; auth := st; drafts := d; theme := t |}
| reach_step w e :
    reachable w -> enabled (app w) e -> reachable (handle w e).

(** *** Facts *)

(** What holds in every reachable world. *)
Definition invariant (w : World) : Prop :=
  (isAuthChecking (app w) = true ->
     currentUser (app w) = None /\ activeTab (app w) = TabDashboard) /\
  (forall u, currentUser (app w) = Some u ->
             activeTab (app w) = TabUsers -> Auth.role u = Auth.ADMIN) /\
  (isAuthChecking (app w) = false ->
     currentUser (app w) = Auth.getCurrentUser (auth w)) /\
  (isAuthChecking (app w) = false ->
     darkMode (app w) = bool_decide (theme w = Some "dark"%string)) /\
  Forall Assets.rule_ok (systems (app w)).

Lemma CURRENT_USER_submit_new_user now name username password role st :
  Auth.CURRENT_USER (submit_new_user now name username password role st)
  = Auth.CURRENT_USER st.
Proof.
  unfold submit_new_user. destruct (_ || _); [done|].
  unfold Auth.addUser. by destruct (list_find _ _).
Qed.

Lemma CURRENT_USER_submit_password userId p c st :
  Auth.CURRENT_USER (submit_password userId p c st) = Auth.CURRENT_USER st.
Proof.
  unfold submit_password. destruct (negb _); [done|].
  destruct (_ <? _)%nat; [done|].
  unfold Auth.changePassword. by destruct (list_find _ _) as [[??]|].
Qed.

Lemma invariant_step w e :
  invariant w -> enabled (app w) e -> invariant (handle w e).
Proof.
  intros (Hstart & Hadmin & Hsession & Htheme & Hrule) He.
  destruct e; simpl in He;
    try (destruct He as (Hc & u & Hu & He));
    unfold invariant; simpl.
  all: try (split_and!; try done; try (intros; congruence); fail).
  - (* PageLoad *)
    destruct (Hstart He) as [Hnone Htab].
    unfold Auth.getCurrentUser. rewrite Hnone.
    split_and!; try done.
    + intros u. rewrite Htab. by destruct (Auth.CURRENT_USER (auth w)).
    + intros _. by destruct (Auth.CURRENT_USER (auth w)).
  - (* ToggleTheme *)
    split_and!; try done. intros _. by destruct (darkMode (app w)).
  - (* LoginSubmit *)
    destruct He as [Hc Hnone]. unfold Auth.login.
    destruct (list_find _ _) as [[k user]|]; simpl.
    + split_and!; try done; intros; congruence.
    + unfold Auth.getCurrentUser in *.
      rewrite Auth.CURRENT_USER_initUsers. by split_and!.
  - (* SubmitPassword *)
    unfold Auth.getCurrentUser in *. rewrite Hu in *.
    rewrite CURRENT_USER_submit_password. by split_and!.
  - (* TabChange *)
    split_and!; try done; try (intros; congruence).
    intros u' Hu' Htab. rewrite Hu in Hu'. injection Hu' as <-.
    by subst tab.
  - (* SubmitSystem *)
    split_and!; try done; try (intros; congruence).
    unfold Assets.handleAddSystem. constructor; [|done].
    split; simpl; [discriminate|done].
  - (* UpdateProgress *)
    split_and!; try done. by apply Assets.handleUpdateProgress_rule.
  - (* OpenUserList *)
    unfold Auth.getCurrentUser in *.
    rewrite Auth.CURRENT_USER_initUsers. by split_and!.
  - (* SubmitNewUser *)
    unfold Auth.getCurrentUser in *.
    rewrite CURRENT_USER_submit_new_user. by split_and!.
Qed.

Lemma shell_invariants_aux (w : World) : reachable w -> invariant w.
Proof.
  induction 1 as [st d t|w e _ IH He].
  - unfold invariant. simpl. split_and!; try done.
    apply Assets.INITIAL_SYSTEMS_rule.
  - by apply invariant_step.
Qed.

(** X22. In every world reached from a first render, over any
    storage: the [User Management] tab is active for a current user
    only if that user is an administrator; once the load effect has
    run, the current user of the shell is the session user of the
    storage and the dark mode is the stored theme; and every asset
    satisfies the progress rule (100 implies Compliant, 0 implies Not
    Started), the added ones included. *)
Theorem shell_invariants (w : World) :
  reachable w ->
  (forall u, currentUser (app w) = Some u ->
             activeTab (app w) = TabUsers -> Auth.role u = Auth.ADMIN) /\
  (isAuthChecking (app w) = false ->
     currentUser (app w) = Auth.getCurrentUser (auth w) /\
     darkMode (app w) = bool_decide (theme w = Some "dark"%string)) /\
  Forall Assets.rule_ok (systems (app w)).
Proof.
  intros Hr.
  destruct (shell_invariants_aux w Hr)
    as (_ & Hadmin & Hsession & Htheme & Hrule).
  split_and!; try done. intros Hc. split; [by apply Hsession|by apply Htheme].
Qed.

(** X23. Who can write accounts.  One event from a reachable world
    changes the stored user list in one of three ways only: the default
    administrator is seeded into an absent list; an administrator adds
    an account, with a non-empty username and password, through the
    user form; or the current user sets a password of at least four
    UTF-16 code units (JavaScript's [length]), entered twice, on an
    account carrying the current user's own id. *)
Theorem accounts_are_written_with_rights (w : World) (e : Event) :
  reachable w -> enabled (app w) e ->
  let st := auth w in
  let st' := auth (handle w e) in
  Auth.USERS st' = Auth.USERS st \/
  (Auth.USERS st = None /\ Auth.USERS st' = Some [Auth.defaultAdmin]) \/
  (exists u now newUser,
     currentUser (app w) = Some u /\ Auth.role u = Auth.ADMIN /\
     truthy (Auth.n_username newUser) = true /\
     truthy (Auth.n_password newUser) = true /\
     Auth.addUser now st newUser = inr st') \/
  (exists u password,
     currentUser (app w) = Some u /\
     (4 <= js_length password)%nat /\
     Auth.changePassword st (Auth.id u) password = inr st').
Proof.
  intros Hr He. simpl.
  assert (Hseed : forall st,
            Auth.USERS (Auth.initUsers st) = Auth.USERS st \/
            (Auth.USERS st = None /\
             Auth.USERS (Auth.initUsers st) = Some [Auth.defaultAdmin])).
  { intros st. unfold Auth.initUsers.
    destruct (Auth.USERS st) eqn:E; [by left|by right]. }
  destruct (shell_invariants_aux w Hr) as (_ & Hadmin & _).
  destruct e; simpl in He |- *;
    try (destruct He as (Hc & u & Hu & He)); try (by left).
  - (* LoginSubmit *)
    unfold Auth.login. destruct (list_find _ _) as [[k user]|]; simpl;
      (destruct (Hseed (auth w)) as [H|H]; [by left|right; by left]).
  - (* SubmitPassword *)
    rewrite Hu. unfold submit_password.
    destruct (String.eqb password confirmPassword) eqn:E; [|by left].
    simpl. destruct (js_length password <? 4)%nat eqn:El; [by left|].
    destruct (Auth.changePassword _ _ _) as [err|st'] eqn:Ec; [by left|].
    right. right. right. exists u, password. split_and!; [done| |done].
    apply Nat.ltb_ge in El. lia.
  - (* OpenUserList *)
    destruct (Hseed (auth w)) as [H|H]; [by left|right; by left].
  - (* SubmitNewUser *)
    unfold submit_new_user.
    destruct (truthy username) eqn:Tu; [|by left].
    destruct (truthy password) eqn:Tp; [|by left]. simpl.
    destruct (Auth.addUser _ _ _) as [err|st'] eqn:Ea; [by left|].
    right. right. left. eexists u, now, _.
    split_and!; [done|by apply Hadmin|..|exact Ea]; done.
Qed.

(** X24. Logging out.  [confirmLogout] ends the session in the shell
    and in the storage and leaves the accounts alone.  With "discard"
    the drafts of the user who logs out are removed, all of them and
    no draft of another user; with "save" the drafts slot is not
    touched, and a draft is still there after the next login. *)
Theorem logout_keeps_or_discards_own_drafts (w : World) (save : bool) :
  let w' := confirmLogout save w in
  currentUser (app w') = None /\
  Auth.getCurrentUser (auth w') = None /\
  Auth.USERS (auth w') = Auth.USERS (auth w) /\
  (save = true ->
     drafts w' = drafts w /\
     forall now username password,
       drafts (login_submit now username password w') = drafts w) /\
  (save = false -> forall u, currentUser (app w) = Some u ->
     forall u' k,
       Autosave.getUserDraft (drafts w') u' k
       = if decide (u' = Auth.id u) then None
         else Autosave.getUserDraft (drafts w) u' k).
Proof.
  simpl. split_and!; try done.
  - intros ->. unfold login_submit. simpl.
    by destruct (currentUser (app w)).
  - intros -> u Hu u' k. rewrite Hu.
    apply Drafts.getUserDraft_clearUserDrafts.
Qed.

End Shell.

(** A first render over an empty storage, the load effect, the login of
    the default administrator and a move to the users tab. *)
Definition first_visit : World (Form := unit) :=
  handle
    (handle
       (handle {| app := initial_state; auth := Auth.empty_storage;
                  drafts := None; theme := None |}
               PageLoad)
       (LoginSubmit 0 "admin" "admin"))
    (TabChange TabUsers).

Lemma first_visit_reachable : reachable first_visit.
Proof.
  unfold first_visit.
  apply reach_step; [apply reach_step; [apply reach_step|]|].
  - apply reach_start.
  - reflexivity.
  - by split.
  - split; [reflexivity|]. eexists. split; [reflexivity|]. reflexivity.
Qed.

Lemma shell_invariants_witness :
  reachable first_visit /\
  activeTab (app first_visit) = TabUsers /\
  (forall u, currentUser (app first_visit) = Some u ->
             Auth.role u = Auth.ADMIN) /\
  currentUser (app first_visit) = Auth.getCurrentUser (auth first_visit).
Proof.
  destruct (shell_invariants first_visit first_visit_reachable)
    as (H1 & H2 & _).
  split; [exact first_visit_reachable|]. split; [reflexivity|].
  split; [intros u Hu; by apply H1|]. by apply H2.
Defined.

Lemma accounts_are_written_with_rights_witness :
  let e := SubmitNewUser 1700000000000 "Sara" "sara" "s3cret"
                         Auth.OPERATOR in
  reachable first_visit /\ enabled (app first_visit) e /\
  Auth.username <$> Auth.users (auth (handle first_visit e))
  = ["admin"; "sara"]%string /\
  Auth.USERS (auth (handle first_visit e))
  <> Auth.USERS (auth first_visit).
Proof.
  intros e.
  assert (He : enabled (app first_visit) e).
  { split; [reflexivity|]. eexists. split; reflexivity. }
  pose proof (accounts_are_written_with_rights first_visit e
                first_visit_reachable He) as H.
  split; [exact first_visit_reachable|]. split; [exact He|].
  split; [reflexivity|].
  destruct H as [H|[[H _]|[_|(u & p & _ & _ & H)]]];
    try discriminate; done.
Defined.

(** Three accented letters, six bytes in UTF-8 and three code units for
    JavaScript, are too short a password: nothing is written. *)
Definition three_accented : string :=
  let e := fun s => String (ascii_of_nat 195) (String (ascii_of_nat 169) s) in
  e (e (e EmptyString)).

Example short_accented_password_is_refused :
  String.length three_accented = 6%nat /\
  js_length three_accented = 3%nat /\
  js_length "s3cr" = 4%nat /\
  handle first_visit (SubmitPassword three_accented three_accented)
  = first_visit.
Proof. by vm_compute. Qed.

End Shell.

(** ** The report history ([storageService.getExcelReports]) *)

Module Reports.
Import RecordStore.

Section Reports.
Variable getTime : string -> option Z.

(** The time a report is sorted by; with valid dates it is defined. *)
Definition time (r : Types.ExcelAnalysisResult) : Z :=
  default 0 (report_time getTime r).

Lemma getExcelReports_perm st sid :
  getExcelReports getTime st sid
    ≡ₚ filter (fun r => Types.systemId r = Some sid) (reports st).
Proof.
  unfold getExcelReports, reports.
  destruct (EXCEL_REPORTS st) as [l|]; simpl; [|done].
  apply sort_perm.
Qed.

(** X25. The report history of an asset holds the stored reports that
    carry its id, whatever their order of arrival; when the dates that
    are present are valid dates it is ordered from the newest to the
    oldest, a report without a date counting as dated at the epoch; and
    saving a report for one asset leaves the history of every other
    asset as it was. *)
Theorem report_history_newest_first (st : Storage) (sid : string) :
  getExcelReports getTime st sid
    ≡ₚ filter (fun r => Types.systemId r = Some sid) (reports st) /\
  (Forall (fun r => is_Some (report_time getTime r)) (reports st) ->
   StronglySorted (fun a b => time b <= time a)
                  (getExcelReports getTime st sid)) /\
  (forall r, truthy_opt (Types.date r) = false ->
             report_time getTime r = Some 0) /\
  (forall tz now r, Types.systemId r <> Some sid ->
     getExcelReports getTime (saveExcelReport tz now st r) sid
     = getExcelReports getTime st sid).
Proof.
  split_and!.
  - apply getExcelReports_perm.
  - intros Hv. unfold getExcelReports, reports in *.
    destruct (EXCEL_REPORTS st) as [l|]; simpl in *; [|constructor].
    apply sort_sorted. intros a b Ha Hb.
    rewrite Forall_forall in Hv.
    destruct (Hv a) as [ta Hta].
    { by apply list_elem_of_filter in Ha as [_ ?]. }
    destruct (Hv b) as [tb Htb].
    { by apply list_elem_of_filter in Hb as [_ ?]. }
    unfold by_report_date_desc, time. by rewrite Hta, Htb.
  - intros r Hd. unfold report_time.
    destruct (Types.date r) as [s|]; [|done]. simpl in Hd. by rewrite Hd.
  - intros tz now r Hne. unfold getExcelReports, saveExcelReport. simpl.
    rewrite filter_app, filter_cons, decide_False by done.
    rewrite filter_nil, app_nil_r. by destruct (EXCEL_REPORTS st).
Qed.
End Reports.

End Reports.

(** ** How progress updates compose ([App.handleUpdateProgress]) *)

Module Progress.
Import Assets.

Lemma status_eqb_eq a b : status_eqb a b = true <-> a = b.
Proof. destruct a, b; simpl; split; congruence. Qed.

Lemma newStatus_idempotent old p :
  newStatus (newStatus old p) p = newStatus old p.
Proof.
  unfold newStatus. destruct (p =? 100); [done|].
  destruct ((0 <? p) && (p <? 100)).
  - destruct (status_eqb old DEVIATION) eqn:E; simpl.
    + by rewrite E.
    + done.
  - by destruct (p =? 0).
Qed.

Lemma update_one_idempotent i p sys :
  update_one i p (update_one i p sys) = update_one i p sys.
Proof.
  unfold update_one. destruct (String.eqb (id sys) i) eqn:E.
  - simpl. rewrite E. by rewrite newStatus_idempotent.
  - by rewrite E.
Qed.

Lemma update_one_commute i j p q sys :
  i <> j ->
  update_one i p (update_one j q sys) = update_one j q (update_one i p sys).
Proof.
  intros Hne. unfold update_one.
  destruct (String.eqb (id sys) i) eqn:Ei,
           (String.eqb (id sys) j) eqn:Ej; simpl; rewrite ?Ei, ?Ej; try done.
  apply String.eqb_eq in Ei, Ej. congruence.
Qed.

(** X26. Progress updates as operations on the asset list.  An update
    keeps the assets, their order and their ids; it changes nothing
    when no asset has the given id; applying it twice is applying it
    once; and updates of different ids can be made in either order.  A
    progress outside 0..100 is stored as given and leaves the status as
    it was. *)
Theorem progress_updates_compose (systems : list PharmaSystem) :
  (forall i p, id <$> handleUpdateProgress systems i p = id <$> systems) /\
  (forall i p, Forall (fun s => id s <> i) systems ->
               handleUpdateProgress systems i p = systems) /\
  (forall i p,
     handleUpdateProgress (handleUpdateProgress systems i p) i p
     = handleUpdateProgress systems i p) /\
  (forall i j p q, i <> j ->
     handleUpdateProgress (handleUpdateProgress systems j q) i p
     = handleUpdateProgress (handleUpdateProgress systems i p) j q) /\
  (forall i p sys, sys ∈ systems -> id sys = i -> p < 0 \/ 100 < p ->
     exists sys', sys' ∈ handleUpdateProgress systems i p /\
       id sys' = i /\ progress sys' = p /\ status sys' = status sys).
Proof.
  unfold handleUpdateProgress. split_and!.
  - intros i p. induction systems as [|s l IH]; [done|].
    simpl. f_equal; [|exact IH].
    unfold update_one. by destruct (String.eqb (id s) i).
  - intros i p H. induction H as [|s l Hs _ IH]; [done|].
    simpl. f_equal; [|exact IH].
    unfold update_one. destruct (String.eqb (id s) i) eqn:E; [|done].
    by apply String.eqb_eq in E.
  - intros i p. rewrite map_map. apply map_ext.
    intros s. apply update_one_idempotent.
  - intros i j p q Hne. rewrite !map_map. apply map_ext.
    intros s. by apply update_one_commute.
  - intros i p sys Hin Hid Hp. exists (update_one i p sys).
    split; [apply list_elem_of_In, in_map, list_elem_of_In, Hin|].
    unfold update_one. rewrite (proj2 (String.eqb_eq _ _) Hid). simpl.
    split_and!; [done..|].
    unfold newStatus.
    replace (p =? 100) with false by lia.
    replace ((0 <? p) && (p <? 100)) with false by lia.
    by replace (p =? 0) with false by lia.
Qed.

End Progress.

(** ** The annotation trail of the corrected file
    ([SystemList.handleDownloadCorrectedExcel]) *)

Module Corrections.
Import Types Sheet.

(** The comments added at address [a] by a list of discrepancies, in
    the order of the list. *)
Definition trail (a : string) (ds : list Discrepancy) : list Comment :=
  (fun d => {| comment_t := "MDPC Correction: " +:+ reason d |})
  <$> filter (fun d => carries_suggestion d = true /\ d_address d = a) ds.

Lemma correct_cell_keeps disc cell :
  cell_t (correct_cell disc cell) = cell_t cell /\
  cell_w (correct_cell disc cell) = cell_w cell /\
  cell_c (correct_cell disc cell)
  = Some (default [] (cell_c cell)
          ++ [ {| comment_t := "MDPC Correction: " +:+ reason disc |} ]).
Proof.
  unfold correct_cell.
  destruct (truthy_opt (suggestedFormula disc)); [done|].
  by destruct (truthy_opt (suggestedValue disc)).
Qed.

Lemma apply_correction_at ws disc ws' a cell :
  apply_correction ws disc = Goes ws' ->
  a <> "!ref"%string ->
  cells ws !! a = Some cell ->
  exists cell', cells ws' !! a = Some cell' /\
    cell_t cell' = cell_t cell /\ cell_w cell' = cell_w cell /\
    default [] (cell_c cell')
    = default [] (cell_c cell) ++ trail a [disc].
Proof.
  intros H Hne Hc. unfold trail. rewrite filter_cons, filter_nil.
  destruct (carries_suggestion disc) eqn:S.
  - destruct (decide (d_address disc = a)) as [<-|Ha].
    + assert (E : entry ws (d_address disc) = Cell cell).
      { unfold entry. apply String.eqb_neq in Hne. by rewrite Hne, Hc. }
      rewrite (apply_correction_cell _ _ _ S E) in H. injection H as <-.
      simpl. rewrite lookup_insert_eq. eexists. split; [done|].
      destruct (correct_cell_keeps disc cell) as (Ht & Hw & Hcm).
      rewrite decide_True by done. by rewrite Ht, Hw, Hcm.
    + apply apply_correction_frame in H as (_ & _ & _ & H).
      rewrite H by done. exists cell.
      rewrite decide_False by tauto. simpl. by rewrite app_nil_r.
  - rewrite apply_correction_no_suggestion in H by done. injection H as <-.
    exists cell. rewrite decide_False by (intros [? _]; done).
    simpl. by rewrite app_nil_r.
Qed.

(** X27. The trail left in the corrected file.  When the corrections
    go through (no run of the callback throws, and none writes on
    [Object.prototype]), every cell of the original sheet is still
    there with its type tag and its cached text as they were (also
    where the value or the formula was replaced), and its comments are
    the comments it had followed by one "MDPC Correction" comment for
    each discrepancy that carried a suggestion for its address, in the
    order of the discrepancy list. *)
Theorem corrections_leave_a_trail ws ds ws' :
  apply_corrections ws ds = Goes ws' ->
  forall a cell, a <> "!ref"%string -> cells ws !! a = Some cell ->
    exists cell', cells ws' !! a = Some cell' /\
      cell_t cell' = cell_t cell /\ cell_w cell' = cell_w cell /\
      default [] (cell_c cell') = default [] (cell_c cell) ++ trail a ds.
Proof.
  revert ws. induction ds as [|disc ds IH]; intros ws H a cell Hne Hc.
  - simpl in H. injection H as <-. exists cell.
    unfold trail. simpl. by rewrite app_nil_r.
  - simpl in H.
    destruct (apply_correction ws disc) as [ws1| |] eqn:E1; [|done..].
    destruct (apply_correction_at _ _ _ a cell E1 Hne Hc)
      as (c1 & Hc1 & Ht1 & Hw1 & Hm1).
    destruct (IH ws1 H a c1 Hne Hc1) as (c2 & Hc2 & Ht2 & Hw2 & Hm2).
    exists c2. split_and!; [done|congruence|congruence|].
    rewrite Hm2, Hm1, <- app_assoc. f_equal.
    unfold trail. rewrite <- fmap_app. f_equal.
    by rewrite <- filter_app.
Qed.

Lemma corrections_leave_a_trail_witness :
  let ds := [ suggestion "B2" None (Some "42");
              suggestion "Z9" None (Some "1");
              suggestion "toString" None (Some "1");
              suggestion "B2" (Some "=A1*3") None ] in
  exists ws' cell',
    apply_corrections small_sheet ds = Goes ws' /\
    cells ws' !! "B2"%string = Some cell' /\
    cell_t cell' = "n"%string /\ cell_w cell' = Some "4"%string /\
    cell_f cell' = Some "A1*3"%string /\
    default [] (cell_c cell')
    = [ {| comment_t := "MDPC Correction: Hardcoded value" |};
        {| comment_t := "MDPC Correction: Hardcoded value" |} ].
Proof.
  intros ds.
  destruct (corrections_leave_a_trail small_sheet ds _ eq_refl
              "B2" cell_B2 ltac:(discriminate) eq_refl)
    as (cell' & Hc & Ht & Hw & Hm).
  eexists _, cell'. split; [reflexivity|]. split; [exact Hc|].
  split; [exact Ht|]. split; [exact Hw|]. split; [|exact Hm].
  vm_compute in Hc. by injection Hc as <-.
Defined.

End Corrections.

(** ** The spreadsheet panel while an upload is in flight
    ([SystemList.tsx])

    [handleFileUpload] runs in three stretches, with renders in between:
    up to [reader.readAsArrayBuffer]; the [onload] callback up to the
    [await] of [validateSpreadsheet]; and the rest of the callback once
    the analysis is there.  The result panel, with its download button,
    is rendered whenever [excelResult] is set. *)

Module ExcelPanel.
Import Types.

Record PanelState := {
  currentExcelFile : option string;          (* the name of the file *)
  originalExcelData : option Sheet.WorkSheet;
  excelResult : option ExcelAnalysisResult;
  isAnalyzingExcel : bool
}.

(** [setCurrentExcelFile(file); setIsAnalyzingExcel(true)] *)
Definition chosen (name : string) (s : PanelState) : PanelState :=
  {| currentExcelFile := Some name;
     originalExcelData := originalExcelData s;
     excelResult := excelResult s;
     isAnalyzingExcel := true |}.

(** [setOriginalExcelData(bstr)], the data given by the worksheet they
    parse to. *)
Definition read (ws : Sheet.WorkSheet) (s : PanelState) : PanelState :=
  {| currentExcelFile := currentExcelFile s;
     originalExcelData := Some ws;
     excelResult := excelResult s;
     isAnalyzingExcel := isAnalyzingExcel s |}.

(** [setExcelResult(analysis); setIsAnalyzingExcel(false)] *)
Definition analysed (analysis : ExcelAnalysisResult) (s : PanelState)
  : PanelState :=
  {| currentExcelFile := currentExcelFile s;
     originalExcelData := originalExcelData s;
     excelResult := Some analysis;
     isAnalyzingExcel := false |}.

(** A click on the download button, where it is rendered. *)
Definition download (s : PanelState) : option Sheet.Outcome :=
  match excelResult s with
  | Some _ =>
      Some (Sheet.handleDownloadCorrectedExcel
              (originalExcelData s) (excelResult s) (currentExcelFile s))
  | None => None
  end.

(** A whole upload: the three stretches, the last one with the result
    that [handleFileUpload] shows. *)
Definition uploaded (env : Gateway.Env) (tz : JsDate.TimeZone)
    (now_stamp now_save : Z) (sops : list Sops.SOP) (name : string)
    (ws : Sheet.WorkSheet) (sysId : string) (st : RecordStore.Storage)
    (s : PanelState) : PanelState :=
  match Panel.handleFileUpload env tz now_stamp now_save sops
          (Some (name, ws)) sysId st with
  | Some up => analysed (Panel.excelResult up) (read ws (chosen name s))
  | None => s
  end.

(** X28. The download button while a second file is being analysed.
    After an upload has completed the button writes the corrected copy
    of that file from its own result.  Once another file is chosen the
    result shown is still the previous one until the new analysis
    arrives: a click in that time names the output after the new file
    and applies the previous file's discrepancies, first to the
    previous sheet and, as soon as the new file is read, to the new
    sheet. *)
Theorem download_during_analysis_uses_previous_result
    env tz now_stamp now_save sops name1 ws1 sysId st s0 name2 ws2 :
  let s1 := uploaded env tz now_stamp now_save sops name1 ws1 sysId st s0 in
  exists r1,
    excelResult s1 = Some r1 /\ fileName r1 = name1 /\
    download s1
    = Some (Sheet.handleDownloadCorrectedExcel (Some ws1) (Some r1)
                                               (Some name1)) /\
    isAnalyzingExcel s1 = false /\
    isAnalyzingExcel (chosen name2 s1) = true /\
    download (chosen name2 s1)
    = Some (Sheet.handleDownloadCorrectedExcel (Some ws1) (Some r1)
                                               (Some name2)) /\
    download (read ws2 (chosen name2 s1))
    = Some (Sheet.handleDownloadCorrectedExcel (Some ws2) (Some r1)
                                               (Some name2)).
Proof.
  intros s1. subst s1. unfold uploaded, Panel.handleFileUpload.
  cbn [Panel.excelResult].
  eexists. split; [reflexivity|]. split; [|by split_and!].
  cbn [fileName set_retentionDate stamp].
  rewrite Gateway.validateSpreadsheet_outcomes.
  destruct (Gateway.client_ready env); [|done].
  destruct (length _ =? 0)%nat; [done|].
  destruct (Gateway.generateContent env _) as [|text]; [done|].
  by destruct (Gateway.parsed_text env text).
Qed.

(** The sheet of a second file, with a hardcoded value at B2. *)
Definition other_sheet : Sheet.WorkSheet :=
  {| Sheet.ref := Some {| Sheet.s_r := 0; Sheet.s_c := 0;
                          Sheet.e_r := 1; Sheet.e_c := 1 |};
     Sheet.cells :=
       {[ "B2"%string :=
            {| Sheet.cell_f := None; Sheet.cell_v := VNumber 7;
               Sheet.cell_c := None; Sheet.cell_t := "n";
               Sheet.cell_w := Some "7" |} ]};
     Sheet.specials := ∅ |}.

(** A capability that flags B2 of whatever it is sent. *)
Definition flags_B2 : Gateway.Env :=
  {| Gateway.client_ready := true;
     Gateway.generateContent := fun _ => Gateway.Response (Some "{...}");
     Gateway.JSON_parse := fun _ =>
       Gateway.JsonValue
         (Some [Sheet.suggestion "B2" None (Some "42")]) None |}.

Example stale_result_corrects_the_new_file :
  let s1 := uploaded flags_B2 JsDate.utc_zone 1706745599900 1706745600200
              [] "calc.xlsx" Sheet.small_sheet "5"
              RecordStore.empty_storage
              {| currentExcelFile := None; originalExcelData := None;
                 excelResult := None; isAnalyzingExcel := false |} in
  exists ws',
    download (read other_sheet (chosen "dose.xlsx" s1))
    = Some (Sheet.WriteFile "Corrected_dose.xlsx" ws') /\
    Sheet.cell_v <$> Sheet.cells ws' !! "B2"%string = Some (VString "42").
Proof. eexists. split; [reflexivity|]. by vm_compute. Qed.

End ExcelPanel.
